(** * Build orchestration of okteto's v2 builder (cmd/build/v2/build.go)

    A shallow embedding of the build orchestrator: the dependency-aware
    polling loop of [Build], the strategy switch of [buildServiceImages],
    the two build paths ([buildSvcFromDockerfile], [addVolumeMounts]), the
    volume-mount filter and the option validation.

    Conventions of the embedding:
    - Go maps ([map[string]bool], [model.ManifestBuild], [model.BuildSecrets])
      are [gmap string _]; slices are lists; a nil slice is [None].
    - The manifest holds pointers to its build units: a write through such a
      pointer is a write to the manifest, which is therefore part of the
      threaded state.
    - External collaborators (registry, executor, repository, file system,
      context store) act on an abstract world; they are the fields of the
      class [Collaborators].
    - A ghost trace records the calls that cross the boundary of the package,
      so that ordering properties can be stated.
    - Logger calls, the stage display and the timing fields of the analytics
      metadata are not modelled. *)

From Stdlib Require Import Ascii String NArith.
From stdpp Require Import gmap strings list fin_maps sorting.

Local Open Scope string_scope.

(** ** SHA-256 (crypto/sha256) and hex encoding (encoding/hex) *)

Module SHA256.
Local Open Scope N_scope.

Definition mask32 : N := 0xFFFFFFFF.
Definition w32 (x : N) : N := N.land x mask32.
Definition add32 (x y : N) : N := w32 (x + y).
Definition rotr (n x : N) : N :=
  N.lor (N.shiftr x n) (w32 (N.shiftl x (32 - n))).
Definition not32 (x : N) : N := N.lxor x mask32.

Definition Ch (x y z : N) : N := N.lxor (N.land x y) (N.land (not32 x) z).
Definition Maj (x y z : N) : N :=
  N.lxor (N.lxor (N.land x y) (N.land x z)) (N.land y z).
Definition Sigma0 (x : N) : N := N.lxor (N.lxor (rotr 2 x) (rotr 13 x)) (rotr 22 x).
Definition Sigma1 (x : N) : N := N.lxor (N.lxor (rotr 6 x) (rotr 11 x)) (rotr 25 x).
Definition sigma0 (x : N) : N := N.lxor (N.lxor (rotr 7 x) (rotr 18 x)) (N.shiftr x 3).
Definition sigma1 (x : N) : N := N.lxor (N.lxor (rotr 17 x) (rotr 19 x)) (N.shiftr x 10).

(** FIPS 180-4, sections 4.2.2 and 5.3.3: the round constants are the first
    32 bits of the fractional parts of the cube roots of the first 64 primes,
    the initial hash value those of the square roots of the first 8. *)
Definition isPrime (n : nat) : bool :=
  forallb (fun d => negb (Nat.eqb (Nat.modulo n d) 0)) (seq 2 (n - 2)).

Definition firstPrimes (count : nat) : list N :=
  map N.of_nat (take count (List.filter isPrime (seq 2 400))).

(** The largest [r] below [2 ^ bits] extending [r] with [r ^ 3 <= n]. *)
Fixpoint cubeRoot (bits : nat) (n r : N) : N :=
  match bits with
  | O => r
  | S k =>
      let r' := r + N.shiftl 1 (N.of_nat k) in
      cubeRoot k n (if r' * r' * r' <=? n then r' else r)
  end.

Definition fracCubeRoot (p : N) : N := w32 (cubeRoot 36 (N.shiftl p 96) 0).
Definition fracSquareRoot (p : N) : N := w32 (N.sqrt (N.shiftl p 64)).

Definition K : list N := Eval vm_compute in map fracCubeRoot (firstPrimes 64).
Definition H0 : list N := Eval vm_compute in map fracSquareRoot (firstPrimes 8).

(** [n] as [k] big-endian bytes. *)
Fixpoint be_bytes (k : nat) (n : N) : list N :=
  match k with
  | O => []
  | S k' => N.land (N.shiftr n (8 * N.of_nat k')) 0xFF :: be_bytes k' n
  end.

Fixpoint be_word (bs : list N) (acc : N) : N :=
  match bs with
  | [] => acc
  | b :: bs' => be_word bs' (N.lor (N.shiftl acc 8) b)
  end.

(** The message, a 0x80 byte, zeros up to 56 mod 64, the bit length on 8 bytes. *)
Definition pad (msg : list N) : list N :=
  let len := N.of_nat (length msg) in
  let zeros := N.to_nat ((55 + 64 - len mod 64) mod 64) in
  msg ++ 0x80 :: repeat 0 zeros ++ be_bytes 8 (8 * len).

Fixpoint words (fuel : nat) (bs : list N) : list N :=
  match fuel, bs with
  | S f, _ :: _ => be_word (take 4 bs) 0 :: words f (drop 4 bs)
  | _, _ => []
  end.

(** The message schedule, newest word first: the window [win] holds the
    last sixteen words. *)
Fixpoint schedule (n : nat) (win : list N) (acc : list N) : list N :=
  match n with
  | O => rev acc
  | S n' =>
      let w := add32 (add32 (sigma1 (nth 1 win 0)) (nth 6 win 0))
                     (add32 (sigma0 (nth 14 win 0)) (nth 15 win 0)) in
      schedule n' (w :: take 15 win) (w :: acc)
  end.

Definition round (st : list N) (kw : N * N) : list N :=
  match st with
  | [a; b; c; d; e; f; g; h] =>
      let t1 := add32 (add32 (add32 h (Sigma1 e)) (add32 (Ch e f g) kw.1)) kw.2 in
      let t2 := add32 (Sigma0 a) (Maj a b c) in
      [add32 t1 t2; a; b; c; add32 d t1; e; f; g]
  | _ => st
  end.

Definition compress (h : list N) (block : list N) : list N :=
  let w := schedule 48 (rev block) (rev block) in
  let st := fold_left round (zip K w) h in
  zip_with add32 h st.

Fixpoint blocks (fuel : nat) (ws : list N) : list (list N) :=
  match fuel, ws with
  | S f, _ :: _ => take 16 ws :: blocks f (drop 16 ws)
  | _, _ => []
  end.

Definition sum256 (msg : list N) : list N :=
  let p := pad msg in
  let ws := words (length p) p in
  let h := fold_left compress (blocks (length ws) ws) H0 in
  concat (map (be_bytes 4) h).

Definition hexdigit (n : N) : Ascii.ascii :=
  match String.get (N.to_nat n) "0123456789abcdef" with
  | Some c => c
  | None => "0"%char
  end.

(** hex.EncodeToString *)
Fixpoint encodeToString (bs : list N) : string :=
  match bs with
  | [] => EmptyString
  | b :: bs' =>
      String (hexdigit (N.shiftr b 4))
        (String (hexdigit (N.land b 0xF)) (encodeToString bs'))
  end.

Definition bytes_of_string (s : string) : list N :=
  map Ascii.N_of_ascii (String.list_ascii_of_string s).
End SHA256.

(** hashString: hex-encoded SHA-256 of the bytes of the string. *)
Definition hashString (s : string) : string :=
  SHA256.encodeToString (SHA256.sum256 (SHA256.bytes_of_string s)).


(** ** Data model (pkg/model, pkg/types, pkg/okteto) *)

Module StackVolume.
Record t := mk { LocalPath : string; RemotePath : string }.
End StackVolume.

Module BuildArg.
Record t := mk { Name : string; Value : string }.
End BuildArg.

(** model.BuildInfo: one build unit. [Secrets] is a Go map. *)
Module BuildInfo.
Record t := mk {
  Context : string;
  Dockerfile : string;
  Target : string;
  Image : string;
  Args : list BuildArg.t;
  Secrets : gmap string string;
  VolumesToInclude : list StackVolume.t;
  DependsOn : list string
}.

Definition empty : t := mk "" "" "" "" [] ∅ [] [].

Definition withImage (image : string) (b : t) : t :=
  mk (Context b) (Dockerfile b) (Target b) image (Args b) (Secrets b)
     (VolumesToInclude b) (DependsOn b).

Definition withVolumesToInclude (vols : list StackVolume.t) (b : t) : t :=
  mk (Context b) (Dockerfile b) (Target b) (Image b) (Args b) (Secrets b)
     vols (DependsOn b).

Definition withArgs (args : list BuildArg.t) (b : t) : t :=
  mk (Context b) (Dockerfile b) (Target b) (Image b) args (Secrets b)
     (VolumesToInclude b) (DependsOn b).
End BuildInfo.

Inductive ManifestType := OktetoManifestType | StackType | OtherManifestType.

#[global] Instance ManifestType_eq_dec : EqDecision ManifestType.
Proof. solve_decision. Defined.

Module DeployInfo.
(** Only the presence of the compose section is read by the builder. *)
Record t := mk { ComposeSection : option unit }.
End DeployInfo.

(** model.Manifest ([Type_] is its Type field). [Build] is the [model.ManifestBuild] map of unit name to
    (a pointer to) its build unit. A key always holds a unit here: a key
    that holds a nil pointer is not represented. *)
Module Manifest.
Record t := mk {
  Name : string;
  Type_ : ManifestType;
  Build : gmap string BuildInfo.t;
  Deploy : option DeployInfo.t
}.

Definition withName (name : string) (m : t) : t :=
  mk name (Type_ m) (Build m) (Deploy m).
Definition withBuild (b : gmap string BuildInfo.t) (m : t) : t :=
  mk (Name m) (Type_ m) b (Deploy m).
End Manifest.

(** types.BuildOptions. The [Manifest] field is a pointer: the manifest it
    points to is kept in the threaded state, not here. [CacheFrom] and
    [Secrets] are slices compared with nil. *)
Module BuildOptions.
Record t := mk {
  File : string;
  CommandArgs : list string;
  Tag : string;
  DevTag : string;
  Target : string;
  CacheFrom : option (list string);
  Secrets : option (list string);
  BuildArgs : list string;
  NoCache : bool;
  EnableStages : bool
}.

Definition empty : t := mk "" [] "" "" "" None None [] false false.

Definition withFile (file : string) (o : t) : t :=
  mk file (CommandArgs o) (Tag o) (DevTag o) (Target o) (CacheFrom o)
     (Secrets o) (BuildArgs o) (NoCache o) (EnableStages o).
Definition withTag (tag : string) (o : t) : t :=
  mk (File o) (CommandArgs o) tag (DevTag o) (Target o) (CacheFrom o)
     (Secrets o) (BuildArgs o) (NoCache o) (EnableStages o).
End BuildOptions.

(** okteto.OktetoContext, the current entry of the context store. *)
Module OktetoContext.
Record t := mk { Namespace : string; IsOkteto : bool; Registry : string }.
End OktetoContext.

(** The configuration snapshot behind [oktetoBuilderConfigInterface]. *)
Module Config.
Record t := mk {
  HasGlobalAccess : bool;
  IsCleanProject : bool;
  GetGitCommit : string;
  IsOkteto : bool;
  GetAnonymizedRepo : string;
  IsSmartBuildsEnabled : bool
}.
End Config.

(** analytics.ImageBuildMetadata without its duration fields. *)
Module ImageBuildMetadata.
Record t := mk {
  Name : string;
  RepoURL : string;
  RepoHash : string;
  BuildContextHash : string;
  CacheHit : bool;
  Success : bool
}.
Definition withCacheHit (b : bool) (m : t) : t :=
  mk (Name m) (RepoURL m) (RepoHash m) (BuildContextHash m) b (Success m).
Definition withSuccess (b : bool) (m : t) : t :=
  mk (Name m) (RepoURL m) (RepoHash m) (BuildContextHash m) (CacheHit m) b.
End ImageBuildMetadata.

(** ** Errors and results *)

(** The errors the builder creates itself, and [ExternalError] for those a
    collaborator hands back. [ErrBuildingService] wraps with [%w]. *)
Inductive Error :=
| ErrNoServicesToBuildDefined
| ErrNoFlagAllowedOnSingleImageBuild
| ErrInvalidServiceNames (invalid : list string)
| ErrImageRequired (svc : string)
| ErrBuildingService (svc : string) (err : Error)
| ErrExpandingBuildArgs (svc : string) (err : Error)
| ErrAccessingImage (reference : string) (err : Error)
| UserError (E : string) (Hint : string)
| ExternalError (msg : string).

(** The text of the errors whose format string is in build.go. *)
Fixpoint Error_message (e : Error) : string :=
  match e with
  | ErrImageRequired svc =>
      "'build." ++ svc ++ ".image' is required if your context doesn't have Okteto installed"
  | ErrBuildingService svc err =>
      "error building service '" ++ svc ++ "': " ++ Error_message err
  | ErrExpandingBuildArgs svc err =>
      "error expanding build args from service '" ++ svc ++ "': " ++ Error_message err
  | ErrAccessingImage reference err =>
      "error accessing image at registry " ++ reference ++ ": " ++ Error_message err
  | ErrInvalidServiceNames invalid =>
      "invalid services names, not found at manifest: ["
        ++ String.concat " " invalid ++ "]"
  | UserError E _ => E
  | ExternalError msg => msg
  | ErrNoServicesToBuildDefined => "ErrNoServicesToBuildDefined"
  | ErrNoFlagAllowedOnSingleImageBuild => "ErrNoFlagAllowedOnSingleImageBuild"
  end.

(** errors.Is(err, target) for the sentinel [ErrNoServicesToBuildDefined]:
    the error itself or an error that wraps it with [%w]. *)
Fixpoint isNoServicesToBuildDefined (e : Error) : bool :=
  match e with
  | ErrNoServicesToBuildDefined => true
  | ErrBuildingService _ err => isNoServicesToBuildDefined err
  | ErrExpandingBuildArgs _ err => isNoServicesToBuildDefined err
  | _ => false
  end.

(** The result of a call returning [(T, error)]; [Panic] is a nil-pointer
    dereference. *)
Inductive Res (A : Type) :=
| Ok (a : A)
| Err (e : Error)
| Panic.
Arguments Ok {A} a.
Arguments Err {A} e.
Arguments Panic {A}.

(** syscall error numbers a stat call reports. *)
Inductive Errno := ENOENT | ENOTDIR | EACCES | ELOOP | ENAMETOOLONG | EIO.

(** os.IsNotExist on the error of os.Stat ([None] is the nil error): only
    ENOENT is ErrNotExist. *)
Definition os_IsNotExist (err : option Errno) : bool :=
  match err with
  | Some ENOENT => true
  | _ => false
  end.

(** ** The ghost trace *)

(** Calls that leave the package, newest first, and three ghost marks of the
    scheduling loop: [EvAttempt] when a unit has passed both gates of the
    loop (its build starts), [EvBuilt] when it enters the built-set,
    [EvBuildFailed] when [buildServiceImages] handed back an error. *)
Inductive Event :=
| EvChdir (dir : string)
| EvAttempt (svc : string)
| EvCheckBuilt (svc : string) (buildHash : string)
| EvClone (image : string) (tag : string)
| EvSetServiceEnvVars (svc : string) (image : string)
| EvBuilt (svc : string)
| EvBuildServiceImages (svc : string)
| EvBuildFailed (svc : string) (err : Error)
| EvAddBuildArgs (svc : string)
| EvV1Build (opts : BuildOptions.t)
| EvCreateDockerfile (fromImage : string) (vols : list StackVolume.t)
| EvExpandEnvVars
| EvTrackImageBuild (meta : list ImageBuildMetadata.t).

(** The two tagging strategies behind [imageTaggerInterface]. *)
Inductive imageTagger :=
| ImageTagger (cfg : Config.t)
| ImageTaggerWithVolumes (cfg : Config.t).

Definition newImageTagger (cfg : Config.t) : imageTagger := ImageTagger cfg.
Definition newImageWithVolumesTagger (cfg : Config.t) : imageTagger :=
  ImageTaggerWithVolumes cfg.

(** The value [newImageChecker cfg registry tagger logger] builds. *)
Record imageChecker := newImageChecker {
  checkerCfg : Config.t;
  checkerTagger : imageTagger
}.

(** ** Collaborators

    What the builder calls outside build.go, over an abstract world (file
    system, process environment, registries, context store, the builder's
    own [buildEnvironments] map). A call that changes the world returns the
    new one. *)
Class Collaborators (World : Type) := {
  (* pkg/env, os, pkg/model *)
  LoadBoolean : string -> World -> bool;
  LookupEnv : string -> World -> option string;
  Chdir : string -> World -> option Error * World;
  Getwd : World -> Res string;
  Stat : string -> World -> option Errno;
  GetWorkdirFromManifestPath : string -> string;
  GetManifestPathFromWorkdir : string -> string -> string;
  (* the order in which [range] visits the keys of the build section *)
  RangeKeys : gmap string BuildInfo.t -> World -> list string;
  GetSvcsToBuildFromList : gmap string BuildInfo.t -> list string -> list string;
  ExpandEnvVars : Manifest.t -> World -> option Error * Manifest.t;
  (* pkg/okteto, pkg/devenvironment *)
  okteto_Context : World -> OktetoContext.t;
  ProvideK8sClient : World -> option Error;
  InferName : string -> string -> string -> World -> string;
  (* the repository behind the hasher, and its two unobserved hashes *)
  GetSHA : World -> Res string;
  hashBuildContext : BuildInfo.t -> World -> string;
  hashService : BuildInfo.t -> World -> string;
  (* the namespace root of synthesized image references *)
  privateNamespace : World -> string;
  (* registry *)
  GetImageTagWithDigest : string -> World -> Res string;
  IsOktetoRegistry : string -> World -> bool;
  IsGlobalRegistry : string -> World -> bool;
  CloneGlobalImageToDev : string -> string -> World -> Res string * World;
  (* image checker *)
  checkIfBuildHashIsBuilt :
    imageChecker -> string -> string -> string -> World -> (string * bool) * World;
  (* environment exporter and build executor *)
  SetServiceEnvVars : string -> string -> World -> World;
  AddBuildArgs : BuildInfo.t -> World -> Res BuildInfo.t;
  OptsFromBuildInfo :
    string -> string -> BuildInfo.t -> BuildOptions.t -> World -> BuildOptions.t;
  V1Build : BuildOptions.t -> World -> option Error * World;
  CreateDockerfileWithVolumeMounts :
    string -> list StackVolume.t -> World -> Res BuildInfo.t * World
}.

(** ** State threaded through the builder *)

Record St (World : Type) := mkSt {
  world : World;
  manifest : Manifest.t;
  trace : list Event
}.
Arguments mkSt {World} world manifest trace.
Arguments world {World} s.
Arguments manifest {World} s.
Arguments trace {World} s.

Definition M (World A : Type) : Type := St World -> Res A * St World.

Definition ret {World A} (a : A) : M World A := fun s => (Ok a, s).
Definition fail {World A} (e : Error) : M World A := fun s => (Err e, s).
Definition bind {World A B} (m : M World A) (k : A -> M World B) : M World B :=
  fun s =>
    match m s with
    | (Ok a, s') => k a s'
    | (Err e, s') => (Err e, s')
    | (Panic, s') => (Panic, s')
    end.

Notation "x <- m ;; k" := (bind m (fun x => k))
  (at level 100, m at next level, right associativity).
Notation "m ;;; k" := (bind m (fun _ => k))
  (at level 100, right associativity).

Definition getWorld {World} : M World World := fun s => (Ok (world s), s).
Definition getManifest {World} : M World Manifest.t := fun s => (Ok (manifest s), s).
Definition putWorld {World} (w : World) : M World unit :=
  fun s => (Ok tt, mkSt w (manifest s) (trace s)).
Definition putManifest {World} (m : Manifest.t) : M World unit :=
  fun s => (Ok tt, mkSt (world s) m (trace s)).
Definition emit {World} (e : Event) : M World unit :=
  fun s => (Ok tt, mkSt (world s) (manifest s) (e :: trace s)).

(** Dereference of a pointer read from a map: a missing key gives nil. *)
Definition deref {World A} (p : option A) : M World A :=
  fun s => match p with Some a => (Ok a, s) | None => (Panic, s) end.

(** [if err != nil] on a call that returns only an error. *)
Definition check {World} (err : option Error) : M World unit :=
  match err with
  | Some e => fail e
  | None => ret tt
  end.

Definition liftRes {World A} (r : Res A) : M World A := fun s => (r, s).

(** Rewrites the error of [m], as [fmt.Errorf] does around a call. *)
Definition mapErr {World A} (f : Error -> Error) (m : M World A) : M World A :=
  fun s =>
    match m s with
    | (Err e, s') => (Err (f e), s')
    | r => r
    end.

(** ** Fingerprint generator *)

Section Hasher.
Context {World : Type} `{!Collaborators World}.

Definition isNameChar (c : Ascii.ascii) : bool :=
  let n := Ascii.nat_of_ascii c in
  (Nat.leb 48 n && Nat.leb n 57) || (Nat.leb 65 n && Nat.leb n 90)
  || (Nat.leb 97 n && Nat.leb n 122) || Nat.eqb n 95.

Definition isDollar (c : Ascii.ascii) : bool := Nat.eqb (Ascii.nat_of_ascii c) 36.

(** The text a pending [$NAME] stands for; a lone [$] stays. *)
Definition flushVar (lookup : string -> option string) (pending : option string) : string :=
  match pending with
  | None => ""
  | Some EmptyString => "$"
  | Some name => default "" (lookup name)
  end.

(** Modelled from the spec: expansion of a build-argument value against the
    ambient variable environment (the expansion routine is not among the
    sources): [$NAME] is replaced by the value of NAME, by nothing when NAME
    is unset. [pending] holds the name being read after a [$]. *)
Fixpoint expandFrom (lookup : string -> option string) (pending : option string)
    (s : string) : string :=
  match s with
  | EmptyString => flushVar lookup pending
  | String c rest =>
      match pending with
      | Some name =>
          if isNameChar c then expandFrom lookup (Some (name ++ String c EmptyString)) rest
          else if isDollar c then flushVar lookup pending ++ expandFrom lookup (Some "") rest
          else flushVar lookup pending ++ String c (expandFrom lookup None rest)
      | None =>
          if isDollar c then expandFrom lookup (Some "") rest
          else String c (expandFrom lookup None rest)
      end
  end.

Definition expandEnv (w : World) (s : string) : string :=
  expandFrom (fun name => LookupEnv name w) None s.

Fixpoint insertByKey (kv : string * string) (l : list (string * string)) :
    list (string * string) :=
  match l with
  | [] => [kv]
  | kv' :: l' =>
      if String.leb kv.1 kv'.1 then kv :: l else kv' :: insertByKey kv l'
  end.

(** The entries of a secrets map in lexicographic key order. *)
Definition sortedSecrets (secrets : gmap string string) : list (string * string) :=
  foldr insertByKey [] (map_to_list secrets).

Definition argText (w : World) (arg : BuildArg.t) : string :=
  BuildArg.Name arg ++ "=" ++ expandEnv w (BuildArg.Value arg).

Definition secretText (kv : string * string) : string := kv.1 ++ "=" ++ kv.2.

(** Modelled from the spec: the grammar string of the project-commit
    fingerprint (the hasher is not among the sources; its test is):
    [commit:<sha>;target:<target>;build_args:<k1>=<v1>;...;secrets:<k1>=<v1>;...;
    context:<context>;dockerfile:<dockerfile>;image:<image>;], arguments in
    declared order with expanded values, secrets in key order. *)
Definition oneLineBuildInfo (w : World) (commit : string) (b : BuildInfo.t) : string :=
  "commit:" ++ commit ++ ";"
  ++ "target:" ++ BuildInfo.Target b ++ ";"
  ++ "build_args:" ++ String.concat ";" (map (argText w) (BuildInfo.Args b)) ++ ";"
  ++ "secrets:" ++ String.concat ";" (map secretText (sortedSecrets (BuildInfo.Secrets b))) ++ ";"
  ++ "context:" ++ BuildInfo.Context b ++ ";"
  ++ "dockerfile:" ++ BuildInfo.Dockerfile b ++ ";"
  ++ "image:" ++ BuildInfo.Image b ++ ";".

(** Step 1 of the fingerprint: the commit id of the repository, the empty
    string when the lookup fails. *)
Definition projectCommit (w : World) : string :=
  match GetSHA w with
  | Ok sha => sha
  | _ => ""
  end.

(** Modelled from the spec: serviceHasher.hashProjectCommit, the SHA-256 hex
    digest of the grammar string. It returns a string on every input. *)
Definition hashProjectCommit (b : BuildInfo.t) (w : World) : string :=
  hashString (oneLineBuildInfo w (projectCommit w) b).

End Hasher.

(** ** Tag strategy *)

Section Tagger.
Context {World : Type} `{!Collaborators World}.

Definition OktetoDefaultImageTag : string := "okteto".
Definition OktetoImageTagWithVolumes : string := "okteto-with-volume-mounts".

Definition useReferenceTemplate (ns name svcName tag : string) : string :=
  ns ++ "/" ++ name ++ "-" ++ svcName ++ ":" ++ tag.

(** Modelled from the spec: imageTaggerInterface.getServiceImageReference
    (the taggers are not among the sources). The standard tagger returns an
    explicit image verbatim and otherwise the reference
    [<namespace>/<plan>-<unit>:okteto]; the volume-mount tagger names the
    image the same way under the tag [okteto-with-volume-mounts]. The unit of
    a compose plan reaches the standard tagger with its image blanked by
    [getBuildInfoWithoutVolumeMounts]. The fingerprint is the cache key, not
    part of the tag. *)
Definition getServiceImageReference (t : imageTagger) (w : World)
    (manifestName svcName : string) (b : BuildInfo.t) (buildHash : string) : string :=
  match t with
  | ImageTagger _ =>
      if bool_decide (BuildInfo.Image b = "")
      then useReferenceTemplate (privateNamespace w) manifestName svcName OktetoDefaultImageTag
      else BuildInfo.Image b
  | ImageTaggerWithVolumes _ =>
      useReferenceTemplate (privateNamespace w) manifestName svcName OktetoImageTagWithVolumes
  end.

End Tagger.

(** ** build.go *)

Section Builder.
Context {World : Type} `{!Collaborators World}.

(** okteto.IsOkteto(): the flag of the current context. *)
Definition okteto_IsOkteto (w : World) : bool :=
  OktetoContext.IsOkteto (okteto_Context w).

(** constants.OktetoDeployRemote *)
Definition OktetoDeployRemote : string := "OKTETO_DEPLOY_REMOTE".

Fixpoint areAllServicesBuilt (services : list string) (control : gmap string bool) : bool :=
  match services with
  | [] => true
  | service :: rest =>
      match control !! service with
      | None => false
      | Some _ => areAllServicesBuilt rest control
      end
  end.

(** [control[service]]: the zero value [false] for a missing key. *)
Definition skipServiceBuild (service : string) (control : gmap string bool) : bool :=
  default false (control !! service).

Definition serviceHasDockerfile (buildInfo : BuildInfo.t) : bool :=
  negb (bool_decide (BuildInfo.Dockerfile buildInfo = "")).

Definition serviceHasVolumesToInclude (buildInfo : BuildInfo.t) : bool :=
  Nat.ltb 0 (length (BuildInfo.VolumesToInclude buildInfo)).

Definition getAccessibleVolumeMounts (w : World) (buildInfo : BuildInfo.t) :
    list StackVolume.t :=
  fold_left
    (fun accessibleVolumeMounts volume =>
       if negb (os_IsNotExist (Stat (StackVolume.LocalPath volume) w))
       then (accessibleVolumeMounts ++ [volume])%list
       else accessibleVolumeMounts)
    (BuildInfo.VolumesToInclude buildInfo) [].

Definition getBuildInfoWithoutVolumeMounts (w : World) (buildInfo : BuildInfo.t)
    (isStackManifest : bool) : BuildInfo.t :=
  let result := buildInfo in
  let result :=
    if Nat.ltb 0 (length (BuildInfo.VolumesToInclude result))
    then BuildInfo.withVolumesToInclude [] result else result in
  if isStackManifest && okteto_IsOkteto w
     && negb (IsOktetoRegistry (BuildInfo.Image buildInfo) w)
  then BuildInfo.withImage "" result else result.

Definition getBuildInfoWithVolumeMounts (w : World) (buildInfo : BuildInfo.t)
    (isStackManifest : bool) : BuildInfo.t :=
  let result := buildInfo in
  let result :=
    if isStackManifest && okteto_IsOkteto w
    then BuildInfo.withImage "" result else result in
  BuildInfo.withVolumesToInclude (getAccessibleVolumeMounts w buildInfo) result.

Definition getToBuildSvcs (w : World) (manifest : Manifest.t)
    (options : BuildOptions.t) : list string :=
  if negb (Nat.eqb (length (BuildOptions.CommandArgs options)) 0)
  then GetSvcsToBuildFromList (Manifest.Build manifest) (BuildOptions.CommandArgs options)
  else fold_left (fun toBuild svcName => (toBuild ++ [svcName])%list)
         (RangeKeys (Manifest.Build manifest) w) [].

Definition validateServices (buildSection : gmap string BuildInfo.t)
    (svcsToBuild : list string) : option Error :=
  let invalid :=
    fold_left
      (fun invalid service =>
         match buildSection !! service with
         | None => (invalid ++ [service])%list
         | Some _ => invalid
         end)
      svcsToBuild [] in
  if negb (Nat.eqb (length invalid) 0) then Some (ErrInvalidServiceNames invalid)
  else None.

Definition validateOptions (manifest : Manifest.t) (svcsToBuild : list string)
    (options : BuildOptions.t) : option Error :=
  if Nat.eqb (length svcsToBuild) 0 then Some ErrNoServicesToBuildDefined
  else
    match validateServices (Manifest.Build manifest) svcsToBuild with
    | Some err => Some err
    | None =>
        if negb (Nat.eqb (length svcsToBuild) 1)
           && (negb (bool_decide (BuildOptions.Tag options = ""))
               || negb (bool_decide (BuildOptions.Target options = ""))
               || bool_decide (is_Some (BuildOptions.CacheFrom options))
               || bool_decide (is_Some (BuildOptions.Secrets options)))
        then Some ErrNoFlagAllowedOnSingleImageBuild
        else None
    end.

Definition getImageChecker (buildInfo : BuildInfo.t) (cfg : Config.t) : imageChecker :=
  let tagger :=
    if serviceHasVolumesToInclude buildInfo
    then newImageWithVolumesTagger cfg
    else newImageTagger cfg in
  newImageChecker cfg tagger.

(** A call of a collaborator that changes the world. *)
Definition call {A} (f : World -> A * World) : M World A :=
  fun s => let '(a, w') := f (world s) in (Ok a, mkSt w' (manifest s) (trace s)).

Definition buildSvcFromDockerfile (bc : Config.t) (svcName : string)
    (options : BuildOptions.t) : M World string :=
  manifest <- getManifest ;;
  let isStackManifest := bool_decide (Manifest.Type_ manifest = StackType) in
  buildInfo <- deref (Manifest.Build manifest !! svcName) ;;
  w <- getWorld ;;
  let buildSvcInfo := getBuildInfoWithoutVolumeMounts w buildInfo isStackManifest in
  let buildHash := hashService buildSvcInfo w in
  let tagToBuild :=
    getServiceImageReference (newImageTagger bc) w (Manifest.Name manifest) svcName
      buildSvcInfo buildHash in
  let buildSvcInfo := BuildInfo.withImage tagToBuild buildSvcInfo in
  emit (EvAddBuildArgs svcName) ;;;
  buildSvcInfo <- mapErr (ErrExpandingBuildArgs svcName)
                    (liftRes (AddBuildArgs buildSvcInfo w)) ;;
  let buildOptions :=
    OptsFromBuildInfo (Manifest.Name manifest) svcName buildSvcInfo options w in
  emit (EvV1Build buildOptions) ;;;
  err <- call (V1Build buildOptions) ;;
  check err ;;;
  let reference :=
    if negb (bool_decide (BuildOptions.DevTag buildOptions = ""))
    then BuildOptions.DevTag buildOptions
    else BuildOptions.Tag buildOptions in
  w <- getWorld ;;
  mapErr (ErrAccessingImage reference) (liftRes (GetImageTagWithDigest reference w)).

Definition addVolumeMounts (bc : Config.t) (svcName : string)
    (options : BuildOptions.t) : M World string :=
  manifest <- getManifest ;;
  let isStackManifest :=
    bool_decide (Manifest.Type_ manifest = StackType)
    || match Manifest.Deploy manifest with
       | Some deploy => bool_decide (is_Some (DeployInfo.ComposeSection deploy))
       | None => false
       end in
  buildInfo <- deref (Manifest.Build manifest !! svcName) ;;
  let fromImage :=
    if negb (bool_decide (BuildOptions.Tag options = ""))
    then BuildOptions.Tag options
    else BuildInfo.Image buildInfo in
  let buildInfoCopy := BuildInfo.withImage "" buildInfo in
  w <- getWorld ;;
  let buildHash := hashService buildInfoCopy w in
  let tagToBuild :=
    getServiceImageReference (newImageWithVolumesTagger bc) w (Manifest.Name manifest)
      svcName buildInfoCopy buildHash in
  let buildSvcInfo := getBuildInfoWithVolumeMounts w buildInfo isStackManifest in
  emit (EvCreateDockerfile fromImage (BuildInfo.VolumesToInclude buildSvcInfo)) ;;;
  r <- call (CreateDockerfileWithVolumeMounts fromImage
               (BuildInfo.VolumesToInclude buildSvcInfo)) ;;
  svcBuild <- liftRes r ;;
  w <- getWorld ;;
  let buildOptions :=
    BuildOptions.withTag tagToBuild
      (OptsFromBuildInfo (Manifest.Name manifest) svcName svcBuild options w) in
  emit (EvV1Build buildOptions) ;;;
  err <- call (V1Build buildOptions) ;;
  check err ;;;
  w <- getWorld ;;
  mapErr (ErrAccessingImage (BuildOptions.Tag options))
    (liftRes (GetImageTagWithDigest (BuildOptions.Tag buildOptions) w)).

(** [buildSvcInfo.Image = image] through the pointer held by the manifest. *)
Definition setImage (svcName image : string) : M World unit :=
  fun s =>
    let m := manifest s in
    (Ok tt,
     mkSt (world s)
       (Manifest.withBuild (alter (BuildInfo.withImage image) svcName (Manifest.Build m)) m)
       (trace s)).

Definition volumeMountsNotSupported : Error :=
  UserError "Build with volume mounts is not supported on vanilla contexts"
            "Please connect to a okteto context and try again".

Definition buildServiceImages (bc : Config.t) (svcName : string)
    (options : BuildOptions.t) : M World string :=
  manifest <- getManifest ;;
  buildSvcInfo <- deref (Manifest.Build manifest !! svcName) ;;
  w <- getWorld ;;
  if serviceHasVolumesToInclude buildSvcInfo && negb (okteto_IsOkteto w) then
    fail volumeMountsNotSupported
  else if serviceHasDockerfile buildSvcInfo && serviceHasVolumesToInclude buildSvcInfo then
    image <- buildSvcFromDockerfile bc svcName options ;;
    setImage svcName image ;;;
    addVolumeMounts bc svcName options
  else if serviceHasDockerfile buildSvcInfo then
    buildSvcFromDockerfile bc svcName options
  else if serviceHasVolumesToInclude buildSvcInfo then
    if okteto_IsOkteto w then addVolumeMounts bc svcName options
    else ret ""
  else
    ret "".

(** *** The scheduling loop of [Build] *)

(** The local variables of [Build] next to the threaded state:
    [builtImagesControl], and [buildsAnalytics] with its newest entry (the
    one [meta] points to) first. *)
Record LoopState := mkLoop {
  st : St World;
  builtImagesControl : gmap string bool;
  buildsAnalytics : list ImageBuildMetadata.t
}.

(** How a run of [Build] ends; [OutOfFuel] stands for a loop that is still
    polling when the fuel of the model is spent. *)
Inductive Outcome :=
| Returned (err : option Error)
| Panicked
| OutOfFuel.

(** One iteration either goes on to the next one or leaves [Build]. *)
Inductive Step :=
| Continue (ls : LoopState)
| Stop (out : Outcome) (ls : LoopState).

Definition emitL (e : Event) (ls : LoopState) : LoopState :=
  mkLoop (mkSt (world (st ls)) (manifest (st ls)) (e :: trace (st ls)))
         (builtImagesControl ls) (buildsAnalytics ls).

Definition setWorldL (w : World) (ls : LoopState) : LoopState :=
  mkLoop (mkSt w (manifest (st ls)) (trace (st ls)))
         (builtImagesControl ls) (buildsAnalytics ls).

Definition setStL (s : St World) (ls : LoopState) : LoopState :=
  mkLoop s (builtImagesControl ls) (buildsAnalytics ls).

(** A write through the pointer [meta]. *)
Definition updateMeta (f : ImageBuildMetadata.t -> ImageBuildMetadata.t)
    (ls : LoopState) : LoopState :=
  mkLoop (st ls) (builtImagesControl ls)
    match buildsAnalytics ls with
    | meta :: rest => f meta :: rest
    | [] => []
    end.

Definition appendMeta (meta : ImageBuildMetadata.t) (ls : LoopState) : LoopState :=
  mkLoop (st ls) (builtImagesControl ls) (meta :: buildsAnalytics ls).

(** [bc.SetServiceEnvVars(svc, image); builtImagesControl[svc] = true;
    meta.Success = true]. *)
Definition markBuilt (svcToBuild image : string) (ls : LoopState) : LoopState :=
  let ls := emitL (EvSetServiceEnvVars svcToBuild image) ls in
  let ls := setWorldL (SetServiceEnvVars svcToBuild image (world (st ls))) ls in
  let ls := emitL (EvBuilt svcToBuild) ls in
  updateMeta (ImageBuildMetadata.withSuccess true)
    (mkLoop (st ls) (<[svcToBuild := true]> (builtImagesControl ls)) (buildsAnalytics ls)).

(** The tail of the loop body, taken on a cache miss and when the cache is
    not consulted: the image requirement of an unmanaged context, then
    [buildServiceImages]. *)
Definition buildFresh (bc : Config.t) (options : BuildOptions.t) (svcToBuild : string)
    (buildSvcInfo : BuildInfo.t) (ls : LoopState) : Step :=
  if negb (OktetoContext.IsOkteto (okteto_Context (world (st ls))))
     && bool_decide (BuildInfo.Image buildSvcInfo = "")
  then Stop (Returned (Some (ErrImageRequired svcToBuild))) ls
  else
    let ls := emitL (EvBuildServiceImages svcToBuild) ls in
    match buildServiceImages bc svcToBuild options (st ls) with
    | (Err err, s') =>
        Stop (Returned (Some (ErrBuildingService svcToBuild err)))
             (emitL (EvBuildFailed svcToBuild err) (setStL s' ls))
    | (Panic, s') => Stop Panicked (setStL s' ls)
    | (Ok imageTag, s') => Continue (markBuilt svcToBuild imageTag (setStL s' ls))
    end.

(** The cache gate of the loop body. *)
Definition cacheEnabled (bc : Config.t) (options : BuildOptions.t) : bool :=
  negb (BuildOptions.NoCache options) && Config.IsCleanProject bc
  && Config.IsSmartBuildsEnabled bc.

(** The metadata record of a unit as filled in before the cache gate. *)
Definition newImageBuildMetadata (bc : Config.t) (svcToBuild : string)
    (buildSvcInfo : BuildInfo.t) (w : World) : ImageBuildMetadata.t :=
  ImageBuildMetadata.mk svcToBuild (Config.GetAnonymizedRepo bc)
    (hashProjectCommit buildSvcInfo w) (hashBuildContext buildSvcInfo w)
    false false.

(** The body of the inner loop for one unit. *)
Definition buildLoopBody (bc : Config.t) (options : BuildOptions.t)
    (svcToBuild : string) (ls : LoopState) : Step :=
  if skipServiceBuild svcToBuild (builtImagesControl ls) then Continue ls
  else
    match Manifest.Build (manifest (st ls)) !! svcToBuild with
    | None => Stop Panicked ls
    | Some buildSvcInfo =>
        if negb (areAllServicesBuilt (BuildInfo.DependsOn buildSvcInfo)
                   (builtImagesControl ls))
        then Continue ls
        else
          let ls := emitL (EvAttempt svcToBuild) ls in
          let w := world (st ls) in
          let ls := appendMeta (newImageBuildMetadata bc svcToBuild buildSvcInfo w) ls in
          if cacheEnabled bc options then
            let imageChecker := getImageChecker buildSvcInfo bc in
            let buildHash := hashService buildSvcInfo w in
            let ls := emitL (EvCheckBuilt svcToBuild buildHash) ls in
            let '((imageWithDigest, isBuilt), w') :=
              checkIfBuildHashIsBuilt imageChecker (Manifest.Name (manifest (st ls)))
                svcToBuild buildHash w in
            let ls := updateMeta (ImageBuildMetadata.withCacheHit isBuilt) (setWorldL w' ls) in
            if isBuilt then
              if IsGlobalRegistry imageWithDigest w' then
                let ls := emitL (EvClone imageWithDigest buildHash) ls in
                match CloneGlobalImageToDev imageWithDigest buildHash w' with
                | (Err err, w'') => Stop (Returned (Some err)) (setWorldL w'' ls)
                | (Panic, w'') => Stop Panicked (setWorldL w'' ls)
                | (Ok devImage, w'') =>
                    Continue (markBuilt svcToBuild devImage (setWorldL w'' ls))
                end
              else Continue (markBuilt svcToBuild imageWithDigest ls)
            else buildFresh bc options svcToBuild buildSvcInfo ls
          else buildFresh bc options svcToBuild buildSvcInfo ls
    end.

(** [for _, svcToBuild := range toBuildSvcs]: one round over the plan. *)
Fixpoint buildRound (bc : Config.t) (options : BuildOptions.t)
    (svcs : list string) (ls : LoopState) : Step :=
  match svcs with
  | [] => Continue ls
  | svcToBuild :: rest =>
      match buildLoopBody bc options svcToBuild ls with
      | Continue ls' => buildRound bc options rest ls'
      | Stop out ls' => Stop out ls'
      end
  end.

(** [for len(builtImagesControl) != len(toBuildSvcs)]: rounds are repeated
    until the sizes agree. [Continue] is the normal exit of the loop. *)
Fixpoint buildLoop (fuel : nat) (bc : Config.t) (options : BuildOptions.t)
    (toBuildSvcs : list string) (ls : LoopState) : Step :=
  if Nat.eqb (size (builtImagesControl ls)) (length toBuildSvcs) then Continue ls
  else
    match fuel with
    | O => Stop OutOfFuel ls
    | S fuel' =>
        match buildRound bc options toBuildSvcs ls with
        | Continue ls' => buildLoop fuel' bc options toBuildSvcs ls'
        | Stop out ls' => Stop out ls'
        end
    end.

(** Lines 142-160 of [Build]: the working directory and the inferred name. *)
Definition prepareOptions (options : BuildOptions.t) : M World BuildOptions.t :=
  options <-
    (if negb (bool_decide (BuildOptions.File options = "")) then
       let workdir := GetWorkdirFromManifestPath (BuildOptions.File options) in
       emit (EvChdir workdir) ;;;
       err <- call (Chdir workdir) ;;
       check err ;;;
       ret (BuildOptions.withFile
              (GetManifestPathFromWorkdir (BuildOptions.File options) workdir) options)
     else ret options) ;;
  manifest <- getManifest ;;
  (if bool_decide (Manifest.Name manifest = "") then
     w <- getWorld ;;
     wd <- liftRes (Getwd w) ;;
     check (ProvideK8sClient w) ;;;
     putManifest
       (Manifest.withName
          (InferName wd (OktetoContext.Namespace (okteto_Context w))
             (BuildOptions.File options) w)
          manifest)
   else ret tt) ;;;
  ret options.

(** The deferred [TrackImageBuild] call: it reads [buildsAnalytics] when
    [Build] is left. *)
Definition trackImageBuild (ls : LoopState) : LoopState :=
  emitL (EvTrackImageBuild (rev (buildsAnalytics ls))) ls.

(** Build builds the images defined by a manifest. [fuel] bounds the number
    of rounds of the scheduling loop. *)
Definition Build (fuel : nat) (bc : Config.t) (options : BuildOptions.t)
    (s : St World) : Outcome * St World :=
  if LoadBoolean OktetoDeployRemote (world s) then (Returned None, s)
  else
    match prepareOptions options s with
    | (Err err, s) => (Returned (Some err), s)
    | (Panic, s) => (Panicked, s)
    | (Ok options, s) =>
        let toBuildSvcs := getToBuildSvcs (world s) (manifest s) options in
        match validateOptions (manifest s) toBuildSvcs options with
        | Some err =>
            if isNoServicesToBuildDefined err then (Returned None, s)
            else (Returned (Some err), s)
        | None =>
            match buildLoop fuel bc options toBuildSvcs (mkLoop s ∅ []) with
            | Stop OutOfFuel ls => (OutOfFuel, st ls)
            | Stop out ls => (out, st (trackImageBuild ls))
            | Continue ls =>
                let ls := emitL EvExpandEnvVars ls in
                let '(err, m) := ExpandEnvVars (manifest (st ls)) (world (st ls)) in
                (Returned err,
                 st (trackImageBuild
                       (setStL (mkSt (world (st ls)) m (trace (st ls))) ls)))
            end
        end
    end.

End Builder.

Arguments LoopState : clear implicits.
Arguments Step : clear implicits.

(** ** Test doubles

    Collaborators in the manner of build_test.go: a registry that is a set
    of image names, an executor that pushes the tag it is asked to build
    (or fails for the tags listed in [failing]), a context store with one
    current context, and a file system given by the paths that exist and
    the paths whose stat fails with an error of its own. *)
Module Fake.

Record World := mk {
  registry : gset string;
  context : OktetoContext.t;
  existing : gset string;
  broken : gmap string Errno;
  env : gmap string string;
  sha : Res string;
  failing : gmap string Error;
  cached : gmap string string
}.

Definition withRegistry (r : gset string) (w : World) : World :=
  mk r (context w) (existing w) (broken w) (env w) (sha w) (failing w) (cached w).
Definition withEnv (e : gmap string string) (w : World) : World :=
  mk (registry w) (context w) (existing w) (broken w) e (sha w) (failing w) (cached w).

Definition stat (path : string) (w : World) : option Errno :=
  if bool_decide (path ∈ existing w) then None
  else Some (default ENOENT (broken w !! path)).

Definition getImageTagWithDigest (imageTag : string) (w : World) : Res string :=
  if bool_decide (imageTag ∈ registry w) then Ok imageTag
  else Err (ExternalError "not found").

Definition run (opts : BuildOptions.t) (w : World) : option Error * World :=
  match failing w !! BuildOptions.Tag opts with
  | Some err => (Some err, w)
  | None => (None, withRegistry ({[BuildOptions.Tag opts]} ∪ registry w) w)
  end.

Definition checkBuilt (svc : string) (w : World) : (string * bool) * World :=
  match cached w !! svc with
  | Some image => ((image, true), w)
  | None => (("", false), w)
  end.

#[global] Instance collaborators : Collaborators World := {|
  LoadBoolean name w := bool_decide (env w !! name = Some "true");
  LookupEnv name w := env w !! name;
  Chdir _ w := (None, w);
  Getwd _ := Ok "/";
  Stat := stat;
  GetWorkdirFromManifestPath _ := ".";
  GetManifestPathFromWorkdir file _ := file;
  RangeKeys m _ := (map_to_list m).*1;
  GetSvcsToBuildFromList _ toBuild := toBuild;
  ExpandEnvVars m _ := (None, m);
  okteto_Context := context;
  ProvideK8sClient _ := None;
  InferName _ _ _ _ := "inferred";
  GetSHA := sha;
  hashBuildContext _ _ := "";
  hashService _ _ := "";
  privateNamespace _ := "okteto.dev";
  GetImageTagWithDigest := getImageTagWithDigest;
  IsOktetoRegistry _ _ := false;
  IsGlobalRegistry _ _ := false;
  CloneGlobalImageToDev _ _ w := (Ok "", w);
  checkIfBuildHashIsBuilt _ _ svc _ := checkBuilt svc;
  SetServiceEnvVars svc image w :=
    withEnv (<["OKTETO_BUILD_" ++ svc ++ "_IMAGE" := image]> (env w)) w;
  AddBuildArgs b _ := Ok b;
  OptsFromBuildInfo _ _ b o _ := BuildOptions.withTag (BuildInfo.Image b) o;
  V1Build := run;
  CreateDockerfileWithVolumeMounts _ _ w := (Ok BuildInfo.empty, w)
|}.

(** The context of the tests: namespace [test], okteto installed. *)
Definition oktetoContext : OktetoContext.t := OktetoContext.mk "test" true "".
Definition vanillaContext : OktetoContext.t := OktetoContext.mk "test" false "".

Definition newWorld (ctx : OktetoContext.t) : World :=
  mk ∅ ctx ∅ ∅ ∅ (Ok "") ∅ ∅.

(** fakeConfig{isOkteto: true} *)
Definition config : Config.t := Config.mk false false "" true "" false.

Definition state (ctx : OktetoContext.t) (m : Manifest.t) : St World :=
  mkSt (newWorld ctx) m [].

Definition manifestOf (units : list (string * BuildInfo.t)) : Manifest.t :=
  Manifest.mk "test" OktetoManifestType (list_to_map units) None.

End Fake.

(** ** Scenarios

    The plans and worlds the concrete runs below are made on. *)
Module Scenarios.
Import Fake.

Definition unitA : BuildInfo.t :=
  BuildInfo.mk "dir" "dir/Dockerfile" "" "okteto/a:test" [] ∅ [] [].
Definition unitB : BuildInfo.t :=
  BuildInfo.mk "dir" "dir/Dockerfile" "" "okteto/b:test" [] ∅ [] ["a"].

(** The plan of TestBuildWithDependsOn: b depends on a. *)
Definition dependsOnPlan : Manifest.t := manifestOf [("a", unitA); ("b", unitB)].

(** The cyclic plan: a depends on b and b on a. *)
Definition cyclicPlan : Manifest.t :=
  manifestOf [("a", BuildInfo.mk "dir" "dir/Dockerfile" "" "okteto/a:test" [] ∅ [] ["b"]);
              ("b", unitB)].

(** A world whose executor fails on the image of unit a. *)
Definition failingWorld : World :=
  mk ∅ oktetoContext ∅ ∅ ∅ (Ok "") {["okteto/a:test" := ExternalError "build failed"]} ∅.

(** fakeConfig with a clean project and smart builds enabled. *)
Definition smartConfig : Config.t := Config.mk false true "" true "" true.

(** A file system with /tmp, and /etc/passwd/x below a regular file. *)
Definition diskWorld : World :=
  mk ∅ oktetoContext {["/tmp"]} {["/etc/passwd/x" := ENOTDIR]} ∅ (Ok "") ∅ ∅.

Definition mountsUnit : BuildInfo.t :=
  BuildInfo.mk "" "" "" "nginx" [] ∅
    [StackVolume.mk "/tmp" "/tmp"; StackVolume.mk "/missing" "/data";
     StackVolume.mk "/etc/passwd/x" "/x"] [].

Definition mountsPlan : Manifest.t := manifestOf [("test", mountsUnit)].

(** A unit with neither Dockerfile nor volume mounts. *)
Definition imageOnlyUnit : BuildInfo.t := BuildInfo.mk "" "" "" "nginx" [] ∅ [] [].

Definition commitWorld (sha : Res string) : World :=
  mk ∅ oktetoContext ∅ ∅ ∅ sha ∅ ∅.

End Scenarios.

(** ** Vocabulary of the statements *)

Section Vocabulary.
Context {World : Type} `{!Collaborators World}.

(** Events of the build paths: the executor and its helpers. *)
Definition executorEvent (e : Event) : Prop :=
  match e with
  | EvAddBuildArgs _ | EvV1Build _ | EvCreateDockerfile _ _ => True
  | _ => False
  end.

(** The DependsOn list of a unit of the manifest. *)
Definition dependsOn (m : Manifest.t) (svc : string) : option (list string) :=
  BuildInfo.DependsOn <$> (Manifest.Build m !! svc).

(** The events one unit adds on the build path after its [EvAttempt], newest
    first, with the way the iteration ends ([None]: the loop goes on). *)
Inductive FreshShape (svc : string) : option Outcome → list Event → Prop :=
| FreshImageRequired :
    FreshShape svc (Some (Returned (Some (ErrImageRequired svc)))) []
| FreshFailed Δ err :
    Forall executorEvent Δ →
    FreshShape svc (Some (Returned (Some (ErrBuildingService svc err))))
      (EvBuildFailed svc err :: Δ ++ [EvBuildServiceImages svc])
| FreshPanicked Δ :
    Forall executorEvent Δ →
    FreshShape svc (Some Panicked) (Δ ++ [EvBuildServiceImages svc])
| FreshBuilt Δ image :
    Forall executorEvent Δ →
    FreshShape svc None
      (EvBuilt svc :: EvSetServiceEnvVars svc image :: Δ ++ [EvBuildServiceImages svc]).

(** The same for the whole iteration, by the cache gate [cache]. *)
Inductive AttemptShape (svc : string) (cache : bool) : option Outcome → list Event → Prop :=
| AttemptFresh res Δ :
    cache = false → FreshShape svc res Δ → AttemptShape svc cache res Δ
| AttemptMiss res Δ h :
    cache = true → FreshShape svc res Δ →
    AttemptShape svc cache res (Δ ++ [EvCheckBuilt svc h])
| AttemptHit h image :
    cache = true →
    AttemptShape svc cache None
      [EvBuilt svc; EvSetServiceEnvVars svc image; EvCheckBuilt svc h]
| AttemptHitCloned h image devImage :
    cache = true →
    AttemptShape svc cache None
      [EvBuilt svc; EvSetServiceEnvVars svc devImage; EvClone image h; EvCheckBuilt svc h]
| AttemptCloneFailed h image out :
    cache = true → out ≠ OutOfFuel →
    AttemptShape svc cache (Some out) [EvClone image h; EvCheckBuilt svc h].

Definition stepResult (step : Step World) : option Outcome :=
  match step with
  | Continue _ => None
  | Stop out _ => Some out
  end.

Definition stepState (step : Step World) : LoopState World :=
  match step with
  | Continue ls => ls
  | Stop _ ls => ls
  end.

(** The built-set after an iteration that ended as [res]. *)
Definition controlAfter (svc : string) (res : option Outcome)
    (control : gmap string bool) : gmap string bool :=
  match res with
  | None => <[svc := true]> control
  | Some _ => control
  end.

(** Every [EvAttempt] of a unit comes after the [EvBuilt] of each of its
    dependencies ([deps] gives the DependsOn list of a unit; the trace is
    newest first). *)
Fixpoint ordered (deps : string → option (list string)) (tr : list Event) : Prop :=
  match tr with
  | [] => True
  | e :: earlier =>
      match e with
      | EvAttempt svc => ∀ dep, dep ∈ default [] (deps svc) → EvBuilt dep ∈ earlier
      | _ => True
      end ∧ ordered deps earlier
  end.

(** The invariant of the loop between two iterations, for a plan whose
    DependsOn lists are [deps] and a cache gate [cache]. *)
Record LoopInv (deps : string → option (list string)) (cache : bool)
    (ls : LoopState World) : Prop := {
  inv_deps : ∀ x, dependsOn (manifest (st ls)) x = deps x;
  inv_true : ∀ x v, builtImagesControl ls !! x = Some v → v = true;
  inv_built : ∀ x, EvBuilt x ∈ trace (st ls) ↔ is_Some (builtImagesControl ls !! x);
  inv_ordered : ordered deps (trace (st ls));
  inv_nofail : ∀ x e, EvBuildFailed x e ∉ trace (st ls);
  inv_cache : ∀ x, (∃ h, EvCheckBuilt x h ∈ trace (st ls))
                   ↔ cache = true ∧ EvAttempt x ∈ trace (st ls)
}.

(** What holds when [Build] leaves the loop early with [out]. *)
Record LoopPost (deps : string → option (list string)) (cache : bool)
    (out : Outcome) (ls : LoopState World) : Prop := {
  post_ordered : ordered deps (trace (st ls));
  post_fail : ∀ x e, EvBuildFailed x e ∈ trace (st ls) →
      out = Returned (Some (ErrBuildingService x e)) ∧ EvBuilt x ∉ trace (st ls);
  post_cache : ∀ x, (∃ h, EvCheckBuilt x h ∈ trace (st ls))
                    ↔ cache = true ∧ EvAttempt x ∈ trace (st ls)
}.

(** Events of [Build] outside its loop. *)
Definition frameEvent (e : Event) : Prop :=
  match e with
  | EvChdir _ | EvExpandEnvVars | EvTrackImageBuild _ => True
  | _ => False
  end.

(** The trace and the outcome of a run of [Build]. *)
Definition Build_outcome (fuel : nat) (bc : Config.t) (options : BuildOptions.t)
    (s : St World) : Outcome :=
  (Build fuel bc options s).1.

Definition Build_trace (fuel : nat) (bc : Config.t) (options : BuildOptions.t)
    (s : St World) : list Event :=
  trace (Build fuel bc options s).2.

(** A state of the loop in which units are pending and none can be
    attempted: each unit of the plan is built already or waits for a
    dependency that is not in the built-set. *)
Definition stuck (toBuildSvcs : list string) (ls : LoopState World) : Prop :=
  size (builtImagesControl ls) ≠ length toBuildSvcs
  ∧ ∀ svc, svc ∈ toBuildSvcs →
      skipServiceBuild svc (builtImagesControl ls) = true
      ∨ ∃ b, Manifest.Build (manifest (st ls)) !! svc = Some b
             ∧ areAllServicesBuilt (BuildInfo.DependsOn b) (builtImagesControl ls) = false.

(** Order of two map entries by their keys, bytewise. *)
Definition keyLe (a b : string * string) : Prop := String.leb a.1 b.1 = true.

(** The build unit of Test_getBuildHashFromCommit. *)
Definition literalUnit : BuildInfo.t :=
  BuildInfo.mk "context" "dockerfile" "target" "image"
    [BuildArg.mk "foo" "bar"; BuildArg.mk "key" "value"]
    {["secret" := "secret"]} [] [].

(** The plan [toBuildSvcs] lists each unit once, and every dependency of a
    listed unit is listed and of smaller rank: no cycle, no dangling name. *)
Definition wellFounded (toBuildSvcs : list string)
    (deps : string → option (list string)) (rank : string → nat) : Prop :=
  NoDup toBuildSvcs
  ∧ ∀ svc, svc ∈ toBuildSvcs →
      ∃ ds, deps svc = Some ds ∧ ∀ d, d ∈ ds → d ∈ toBuildSvcs ∧ (rank d < rank svc)%nat.

(** What a round keeps: the DependsOn lists, and a built-set of units of the
    plan. *)
Record RoundInv (toBuildSvcs : list string) (deps : string → option (list string))
    (ls : LoopState World) : Prop := {
  round_deps : ∀ x, dependsOn (manifest (st ls)) x = deps x;
  round_true : ∀ x v, builtImagesControl ls !! x = Some v → v = true;
  round_dom : ∀ x, is_Some (builtImagesControl ls !! x) → x ∈ toBuildSvcs
}.

(** Every dependency of the unit is in the built-set. *)
Definition ready (deps : string → option (list string)) (control : gmap string bool)
    (svc : string) : Prop :=
  ∀ ds, deps svc = Some ds → ∀ d, d ∈ ds → is_Some (control !! d).

End Vocabulary.

(** ** Vocabulary of the properties of whole runs *)

Section RunVocabulary.
Context {World : Type} `{!Collaborators World}.

(** The selected names that are no key of the build section, in the order
    (and with the repetitions) of the selection. *)
Definition missingServices (buildSection : gmap string BuildInfo.t)
    (svcsToBuild : list string) : list string :=
  List.filter (fun svc => bool_decide (buildSection !! svc = None)) svcsToBuild.

(** A per-unit flag of the command line is set. *)
Definition perUnitFlags (options : BuildOptions.t) : Prop :=
  BuildOptions.Tag options ≠ "" ∨ BuildOptions.Target options ≠ ""
  ∨ is_Some (BuildOptions.CacheFrom options) ∨ is_Some (BuildOptions.Secrets options).

(** The unit an event starts, looks up in the cache, hands to
    buildServiceImages, or exports. *)
Definition startedUnit (e : Event) : option string :=
  match e with EvAttempt svc => Some svc | _ => None end.
Definition lookedUpUnit (e : Event) : option string :=
  match e with EvCheckBuilt svc _ => Some svc | _ => None end.
Definition builtUnit (e : Event) : option string :=
  match e with EvBuildServiceImages svc => Some svc | _ => None end.
Definition exportedUnit (e : Event) : option string :=
  match e with EvSetServiceEnvVars svc _ => Some svc | _ => None end.

(** The units of the three kinds of step inside an iteration. *)
Definition stepUnits : list (Event → option string) :=
  [lookedUpUnit; builtUnit; exportedUnit].

(** Between iterations: no unit was started twice, every started unit is in
    the built-set, and each step inside an iteration was made at most once
    per unit, for a started unit. *)
Definition OnceInv (ls : LoopState World) : Prop :=
  NoDup (omap startedUnit (trace (st ls)))
  ∧ (∀ x, x ∈ omap startedUnit (trace (st ls)) → builtImagesControl ls !! x = Some true)
  ∧ ∀ p, p ∈ stepUnits →
      NoDup (omap p (trace (st ls)))
      ∧ ∀ x, x ∈ omap p (trace (st ls)) → x ∈ omap startedUnit (trace (st ls)).

(** The same once the loop is left, when the unit of the last iteration may
    be missing from the built-set. *)
Definition OncePost (ls : LoopState World) : Prop :=
  NoDup (omap startedUnit (trace (st ls)))
  ∧ ∀ p, p ∈ stepUnits →
      NoDup (omap p (trace (st ls)))
      ∧ ∀ x, x ∈ omap p (trace (st ls)) → x ∈ omap startedUnit (trace (st ls)).


(** No call of the analytics tracker is in the trace. *)
Definition noTracking (tr : list Event) : Prop := ∀ metas, EvTrackImageBuild metas ∉ tr.

(** The plan of a run: what [Build] hands to its loop after the options are
    prepared in [s]. *)
Definition planOf (options : BuildOptions.t) (s : St World) : list string :=
  match prepareOptions options s with
  | (Ok options1, s1) => getToBuildSvcs (world s1) (manifest s1) options1
  | _ => []
  end.

(** [Build] reaches its scheduling loop from [s]: the remote-deploy switch
    is off, the options are prepared, and the plan is accepted. *)
Definition entersLoop (options : BuildOptions.t) (s : St World) : Prop :=
  LoadBoolean OktetoDeployRemote (world s) = false
  ∧ ∃ options1 s1,
      prepareOptions options s = (Ok options1, s1)
      ∧ validateOptions (manifest s1)
          (getToBuildSvcs (world s1) (manifest s1) options1) options1 = None.

(** Every unit of the built-set is a unit of the plan, and was exported and
    entered in the trace. *)
Definition ExportInv (toBuildSvcs : list string) (ls : LoopState World) : Prop :=
  ∀ x, is_Some (builtImagesControl ls !! x) →
    x ∈ toBuildSvcs ∧ EvBuilt x ∈ trace (st ls)
    ∧ ∃ image, EvSetServiceEnvVars x image ∈ trace (st ls).


(** What a metadata record says of its unit, against the trace of the run. *)
Definition metaAgrees (bc : Config.t) (tr : list Event) (m : ImageBuildMetadata.t) : Prop :=
  ImageBuildMetadata.RepoURL m = Config.GetAnonymizedRepo bc
  ∧ (ImageBuildMetadata.Success m = true ↔ EvBuilt (ImageBuildMetadata.Name m) ∈ tr)
  ∧ (ImageBuildMetadata.CacheHit m = true →
     (∃ h, EvCheckBuilt (ImageBuildMetadata.Name m) h ∈ tr)
     ∧ EvBuildServiceImages (ImageBuildMetadata.Name m) ∉ tr).

(** The records kept by the loop are those of the started units, newest
    first, and agree with the trace. *)
Definition AnalyticsPost (bc : Config.t) (ls : LoopState World) : Prop :=
  ImageBuildMetadata.Name <$> buildsAnalytics ls = omap startedUnit (trace (st ls))
  ∧ Forall (metaAgrees bc (trace (st ls))) (buildsAnalytics ls).

(** Between iterations, besides: every started unit is in the built-set,
    and a unit that was built or handed to buildServiceImages was started. *)
Definition AnalyticsInv (bc : Config.t) (ls : LoopState World) : Prop :=
  AnalyticsPost bc ls
  ∧ (∀ x, EvAttempt x ∈ trace (st ls) → builtImagesControl ls !! x = Some true)
  ∧ (∀ x, EvBuilt x ∈ trace (st ls) → EvAttempt x ∈ trace (st ls))
  ∧ (∀ x, EvBuildServiceImages x ∈ trace (st ls) → EvAttempt x ∈ trace (st ls)).

(** The options of the runs of the executor in a trace, newest first. *)
Definition executorRun (e : Event) : option BuildOptions.t :=
  match e with EvV1Build opts => Some opts | _ => None end.

(** The number of builds a unit asks for: one from its Dockerfile, one for
    its volume mounts. *)
Definition stages (b : BuildInfo.t) : nat :=
  (if serviceHasDockerfile b then 1 else 0)
  + (if serviceHasVolumesToInclude b then 1 else 0).

(** The reference [buildSvcFromDockerfile] looks up after the build. *)
Definition pushedReference (buildOptions : BuildOptions.t) : string :=
  if negb (bool_decide (BuildOptions.DevTag buildOptions = ""))
  then BuildOptions.DevTag buildOptions
  else BuildOptions.Tag buildOptions.

(** The tag [addVolumeMounts] gives to the derived image of a unit. *)
Definition volumesTag (bc : Config.t) (svcName : string) (s : St World)
    (b : BuildInfo.t) : string :=
  let buildInfoCopy := BuildInfo.withImage "" b in
  getServiceImageReference (newImageWithVolumesTagger bc) (world s)
    (Manifest.Name (manifest s)) svcName buildInfoCopy
    (hashService buildInfoCopy (world s)).

(** The base image of the derived build. *)
Definition baseImage (options : BuildOptions.t) (b : BuildInfo.t) : string :=
  if negb (bool_decide (BuildOptions.Tag options = ""))
  then BuildOptions.Tag options
  else BuildInfo.Image b.

(** The built-set holds only units of the plan, each marked as built. *)
Definition controlWithin (toBuildSvcs : list string) (ls : LoopState World) : Prop :=
  ∀ x v, builtImagesControl ls !! x = Some v → v = true ∧ x ∈ toBuildSvcs.

(** Two build units that differ at most in their image and their volume
    mounts. *)
Definition sameBuild (a b : BuildInfo.t) : Prop :=
  BuildInfo.Context a = BuildInfo.Context b
  ∧ BuildInfo.Dockerfile a = BuildInfo.Dockerfile b
  ∧ BuildInfo.Target a = BuildInfo.Target b
  ∧ BuildInfo.Args a = BuildInfo.Args b
  ∧ BuildInfo.Secrets a = BuildInfo.Secrets b
  ∧ BuildInfo.DependsOn a = BuildInfo.DependsOn b.

End RunVocabulary.

(** ** The registry of build_test.go

    [fakeRegistry] with its map of images and the two errors a test can
    configure. Its methods have value receivers and the copies share the
    map: a method that writes returns the registry as the caller sees it
    afterwards. *)
Module FakeRegistry.

(** fakeImage: the data kept for an image. *)
Record fakeImage := mkImage {
  Registry : string;
  Repo : string;
  Tag : string;
  ImageRef : string;
  Args : list string
}.

(** [fakeImage{}] *)
Definition zeroImage : fakeImage := mkImage "" "" "" "" [].

Record fakeRegistry := mkRegistry {
  registry : gmap string fakeImage;
  errAddImageByName : option Error;
  errAddImageByOpts : option Error
}.

Definition newFakeRegistry : fakeRegistry := mkRegistry ∅ None None.

(** oktetoErrors.ErrNotFound *)
Definition ErrNotFound : Error := ExternalError "not found".

Definition GetImageTagWithDigest (fr : fakeRegistry) (imageTag : string) : Res string :=
  match registry fr !! imageTag with
  | None => Err ErrNotFound
  | Some _ => Ok imageTag
  end.

Definition AddImageByName (fr : fakeRegistry) (images : list string) :
    option Error * fakeRegistry :=
  match errAddImageByName fr with
  | Some err => (Some err, fr)
  | None =>
      (None,
       mkRegistry
         (fold_left (fun reg image => <[image := zeroImage]> reg) images (registry fr))
         (errAddImageByName fr) (errAddImageByOpts fr))
  end.

Definition AddImageByOpts (fr : fakeRegistry) (opts : BuildOptions.t) :
    option Error * fakeRegistry :=
  match errAddImageByOpts fr with
  | Some err => (Some err, fr)
  | None =>
      (None,
       mkRegistry
         (<[BuildOptions.Tag opts := mkImage "" "" "" "" (BuildOptions.BuildArgs opts)]>
            (registry fr))
         (errAddImageByName fr) (errAddImageByOpts fr))
  end.

Definition getFakeImage (fr : fakeRegistry) (image : string) : fakeImage :=
  match registry fr !! image with
  | Some v => v
  | None => zeroImage
  end.

End FakeRegistry.

(** ** init-v2.go

    The part of the manifest command that makes up the build section
    [Build] is later run on. What it calls besides the collaborators of the
    builder: the constant [dockerfileName] of its package, [filepath.Dir]
    and the question put to the user. *)
Class InitCollaborators (World : Type) := {
  dockerfileName : string;
  filepath_Dir : string -> string;
  AsksQuestion : string -> World -> Res string * World
}.

Section Init.
Context {World : Type} `{!Collaborators World} `{!InitCollaborators World}.

(** The loop of [inferBuildSectionFromDockerfiles] over the Dockerfiles that
    are left, with the map filled so far. *)
Fixpoint inferUnits (cwd : string) (dockerfiles : list string)
    (manifestBuild : gmap string BuildInfo.t) (w : World) :
    Res (gmap string BuildInfo.t) * World :=
  match dockerfiles with
  | [] => (Ok manifestBuild, w)
  | dockerfile :: rest =>
      let named : Res (string * BuildInfo.t) :=
        if bool_decide (dockerfile = dockerfileName) then
          match ProvideK8sClient w with
          | Some err => Err err
          | None =>
              Ok (InferName cwd (OktetoContext.Namespace (okteto_Context w)) "" w,
                  BuildInfo.mk "." dockerfile "" "" [] ∅ [] [])
          end
        else
          Ok (filepath_Dir dockerfile,
              BuildInfo.mk (filepath_Dir dockerfile) dockerfile "" "" [] ∅ [] []) in
      match named with
      | Err err => (Err err, w)
      | Panic => (Panic, w)
      | Ok (name, buildInfo) =>
          if negb (okteto_IsOkteto w) then
            match AsksQuestion ("Which is the image name for " ++ dockerfile ++ ": ") w with
            | (Err err, w') => (Err err, w')
            | (Panic, w') => (Panic, w')
            | (Ok imageName, w') =>
                inferUnits cwd rest
                  (<[name := BuildInfo.withImage imageName buildInfo]> manifestBuild) w'
            end
          else inferUnits cwd rest (<[name := buildInfo]> manifestBuild) w
      end
  end.

Definition inferBuildSectionFromDockerfiles (cwd : string) (dockerfiles : list string)
    (w : World) : Res (gmap string BuildInfo.t) * World :=
  inferUnits cwd dockerfiles ∅ w.

(** A unit as [inferBuildSectionFromDockerfiles] makes them: a context and
    one of the Dockerfiles, nothing else but perhaps an image. *)
Definition inferredUnit (dockerfiles : list string) (name : string) (b : BuildInfo.t) : Prop :=
  BuildInfo.Dockerfile b ∈ dockerfiles
  ∧ (BuildInfo.Dockerfile b = dockerfileName ∧ BuildInfo.Context b = "."
     ∨ BuildInfo.Dockerfile b ≠ dockerfileName
       ∧ BuildInfo.Context b = filepath_Dir (BuildInfo.Dockerfile b)
       ∧ name = filepath_Dir (BuildInfo.Dockerfile b))
  ∧ BuildInfo.Target b = "" ∧ BuildInfo.Args b = [] ∧ BuildInfo.Secrets b = ∅
  ∧ BuildInfo.VolumesToInclude b = [] ∧ BuildInfo.DependsOn b = [].

End Init.

(** ** Further scenarios *)
Module FurtherScenarios.
Import Fake Scenarios.

(** The unit of TestTwoStepsBuild: a Dockerfile and a volume mount. *)
Definition twoStepsUnit : BuildInfo.t :=
  BuildInfo.mk "dir" "dir/Dockerfile" "" "" [] ∅ [StackVolume.mk "dir" "test"] [].

Definition twoStepsPlan : Manifest.t := manifestOf [("test", twoStepsUnit)].

(** The records the tracker receives in the run of the plan {a, b depends
    on a} in which the build of a fails. *)
Definition failingRunRecords : list ImageBuildMetadata.t :=
  Eval vm_compute in
    match Build_trace 5 config BuildOptions.empty (mkSt failingWorld dependsOnPlan []) with
    | EvTrackImageBuild metas :: _ => metas
    | _ => []
    end.

End FurtherScenarios.

(** Test doubles for the manifest command: the directory of a clean
    relative path, and a user who answers every question with the same
    image name. *)
Module FakeInit.
Import Fake.

(** The part of a path before its last slash, if it has one. *)
Fixpoint beforeLastSlash (path : string) : option string :=
  match path with
  | EmptyString => None
  | String c rest =>
      match beforeLastSlash rest with
      | Some dir => Some (String c dir)
      | None => if Ascii.eqb c "/" then Some EmptyString else None
      end
  end.

Definition dir (path : string) : string :=
  match beforeLastSlash path with
  | Some EmptyString => "/"
  | Some d => d
  | None => "."
  end.

#[global] Instance initCollaborators : InitCollaborators World := {|
  dockerfileName := "Dockerfile";
  filepath_Dir := dir;
  AsksQuestion _ w := (Ok "okteto/asked", w)
|}.

(** The section inferred from a Dockerfile at the root and one below api. *)
Definition inferredSection : gmap string BuildInfo.t :=
  Eval vm_compute in
    match inferBuildSectionFromDockerfiles "/" ["Dockerfile"; "api/Dockerfile"]
            (newWorld oktetoContext) with
    | (Ok section, _) => section
    | _ => ∅
    end.

Definition inferredPlan : Manifest.t :=
  Manifest.mk "test" OktetoManifestType inferredSection None.

End FakeInit.

(** ** Proof steps shared by the lemmas *)

Ltac monad_unfold :=
  unfold bind, ret, fail, getWorld, getManifest, putWorld, putManifest, emit,
    deref, check, liftRes, mapErr, call, setImage in *; simpl in *.

Ltac break_match :=
  match goal with
  | |- context [match ?x with _ => _ end] => destruct x eqn:?
  | H : context [match ?x with _ => _ end] |- _ => destruct x eqn:?
  end.

Ltac frame_trace :=
  match goal with
  | |- ∃ Δ, ?e1 :: ?e2 :: ?e3 :: ?t = (Δ ++ ?t)%list ∧ _ =>
      exists [e1; e2; e3]; split; [reflexivity | repeat constructor]
  | |- ∃ Δ, ?e1 :: ?e2 :: ?t = (Δ ++ ?t)%list ∧ _ =>
      exists [e1; e2]; split; [reflexivity | repeat constructor]
  | |- ∃ Δ, ?e1 :: ?t = (Δ ++ ?t)%list ∧ _ =>
      exists [e1]; split; [reflexivity | repeat constructor]
  | |- ∃ Δ, ?t = (Δ ++ ?t)%list ∧ _ =>
      exists []; split; [reflexivity | constructor]
  end.

(** Membership in a list that evaluates to a literal. *)
Ltac in_list :=
  apply list_elem_of_In; vm_compute; repeat (first [left; reflexivity | right]).

(** * Properties *)

Section Properties.
Context {World : Type} `{!Collaborators World}.
Implicit Types (s : St World) (ls : LoopState World) (w : World).

(** ** The build paths *)

Lemma serviceHasVolumesToInclude_true b :
  BuildInfo.VolumesToInclude b ≠ [] → serviceHasVolumesToInclude b = true.
Proof.
  unfold serviceHasVolumesToInclude. destruct (BuildInfo.VolumesToInclude b); [done|]. done.
Qed.

Lemma serviceHasVolumesToInclude_false b :
  BuildInfo.VolumesToInclude b = [] → serviceHasVolumesToInclude b = false.
Proof. unfold serviceHasVolumesToInclude. by intros ->. Qed.

Lemma fold_left_keep {A} (keep : A → bool) (l acc : list A) :
  fold_left (fun acc x => if keep x then (acc ++ [x])%list else acc) l acc
  = (acc ++ List.filter keep l)%list.
Proof.
  revert acc. induction l as [|x l IH]; intros acc; simpl.
  - by rewrite app_nil_r.
  - rewrite IH. destruct (keep x); [by rewrite <- app_assoc | done].
Qed.

Lemma getAccessibleVolumeMounts_filter w b :
  getAccessibleVolumeMounts w b
  = List.filter (fun v => negb (os_IsNotExist (Stat (StackVolume.LocalPath v) w)))
      (BuildInfo.VolumesToInclude b).
Proof.
  unfold getAccessibleVolumeMounts.
  exact (fold_left_keep (fun v => negb (os_IsNotExist (Stat (StackVolume.LocalPath v) w))) _ []).
Qed.

Lemma buildSvcFromDockerfile_frame bc svcName options s r s' :
  buildSvcFromDockerfile bc svcName options s = (r, s') →
  manifest s' = manifest s
  ∧ ∃ Δ, trace s' = (Δ ++ trace s)%list ∧ Forall executorEvent Δ.
Proof.
  unfold buildSvcFromDockerfile. monad_unfold. intros H.
  repeat (break_match; monad_unfold; simplify_eq/=); (split; [reflexivity | frame_trace]).
Qed.

Lemma addVolumeMounts_frame bc svcName options s r s' :
  addVolumeMounts bc svcName options s = (r, s') →
  manifest s' = manifest s
  ∧ ∃ Δ, trace s' = (Δ ++ trace s)%list ∧ Forall executorEvent Δ.
Proof.
  unfold addVolumeMounts. monad_unfold. intros H.
  repeat (break_match; monad_unfold; simplify_eq/=); (split; [reflexivity | frame_trace]).
Qed.

Lemma dependsOn_setImage m svcName image svc :
  dependsOn
    (Manifest.withBuild (alter (BuildInfo.withImage image) svcName (Manifest.Build m)) m) svc
  = dependsOn m svc.
Proof.
  unfold dependsOn; simpl. rewrite lookup_alter. case_decide; [subst|done].
  by destruct (Manifest.Build m !! svc).
Qed.

Lemma buildServiceImages_frame bc svcName options s r s' :
  buildServiceImages bc svcName options s = (r, s') →
  (∃ Δ, trace s' = (Δ ++ trace s)%list ∧ Forall executorEvent Δ)
  ∧ ∀ svc, dependsOn (manifest s') svc = dependsOn (manifest s) svc.
Proof.
  unfold buildServiceImages.
  unfold bind at 1 2 3, getManifest, getWorld, deref.
  destruct (Manifest.Build (manifest s) !! svcName) as [b|] eqn:Hb;
    [|intros [= <- <-]; split; [frame_trace | done]].
  destruct (serviceHasVolumesToInclude b && negb (okteto_IsOkteto (world s))).
  { intros [= <- <-]; split; [frame_trace | done]. }
  destruct (serviceHasDockerfile b && serviceHasVolumesToInclude b).
  { unfold bind.
    destruct (buildSvcFromDockerfile bc svcName options s) as [r1 s1] eqn:H1.
    apply buildSvcFromDockerfile_frame in H1 as (Hm1 & Δ1 & Ht1 & HΔ1).
    destruct r1 as [image| |]; try (intros [= <- <-]; split; [eauto | by rewrite Hm1]).
    unfold setImage at 1; simpl.
    match goal with |- addVolumeMounts _ _ _ ?s2 = _ → _ => set (s2' := s2) end.
    intros H2. apply addVolumeMounts_frame in H2 as (Hm2 & Δ2 & Ht2 & HΔ2).
    split.
    - exists (Δ2 ++ Δ1)%list. split; [|by apply Forall_app].
      rewrite Ht2; simpl. rewrite Ht1. by rewrite app_assoc.
    - intros svc. rewrite Hm2; simpl. rewrite dependsOn_setImage. by rewrite Hm1. }
  destruct (serviceHasDockerfile b).
  { intros H1. apply buildSvcFromDockerfile_frame in H1 as (Hm1 & HΔ). split; [done | by rewrite Hm1]. }
  destruct (serviceHasVolumesToInclude b).
  { destruct (okteto_IsOkteto (world s)).
    - intros H1. apply addVolumeMounts_frame in H1 as (Hm1 & HΔ). split; [done | by rewrite Hm1].
    - intros [= <- <-]; split; [frame_trace | done]. }
  intros [= <- <-]; split; [frame_trace | done].
Qed.

Lemma buildServiceImages_default bc svcName options s buildSvcInfo :
  Manifest.Build (manifest s) !! svcName = Some buildSvcInfo →
  BuildInfo.Dockerfile buildSvcInfo = "" →
  BuildInfo.VolumesToInclude buildSvcInfo = [] →
  buildServiceImages bc svcName options s = (Ok "", s).
Proof.
  intros Hsvc Hdocker Hvol.
  unfold buildServiceImages, bind, getManifest, getWorld, deref; simpl.
  rewrite Hsvc, (serviceHasVolumesToInclude_false _ Hvol).
  unfold serviceHasDockerfile. rewrite Hdocker. reflexivity.
Qed.

Lemma buildFresh_spec bc options svc buildSvcInfo ls :
  let step := buildFresh bc options svc buildSvcInfo ls in
  ∃ Δ, FreshShape svc (stepResult step) Δ
    ∧ trace (st (stepState step)) = (Δ ++ trace (st ls))%list
    ∧ builtImagesControl (stepState step)
      = controlAfter svc (stepResult step) (builtImagesControl ls)
    ∧ ∀ x, dependsOn (manifest (st (stepState step))) x = dependsOn (manifest (st ls)) x.
Proof.
  unfold buildFresh.
  destruct (negb _ && bool_decide _).
  { exists []. repeat split; constructor. }
  simpl.
  destruct (buildServiceImages _ _ _ _) as [r s'] eqn:Hb.
  apply buildServiceImages_frame in Hb as [(Δ & Ht & HΔ) Hdeps]. simpl in *.
  destruct r as [imageTag|err|]; simpl.
  - exists (EvBuilt svc :: EvSetServiceEnvVars svc imageTag :: Δ ++ [EvBuildServiceImages svc])%list.
    split; [by constructor|]. split; [|split; [|done]].
    + rewrite Ht. simpl. by rewrite <- app_assoc.
    + by destruct (buildsAnalytics ls).
  - exists (EvBuildFailed svc err :: Δ ++ [EvBuildServiceImages svc])%list.
    split; [by constructor|]. split; [|done].
    rewrite Ht. simpl. by rewrite <- app_assoc.
  - exists (Δ ++ [EvBuildServiceImages svc])%list.
    split; [by constructor|]. split; [|done].
    rewrite Ht. by rewrite <- app_assoc.
Qed.

(** Past the image requirement of an unmanaged context, the build path
    begins with the call of buildServiceImages. *)
Lemma buildFresh_starts_build bc options svc buildSvcInfo ls :
  okteto_IsOkteto (world (st ls)) = true ∨ BuildInfo.Image buildSvcInfo ≠ "" →
  ∃ Δ, trace (st (stepState (buildFresh bc options svc buildSvcInfo ls)))
       = (Δ ++ EvBuildServiceImages svc :: trace (st ls))%list.
Proof.
  intros Hguard. unfold buildFresh.
  assert (negb (OktetoContext.IsOkteto (okteto_Context (world (st ls))))
          && bool_decide (BuildInfo.Image buildSvcInfo = "") = false) as ->.
  { destruct Hguard as [Hok|Himg].
    - unfold okteto_IsOkteto in Hok. by rewrite Hok.
    - rewrite (bool_decide_eq_false_2 _ Himg). by rewrite andb_false_r. }
  simpl.
  destruct (buildServiceImages _ _ _ _) as [r s'] eqn:Hb.
  apply buildServiceImages_frame in Hb as [(Δ & Ht & _) _]. simpl in Ht.
  destruct r as [imageTag|err|]; simpl; rewrite Ht.
  - by exists (EvBuilt svc :: EvSetServiceEnvVars svc imageTag :: Δ).
  - by exists (EvBuildFailed svc err :: Δ).
  - by exists Δ.
Qed.

(** What one iteration of the inner loop does: it passes over the unit
    (already built, or waiting for a dependency), panics on a unit absent
    from the manifest, or attempts the unit. *)
Lemma buildLoopBody_spec bc options svc ls :
  let step := buildLoopBody bc options svc ls in
  let control := builtImagesControl ls in
  let unit := Manifest.Build (manifest (st ls)) !! svc in
  (step = Continue ls
   ∧ (skipServiceBuild svc control = true
      ∨ ∃ b, skipServiceBuild svc control = false ∧ unit = Some b
             ∧ areAllServicesBuilt (BuildInfo.DependsOn b) control = false))
  ∨ (step = Stop Panicked ls ∧ skipServiceBuild svc control = false ∧ unit = None)
  ∨ ∃ b Δ,
      skipServiceBuild svc control = false ∧ unit = Some b
      ∧ areAllServicesBuilt (BuildInfo.DependsOn b) control = true
      ∧ AttemptShape svc (cacheEnabled bc options) (stepResult step) Δ
      ∧ trace (st (stepState step)) = (Δ ++ EvAttempt svc :: trace (st ls))%list
      ∧ builtImagesControl (stepState step) = controlAfter svc (stepResult step) control
      ∧ ∀ x, dependsOn (manifest (st (stepState step))) x = dependsOn (manifest (st ls)) x.
Proof.
  unfold buildLoopBody.
  destruct (skipServiceBuild svc (builtImagesControl ls)) eqn:Hskip; simpl; [by left; eauto|].
  destruct (Manifest.Build (manifest (st ls)) !! svc) as [b|] eqn:Hb; [|by right; left].
  destruct (areAllServicesBuilt _ _) eqn:Hdeps; simpl; [|by left; eauto 10].
  right; right. exists b.
  match goal with |- context [appendMeta ?m ?l] => set (ls1 := appendMeta m l) end.
  assert (Hfresh : ∀ ls2 pre,
    trace (st ls2) = (pre ++ EvAttempt svc :: trace (st ls))%list →
    builtImagesControl ls2 = builtImagesControl ls →
    manifest (st ls2) = manifest (st ls) →
    let step := buildFresh bc options svc b ls2 in
    ∃ Δ, FreshShape svc (stepResult step) Δ
      ∧ trace (st (stepState step)) = ((Δ ++ pre) ++ EvAttempt svc :: trace (st ls))%list
      ∧ builtImagesControl (stepState step)
        = controlAfter svc (stepResult step) (builtImagesControl ls)
      ∧ ∀ x, dependsOn (manifest (st (stepState step))) x = dependsOn (manifest (st ls)) x).
  { intros ls2 pre Ht Hc Hm step.
    destruct (buildFresh_spec bc options svc b ls2) as (Δ & HΔ & Ht' & Hc' & Hd').
    exists Δ. split; [done|]. subst step. rewrite Ht', Ht, Hc', Hc.
    split; [by rewrite <- app_assoc|]. split; [done|].
    intros x. by rewrite Hd', Hm. }
  destruct (cacheEnabled bc options) eqn:Hcache.
  - destruct (checkIfBuildHashIsBuilt _ _ _ _ _) as [[imageWithDigest isBuilt] w'].
    destruct isBuilt.
    + destruct (IsGlobalRegistry imageWithDigest w').
      * destruct (CloneGlobalImageToDev _ _ _) as [[devImage|err|] w'']; simpl.
        -- eexists; do 3 (split; [done|]). split; [by apply AttemptHitCloned|].
           by repeat split.
        -- eexists; do 3 (split; [done|]). split; [by apply AttemptCloneFailed|].
           by repeat split.
        -- eexists; do 3 (split; [done|]). split; [by apply AttemptCloneFailed|].
           by repeat split.
      * simpl. eexists; do 3 (split; [done|]).
        split; [by apply AttemptHit | by repeat split].
    + match goal with |- context [buildFresh _ _ _ _ ?l] =>
        destruct (Hfresh l [EvCheckBuilt svc (hashService b (world (st ls)))])
          as (Δ & HΔ & Ht & Hc & Hd); [done..|] end.
      eexists; do 3 (split; [done|]). split; [by apply AttemptMiss | done].
  - destruct (Hfresh ls1 []) as (Δ & HΔ & Ht & Hc & Hd); [done..|].
    rewrite app_nil_r in Ht.
    eexists; do 3 (split; [done|]). split; [by apply AttemptFresh | done].
Qed.

(** ** Invariants of the scheduling loop *)

Lemma buildRound_inv bc options (Inv : LoopState World → Prop)
    (Post : Outcome → LoopState World → Prop) svcs :
  (∀ svc ls, svc ∈ svcs → Inv ls →
     match buildLoopBody bc options svc ls with
     | Continue ls' => Inv ls'
     | Stop out ls' => Post out ls'
     end) →
  ∀ ls, Inv ls →
    match buildRound bc options svcs ls with
    | Continue ls' => Inv ls'
    | Stop out ls' => Post out ls'
    end.
Proof.
  induction svcs as [|svc svcs IH]; intros Hbody ls Hinv; simpl; [done|].
  pose proof (Hbody svc ls ltac:(left) Hinv) as Hstep.
  destruct (buildLoopBody bc options svc ls) as [ls'|out ls']; [|done].
  apply IH; [|done]. intros svc' ls'' Hin. apply Hbody. by right.
Qed.

Lemma buildLoop_inv bc options (Inv : LoopState World → Prop)
    (Post : Outcome → LoopState World → Prop) toBuildSvcs fuel :
  (∀ svc ls, svc ∈ toBuildSvcs → Inv ls →
     match buildLoopBody bc options svc ls with
     | Continue ls' => Inv ls'
     | Stop out ls' => Post out ls'
     end) →
  (∀ ls, Inv ls → Post OutOfFuel ls) →
  ∀ ls, Inv ls →
    match buildLoop fuel bc options toBuildSvcs ls with
    | Continue ls' => Inv ls'
    | Stop out ls' => Post out ls'
    end.
Proof.
  intros Hbody Hfuel. induction fuel as [|fuel IH]; intros ls Hinv; simpl.
  - destruct (Nat.eqb _ _); [done | by apply Hfuel].
  - destruct (Nat.eqb _ _); [done|].
    pose proof (buildRound_inv bc options Inv Post toBuildSvcs Hbody ls Hinv) as Hround.
    destruct (buildRound bc options toBuildSvcs ls) as [ls'|out ls']; [by apply IH | done].
Qed.

Lemma ordered_app deps Δ tr :
  (∀ x, EvAttempt x ∉ Δ) → ordered deps tr → ordered deps (Δ ++ tr).
Proof.
  induction Δ as [|e Δ IH]; intros HΔ Htr; simpl; [done|].
  split; [|apply IH; [|done]; intros x Hx; apply (HΔ x); by right].
  destruct e; try done. exfalso. apply (HΔ svc). by left.
Qed.


Lemma areAllServicesBuilt_true services control :
  areAllServicesBuilt services control = true ↔
  ∀ service, service ∈ services → is_Some (control !! service).
Proof.
  induction services as [|x l IH]; simpl.
  - split; [intros _ y Hy; by apply elem_of_nil in Hy | done].
  - destruct (control !! x) eqn:Hx.
    + rewrite IH. split.
      * intros H y [->|Hy]%elem_of_cons; [by rewrite Hx | by apply H].
      * intros H y Hy. apply H. by right.
    + split; [done|]. intros H. destruct (H x ltac:(left)) as [? Hc]. by rewrite Hx in Hc.
Qed.

Lemma executorEvent_elem e Δ : Forall executorEvent Δ → e ∈ Δ → executorEvent e.
Proof. rewrite Forall_forall. auto. Qed.

Lemma FreshShape_facts svc res Δ :
  FreshShape svc res Δ →
  (∀ x, EvAttempt x ∉ Δ)
  ∧ (∀ x, EvBuilt x ∈ Δ ↔ x = svc ∧ res = None)
  ∧ (∀ x e, EvBuildFailed x e ∈ Δ →
       x = svc ∧ res = Some (Returned (Some (ErrBuildingService svc e))))
  ∧ (∀ x h, EvCheckBuilt x h ∉ Δ).
Proof.
  intros [|Δx err HΔ|Δx HΔ|Δx image HΔ];
    try (pose proof (λ e, executorEvent_elem e _ HΔ) as Hexec; clear HΔ);
    (split; [|split; [|split]]); intros x; try (intros e).
  all: set_solver.
Qed.

Lemma AttemptShape_facts svc cache res Δ :
  AttemptShape svc cache res Δ →
  (∀ x, EvAttempt x ∉ Δ)
  ∧ (∀ x, EvBuilt x ∈ Δ ↔ x = svc ∧ res = None)
  ∧ (∀ x e, EvBuildFailed x e ∈ Δ →
       x = svc ∧ res = Some (Returned (Some (ErrBuildingService svc e))))
  ∧ (∀ x, (∃ h, EvCheckBuilt x h ∈ Δ) ↔ cache = true ∧ x = svc).
Proof.
  intros [res' Δ' Hc HΔ|res' Δ' h Hc HΔ|h image Hc|h image devImage Hc|h image out Hc];
    try (apply FreshShape_facts in HΔ as (H1 & H2 & H3 & H4));
    (split; [|split; [|split]]); intros x; try (intros e).
  all: set_solver.
Qed.

Lemma LoopInv_post deps cache out ls : LoopInv deps cache ls → LoopPost deps cache out ls.
Proof.
  intros [? ? ? ? Hnofail ?]. split; [done| |done].
  intros x e Hx. by apply Hnofail in Hx.
Qed.

Lemma buildLoopBody_inv bc options deps svc ls :
  LoopInv deps (cacheEnabled bc options) ls →
  match buildLoopBody bc options svc ls with
  | Continue ls' => LoopInv deps (cacheEnabled bc options) ls'
  | Stop out ls' => LoopPost deps (cacheEnabled bc options) out ls'
  end.
Proof.
  intros Hinv.
  destruct (buildLoopBody_spec bc options svc ls)
    as [[-> _]|[[-> _]|(b & Δ & Hskip & Hb & Hall & Hshape & Ht & Hc & Hd)]];
    [done | by apply LoopInv_post |].
  destruct Hinv as [Hdeps Htrue Hbuilt Hord Hnofail Hcache].
  apply AttemptShape_facts in Hshape as (F1 & F2 & F3 & F4).
  assert (Hnot : EvBuilt svc ∉ trace (st ls)).
  { rewrite Hbuilt. intros [v Hv]. unfold skipServiceBuild in Hskip.
    rewrite Hv in Hskip. simpl in Hskip. subst v. by apply Htrue in Hv. }
  assert (Hord' : ordered deps (Δ ++ EvAttempt svc :: trace (st ls))).
  { apply ordered_app; [done|]. simpl. split; [|done].
    intros dep Hdep. apply Hbuilt.
    rewrite <- Hdeps in Hdep. unfold dependsOn in Hdep. rewrite Hb in Hdep. simpl in Hdep.
    by apply (proj1 (areAllServicesBuilt_true _ _) Hall). }
  assert (Hcache' : ∀ x, (∃ h, EvCheckBuilt x h ∈ (Δ ++ EvAttempt svc :: trace (st ls))%list)
      ↔ cacheEnabled bc options = true ∧ EvAttempt x ∈ (Δ ++ EvAttempt svc :: trace (st ls))%list).
  { intros x. specialize (F4 x). specialize (Hcache x). specialize (F1 x). set_solver. }
  destruct (buildLoopBody bc options svc ls) as [ls'|out ls']; simpl in *.
  - split.
    + intros x. by rewrite Hd.
    + intros x v. rewrite Hc. destruct (decide (svc = x)) as [->|Hne].
      * rewrite lookup_insert_eq. congruence.
      * rewrite lookup_insert_ne by done. apply Htrue.
    + intros x. rewrite Ht, Hc. specialize (F2 x). specialize (Hbuilt x).
      destruct (decide (svc = x)) as [->|Hne].
      * rewrite lookup_insert_eq. split; [eauto|]. intros _. apply elem_of_app. left. by apply F2.
      * rewrite lookup_insert_ne by done. set_solver.
    + by rewrite Ht.
    + intros x e. rewrite Ht. intros Hx. specialize (F3 x e). specialize (Hnofail x e).
      set_solver.
    + by rewrite Ht.
  - split.
    + by rewrite Ht.
    + intros x e. rewrite Ht. intros Hx.
      specialize (F3 x e). specialize (Hnofail x e). specialize (F2 x).
      assert (x = svc ∧ Some out = Some (Returned (Some (ErrBuildingService svc e))))
        as [-> [= ->]] by set_solver.
      split; [done|]. set_solver.
    + by rewrite Ht.
Qed.

Lemma frameEvent_elem e l : Forall frameEvent l → e ∈ l → frameEvent e.
Proof. rewrite Forall_forall. auto. Qed.

Lemma prepareOptions_frame options s r s' :
  prepareOptions options s = (r, s') →
  Manifest.Build (manifest s') = Manifest.Build (manifest s)
  ∧ (∃ pre, trace s' = (pre ++ trace s)%list ∧ Forall frameEvent pre)
  ∧ ∀ options1, r = Ok options1 →
      BuildOptions.NoCache options1 = BuildOptions.NoCache options.
Proof.
  unfold prepareOptions. monad_unfold. intros H.
  repeat (break_match; monad_unfold; simplify_eq/=);
    (split; [reflexivity | split; [frame_trace | by intros ? [= <-]]]).
Qed.

(** A run of [Build] either never enters the loop, or is the loop run from
    the empty built-set between events of the frame. *)
Lemma Build_spec fuel bc options s :
  (∃ pre, Build_trace fuel bc options s = (pre ++ trace s)%list ∧ Forall frameEvent pre)
  ∨ ∃ options1 s1 pre post,
      prepareOptions options s = (Ok options1, s1)
      ∧ cacheEnabled bc options1 = cacheEnabled bc options
      ∧ Manifest.Build (manifest s1) = Manifest.Build (manifest s)
      ∧ trace s1 = (pre ++ trace s)%list ∧ Forall frameEvent pre
      ∧ Forall frameEvent post
      ∧ let step := buildLoop fuel bc options1
                      (getToBuildSvcs (world s1) (manifest s1) options1) (mkLoop s1 ∅ []) in
        Build_trace fuel bc options s = (post ++ trace (st (stepState step)))%list
        ∧ match stepResult step with
          | Some out => Build_outcome fuel bc options s = out
          | None => ∃ err, Build_outcome fuel bc options s = Returned err
          end.
Proof.
  unfold Build_trace, Build_outcome, Build.
  destruct (LoadBoolean _ _); [left; by exists []|].
  destruct (prepareOptions options s) as [r s1] eqn:Hprep.
  apply prepareOptions_frame in Hprep as (Hbuild & (pre & Hpre & Hframe) & Hcache).
  destruct r as [options1| |]; [|left; eauto..].
  destruct (validateOptions _ _ _) as [err|].
  { destruct (isNoServicesToBuildDefined err); left; eauto. }
  right. exists options1, s1, pre.
  assert (Hc : cacheEnabled bc options1 = cacheEnabled bc options).
  { unfold cacheEnabled. by rewrite (Hcache _ eq_refl). }
  destruct (buildLoop _ _ _ _ _) as [ls|out ls] eqn:Hloop; simpl.
  - destruct (ExpandEnvVars _ _) as [err m]. simpl.
    exists [EvTrackImageBuild (rev (buildsAnalytics ls)); EvExpandEnvVars].
    do 5 (split; [done|]). split; [by repeat constructor|]. split; [reflexivity | eauto].
  - destruct out; simpl.
    + exists [EvTrackImageBuild (rev (buildsAnalytics ls))].
      do 5 (split; [done|]). split; [by repeat constructor|]. done.
    + exists [EvTrackImageBuild (rev (buildsAnalytics ls))].
      do 5 (split; [done|]). split; [by repeat constructor|]. done.
    + exists []. do 5 (split; [done|]). split; [by repeat constructor|]. done.
Qed.

Lemma ordered_frame deps l : Forall frameEvent l → ordered deps l.
Proof.
  induction 1 as [|e l He _ IH]; simpl; [done|]. split; [|done]. by destruct e.
Qed.

Lemma LoopInv_init deps cache s pre :
  trace s = pre → Forall frameEvent pre →
  (∀ x, dependsOn (manifest s) x = deps x) →
  LoopInv deps cache (mkLoop s ∅ []).
Proof.
  intros Ht Hpre Hdeps.
  pose proof (λ e, frameEvent_elem e _ Hpre) as Hframe.
  split; simpl; rewrite ?Ht; try done.
  - intros x. rewrite lookup_empty. split; [intros H; by apply Hframe in H | by intros [? ?]].
  - by apply ordered_frame.
  - intros x e Hx. by apply Hframe in Hx.
  - intros x. split; [intros [h Hx]; by apply Hframe in Hx | intros [_ Hx]; by apply Hframe in Hx].
Qed.

(** The three facts about the trace of a whole run that the claims on
    ordering, failure and the cache gate rest on. *)
Lemma Build_inv fuel bc options s :
  trace s = [] →
  let tr := Build_trace fuel bc options s in
  ordered (dependsOn (manifest s)) tr
  ∧ (∀ x e, EvBuildFailed x e ∈ tr →
       Build_outcome fuel bc options s = Returned (Some (ErrBuildingService x e))
       ∧ EvBuilt x ∉ tr)
  ∧ (∀ x, (∃ h, EvCheckBuilt x h ∈ tr) ↔ cacheEnabled bc options = true ∧ EvAttempt x ∈ tr).
Proof.
  intros Hs tr. subst tr.
  destruct (Build_spec fuel bc options s)
    as [(pre & -> & Hpre)|(options1 & s1 & pre & post & _ & Hc & Hb & Hs1 & Hpre & Hpost & Ht & Hout)].
  - rewrite Hs, app_nil_r.
    pose proof (λ e, frameEvent_elem e _ Hpre) as Hframe.
    split; [|split].
    + by apply ordered_frame.
    + intros x e Hx. by apply Hframe in Hx.
    + intros x. split; [intros [h Hx]; by apply Hframe in Hx | intros [_ Hx]; by apply Hframe in Hx].
  - simpl in Ht. rewrite Ht. clear Ht. rewrite Hs, app_nil_r in Hs1.
    pose proof (λ e, frameEvent_elem e _ Hpost) as Hframe.
    assert (Hinit : LoopInv (dependsOn (manifest s)) (cacheEnabled bc options1) (mkLoop s1 ∅ [])).
    { apply (LoopInv_init _ _ _ pre); [done..|]. intros x. unfold dependsOn. by rewrite Hb. }
    pose proof (buildLoop_inv bc options1 _ _
                  (getToBuildSvcs (world s1) (manifest s1) options1) fuel
                  (λ svc ls _, buildLoopBody_inv bc options1 _ svc ls)
                  (λ ls, LoopInv_post _ _ OutOfFuel ls) _ Hinit) as Hend.
    rewrite Hc in Hend. simpl in Hout.
    destruct (buildLoop _ _ _ _ _) as [ls|out ls]; simpl in *.
    + destruct Hend as [_ _ _ Hord Hnofail Hcache]. split; [|split].
      * apply ordered_app; [|done]. intros x Hx. by apply Hframe in Hx.
      * intros x e Hx. apply elem_of_app in Hx as [Hx|Hx]; [by apply Hframe in Hx|].
        by apply Hnofail in Hx.
      * intros x. specialize (Hcache x).
        pose proof (Hframe (EvAttempt x)). split.
        -- intros [h Hx]. pose proof (Hframe (EvCheckBuilt x h)). set_solver.
        -- intros [? Hx]. destruct (proj2 Hcache) as [h Hh]; [set_solver|].
           exists h. set_solver.
    + destruct Hend as [Hord Hfail Hcache]. split; [|split].
      * apply ordered_app; [|done]. intros x Hx. by apply Hframe in Hx.
      * intros x e Hx. apply elem_of_app in Hx as [Hx|Hx]; [by apply Hframe in Hx|].
        apply Hfail in Hx as [-> Hnot]. split; [done|].
        intros Hx. apply elem_of_app in Hx as [Hx|Hx]; [by apply Hframe in Hx | done].
      * intros x. specialize (Hcache x).
        pose proof (Hframe (EvAttempt x)). split.
        -- intros [h Hx]. pose proof (Hframe (EvCheckBuilt x h)). set_solver.
        -- intros [? Hx]. destruct (proj2 Hcache) as [h Hh]; [set_solver|].
           exists h. set_solver.
Qed.

(** ** Plans that cannot progress, and plans that must *)

Lemma buildRound_passes_over bc options svcs ls :
  (∀ svc, svc ∈ svcs →
     skipServiceBuild svc (builtImagesControl ls) = true
     ∨ ∃ b, Manifest.Build (manifest (st ls)) !! svc = Some b
            ∧ areAllServicesBuilt (BuildInfo.DependsOn b) (builtImagesControl ls) = false) →
  buildRound bc options svcs ls = Continue ls.
Proof.
  induction svcs as [|svc svcs IH]; intros Hall; simpl; [done|].
  assert (buildLoopBody bc options svc ls = Continue ls) as ->.
  { unfold buildLoopBody.
    destruct (Hall svc ltac:(left)) as [->|(b & -> & ->)]; [done|].
    by destruct (skipServiceBuild _ _). }
  apply IH. intros svc' Hin. apply Hall. by right.
Qed.

Lemma buildLoop_stuck bc options toBuildSvcs ls fuel :
  stuck toBuildSvcs ls →
  buildLoop fuel bc options toBuildSvcs ls = Stop OutOfFuel ls.
Proof.
  intros [Hsize Hall].
  pose proof (buildRound_passes_over bc options toBuildSvcs ls Hall) as Hround.
  induction fuel as [|fuel IH]; simpl;
    (destruct (Nat.eqb_spec (size (builtImagesControl ls)) (length toBuildSvcs)); [done|]);
    [done | by rewrite Hround].
Qed.

(** A plan that is stuck from the start: Build never returns. *)
Lemma Build_stuck_from_start bc options s options1 s1 :
  LoadBoolean OktetoDeployRemote (world s) = false →
  prepareOptions options s = (Ok options1, s1) →
  validateOptions (manifest s1) (getToBuildSvcs (world s1) (manifest s1) options1) options1
  = None →
  stuck (getToBuildSvcs (world s1) (manifest s1) options1) (mkLoop s1 ∅ []) →
  ∀ fuel, Build fuel bc options s = (OutOfFuel, s1).
Proof.
  intros Hremote Hprep Hvalid Hstuck fuel. unfold Build.
  rewrite Hremote, Hprep, Hvalid.
  by rewrite (buildLoop_stuck bc options1 _ _ fuel Hstuck).
Qed.

(** C1 (as amended): from a state in which units are pending and none can be
    attempted (each is built already or waits for a dependency outside the
    built-set), a round changes nothing and the loop of Build never exits:
    for every number of rounds it is still polling in the same state. Build
    raises no scheduling error. *)
Theorem buildLoop_stuck_polls_forever bc options toBuildSvcs ls :
  stuck toBuildSvcs ls →
  buildRound bc options toBuildSvcs ls = Continue ls
  ∧ ∀ fuel, buildLoop fuel bc options toBuildSvcs ls = Stop OutOfFuel ls.
Proof.
  intros Hstuck. split.
  - apply buildRound_passes_over. by destruct Hstuck.
  - intros fuel. by apply buildLoop_stuck.
Qed.

(** C4 (as amended): when no unit is selected, validateOptions reports
    ErrNoServicesToBuildDefined and Build takes it as nothing to do: it
    returns nil, without an event of the scheduling loop. For a selection
    that is not empty, an error of validateOptions is one of the other two
    plan-validation errors (names that are not in the plan, per-unit flags
    with more than one unit) and Build returns it as its error. *)
Theorem Build_no_services_is_skipped fuel bc options s options1 s1 :
  LoadBoolean OktetoDeployRemote (world s) = false →
  prepareOptions options s = (Ok options1, s1) →
  let toBuildSvcs := getToBuildSvcs (world s1) (manifest s1) options1 in
  (toBuildSvcs = [] →
   validateOptions (manifest s1) [] options1 = Some ErrNoServicesToBuildDefined
   ∧ Build fuel bc options s = (Returned None, s1)
   ∧ ∃ pre, trace s1 = (pre ++ trace s)%list ∧ Forall frameEvent pre)
  ∧ (toBuildSvcs ≠ [] →
     ∀ err, validateOptions (manifest s1) toBuildSvcs options1 = Some err →
       ((∃ invalid, err = ErrInvalidServiceNames invalid)
        ∨ err = ErrNoFlagAllowedOnSingleImageBuild)
       ∧ Build fuel bc options s = (Returned (Some err), s1)).
Proof.
  intros Hremote Hprep toBuildSvcs. split.
  - intros Hsvcs. split; [done|]. split.
    + unfold Build. rewrite Hremote, Hprep. fold toBuildSvcs. by rewrite Hsvcs.
    + by apply prepareOptions_frame in Hprep as (_ & ? & _).
  - intros Hne err Hvalid.
    assert (Hkind : (∃ invalid, err = ErrInvalidServiceNames invalid)
                    ∨ err = ErrNoFlagAllowedOnSingleImageBuild).
    { unfold validateOptions, validateServices in Hvalid.
      destruct toBuildSvcs as [|svc svcs]; [done|]. cbn [length Nat.eqb] in Hvalid.
      repeat case_match; simplify_eq; eauto. }
    split; [done|].
    unfold Build. rewrite Hremote, Hprep. fold toBuildSvcs. rewrite Hvalid.
    by destruct Hkind as [[invalid ->]| ->].
Qed.

(** C8: a unit that requests volume mounts outside an okteto context gets
    the user error with its hint and nothing is built (the state, trace
    included, is unchanged), with or without a Dockerfile. *)
Theorem buildServiceImages_volumes_outside_okteto bc svcName options s buildSvcInfo :
  Manifest.Build (manifest s) !! svcName = Some buildSvcInfo →
  BuildInfo.VolumesToInclude buildSvcInfo ≠ [] →
  okteto_IsOkteto (world s) = false →
  buildServiceImages bc svcName options s
  = (Err (UserError "Build with volume mounts is not supported on vanilla contexts"
                    "Please connect to a okteto context and try again"), s).
Proof.
  intros Hsvc Hvol Hctx.
  unfold buildServiceImages, bind, getManifest, getWorld, deref; simpl.
  rewrite Hsvc, (serviceHasVolumesToInclude_true _ Hvol), Hctx. reflexivity.
Qed.

(** C10 (as amended): for a unit with neither a Dockerfile nor volume mounts,
    buildServiceImages returns the empty reference and no error without any
    effect. In the iteration of the loop of Build that starts such a unit:
    when the registry lookup is off or misses, and the context is okteto or
    the unit names an image, the unit's variables are exported with the empty
    reference and the unit enters the built-set; when the lookup is off or
    misses, the context is not okteto and the unit names no image, Build
    returns the image-required error and the unit is neither exported nor
    entered; and on a hit buildServiceImages is not called: the unit enters
    the built-set and is exported with the cached reference or, when that
    reference is in the global registry, with its clone in the dev registry
    (an error of the clone being returned as it is). *)
Theorem buildServiceImages_nothing_to_build bc svcName options ls buildSvcInfo :
  Manifest.Build (manifest (st ls)) !! svcName = Some buildSvcInfo →
  BuildInfo.Dockerfile buildSvcInfo = "" →
  BuildInfo.VolumesToInclude buildSvcInfo = [] →
  skipServiceBuild svcName (builtImagesControl ls) = false →
  areAllServicesBuilt (BuildInfo.DependsOn buildSvcInfo) (builtImagesControl ls) = true →
  let w := world (st ls) in
  let step := buildLoopBody bc options svcName ls in
  let buildHash := hashService buildSvcInfo w in
  let lookup :=
    checkIfBuildHashIsBuilt (getImageChecker buildSvcInfo bc)
      (Manifest.Name (manifest (st ls))) svcName buildHash w in
  let cached := lookup.1.1 in
  let cacheHit := cacheEnabled bc options && lookup.1.2 in
  let w1 := if cacheEnabled bc options then lookup.2 else w in
  let started :=
    ((if cacheEnabled bc options then [EvCheckBuilt svcName buildHash] else [])
       ++ EvAttempt svcName :: trace (st ls))%list in
  buildServiceImages bc svcName options (st ls) = (Ok "", st ls)
  ∧ (cacheHit = false →
     okteto_IsOkteto w1 = true ∨ BuildInfo.Image buildSvcInfo ≠ "" →
     ∃ ls', step = Continue ls'
       ∧ builtImagesControl ls' = <[svcName := true]> (builtImagesControl ls)
       ∧ world (st ls') = SetServiceEnvVars svcName "" w1
       ∧ trace (st ls')
         = EvBuilt svcName :: EvSetServiceEnvVars svcName ""
             :: EvBuildServiceImages svcName :: started)
  ∧ (cacheHit = false →
     okteto_IsOkteto w1 = false → BuildInfo.Image buildSvcInfo = "" →
     ∃ ls', step = Stop (Returned (Some (ErrImageRequired svcName))) ls'
       ∧ builtImagesControl ls' = builtImagesControl ls
       ∧ world (st ls') = w1
       ∧ trace (st ls') = started)
  ∧ (cacheHit = true →
     (∃ Δ, trace (st (stepState step)) = (Δ ++ started)%list
           ∧ ∀ x, EvBuildServiceImages x ∉ Δ)
     ∧ (IsGlobalRegistry cached w1 = false →
        ∃ ls', step = Continue ls'
          ∧ builtImagesControl ls' = <[svcName := true]> (builtImagesControl ls)
          ∧ world (st ls') = SetServiceEnvVars svcName cached w1
          ∧ trace (st ls')
            = EvBuilt svcName :: EvSetServiceEnvVars svcName cached :: started)
     ∧ (IsGlobalRegistry cached w1 = true →
        match CloneGlobalImageToDev cached buildHash w1 with
        | (Ok devImage, w2) =>
            ∃ ls', step = Continue ls'
              ∧ builtImagesControl ls' = <[svcName := true]> (builtImagesControl ls)
              ∧ world (st ls') = SetServiceEnvVars svcName devImage w2
              ∧ trace (st ls')
                = EvBuilt svcName :: EvSetServiceEnvVars svcName devImage
                    :: EvClone cached buildHash :: started
        | (Err err, _) =>
            ∃ ls', step = Stop (Returned (Some err)) ls'
              ∧ builtImagesControl ls' = builtImagesControl ls
        | (Panic, _) => ∃ ls', step = Stop Panicked ls'
        end)).
Proof.
  intros Hsvc Hdocker Hvol Hskip Hall w step buildHash lookup cached cacheHit w1 started.
  pose proof (buildServiceImages_default bc svcName options) as Hdefault.
  split; [by apply (Hdefault (st ls) buildSvcInfo)|].
  assert (Hfresh : ∀ ls0,
    manifest (st ls0) = manifest (st ls) →
    (okteto_IsOkteto (world (st ls0)) = true ∨ BuildInfo.Image buildSvcInfo ≠ "" →
     ∃ ls', buildFresh bc options svcName buildSvcInfo ls0 = Continue ls'
       ∧ builtImagesControl ls' = <[svcName := true]> (builtImagesControl ls0)
       ∧ world (st ls') = SetServiceEnvVars svcName "" (world (st ls0))
       ∧ trace (st ls')
         = EvBuilt svcName :: EvSetServiceEnvVars svcName ""
             :: EvBuildServiceImages svcName :: trace (st ls0))
    ∧ (okteto_IsOkteto (world (st ls0)) = false → BuildInfo.Image buildSvcInfo = "" →
       buildFresh bc options svcName buildSvcInfo ls0
       = Stop (Returned (Some (ErrImageRequired svcName))) ls0)).
  { intros ls0 Hm. unfold buildFresh, okteto_IsOkteto. split.
    - intros Hguard.
      assert (negb (OktetoContext.IsOkteto (okteto_Context (world (st ls0))))
              && bool_decide (BuildInfo.Image buildSvcInfo = "") = false) as ->.
      { destruct Hguard as [Hok|Himg].
        - by rewrite Hok.
        - rewrite (bool_decide_eq_false_2 _ Himg). by rewrite andb_false_r. }
      rewrite (Hdefault (st (emitL (EvBuildServiceImages svcName) ls0)) buildSvcInfo);
        [|by simpl; rewrite Hm|done..].
      eexists. split; [reflexivity|]. simpl. by destruct (buildsAnalytics ls0).
    - intros -> ->. done. }
  subst step. unfold buildLoopBody. rewrite Hskip, Hsvc, Hall. simpl.
  subst cacheHit w1 started cached lookup buildHash w.
  destruct (cacheEnabled bc options) eqn:Hcache; simpl.
  - destruct (checkIfBuildHashIsBuilt _ _ _ _ _) as [[imageWithDigest isBuilt] w'] eqn:Hcheck.
    simpl. destruct isBuilt.
    + split; [done|]. split; [done|]. intros _.
      destruct (IsGlobalRegistry imageWithDigest w') eqn:Hglobal.
      * destruct (CloneGlobalImageToDev _ _ _) as [[devImage|err|] w'']; simpl.
        -- split; [eexists [_; _; _]; split; [reflexivity|]; set_solver|].
           split; [done|]. intros _. eexists. by split.
        -- split; [eexists [_]; split; [reflexivity|]; set_solver|].
           split; [done|]. intros _. eexists. by split.
        -- split; [eexists [_]; split; [reflexivity|]; set_solver|].
           split; [done|]. intros _. by eexists.
      * simpl. split; [eexists [_; _]; split; [reflexivity|]; set_solver|].
        split; [|done]. intros _. eexists. by split.
    + match goal with |- context [buildFresh _ _ _ _ ?l] =>
        destruct (Hfresh l eq_refl) as [Hbuilt Hrequired] end.
      split; [|split; [|done]].
      * intros _ Hguard. destruct (Hbuilt Hguard) as (ls' & -> & ? & ? & ?). by exists ls'.
      * intros _ Hctx Himg. rewrite (Hrequired Hctx Himg). eexists. by split.
  - match goal with |- context [buildFresh _ _ _ _ ?l] =>
      destruct (Hfresh l eq_refl) as [Hbuilt Hrequired] end.
    split; [|split; [|done]].
    * intros _ Hguard. destruct (Hbuilt Hguard) as (ls' & -> & ? & ? & ?). by exists ls'.
    * intros _ Hctx Himg. rewrite (Hrequired Hctx Himg). eexists. by split.
Qed.

Lemma addVolumeMounts_forwards bc svcName options s buildInfo :
  Manifest.Build (manifest s) !! svcName = Some buildInfo →
  ∃ Δ fromImage,
    trace (addVolumeMounts bc svcName options s).2
    = (Δ ++ EvCreateDockerfile fromImage (getAccessibleVolumeMounts (world s) buildInfo)
         :: trace s)%list.
Proof.
  intros Hb. unfold addVolumeMounts. monad_unfold. rewrite Hb. simpl.
  repeat (break_match; monad_unfold; simplify_eq/=);
    first [by eexists [], _ | by eexists [_], _ | by eexists [_; _], _].
Qed.

(** When the derived build on the accessible mounts goes through (the
    Dockerfile is generated, the executor returns no error, the registry
    resolves the tag), [addVolumeMounts] returns the resolved reference. *)
Lemma addVolumeMounts_succeeds bc svcName options s buildInfo svcBuild w1 w2 image :
  Manifest.Build (manifest s) !! svcName = Some buildInfo →
  let forwarded := getAccessibleVolumeMounts (world s) buildInfo in
  let fromImage := baseImage options buildInfo in
  let buildOptions :=
    BuildOptions.withTag (volumesTag bc svcName s buildInfo)
      (OptsFromBuildInfo (Manifest.Name (manifest s)) svcName svcBuild options w1) in
  CreateDockerfileWithVolumeMounts fromImage forwarded (world s) = (Ok svcBuild, w1) →
  V1Build buildOptions w1 = (None, w2) →
  GetImageTagWithDigest (volumesTag bc svcName s buildInfo) w2 = Ok image →
  addVolumeMounts bc svcName options s
  = (Ok image,
     mkSt w2 (manifest s)
       (EvV1Build buildOptions :: EvCreateDockerfile fromImage forwarded :: trace s)).
Proof.
  intros Hb forwarded fromImage buildOptions Hcreate Hbuild Hdigest.
  subst forwarded fromImage buildOptions.
  unfold addVolumeMounts, baseImage, volumesTag in *. monad_unfold. rewrite Hb. simpl.
  unfold getBuildInfoWithVolumeMounts. simpl.
  rewrite Hcreate. simpl. rewrite Hbuild. simpl. by rewrite Hdigest.
Qed.

(** C7 (as amended): the mounts handed to the derived build are the requested
    mounts, in order, for which stat does not report not-exist: a mount whose
    path is reported missing is dropped, and filtering itself returns no
    error. The build still succeeds: when the derived build on the mounts
    that are left goes through (its Dockerfile is generated, the executor
    returns no error and the registry resolves the tag), addVolumeMounts
    returns the resolved reference, and so does buildServiceImages for a
    unit that has mounts and no Dockerfile in an okteto context. *)
Theorem getAccessibleVolumeMounts_spec bc svcName options s buildInfo :
  Manifest.Build (manifest s) !! svcName = Some buildInfo →
  let w := world s in
  let forwarded := getAccessibleVolumeMounts w buildInfo in
  forwarded
  = List.filter (fun v => negb (os_IsNotExist (Stat (StackVolume.LocalPath v) w)))
      (BuildInfo.VolumesToInclude buildInfo)
  ∧ (∀ v, v ∈ forwarded ↔
          v ∈ BuildInfo.VolumesToInclude buildInfo
          ∧ Stat (StackVolume.LocalPath v) w ≠ Some ENOENT)
  ∧ (∃ Δ fromImage,
      trace (addVolumeMounts bc svcName options s).2
      = (Δ ++ EvCreateDockerfile fromImage forwarded :: trace s)%list)
  ∧ ∀ svcBuild w1 w2 image,
      let tag := volumesTag bc svcName s buildInfo in
      let buildOptions :=
        BuildOptions.withTag tag
          (OptsFromBuildInfo (Manifest.Name (manifest s)) svcName svcBuild options w1) in
      CreateDockerfileWithVolumeMounts (baseImage options buildInfo) forwarded w
      = (Ok svcBuild, w1) →
      V1Build buildOptions w1 = (None, w2) →
      GetImageTagWithDigest tag w2 = Ok image →
      (addVolumeMounts bc svcName options s).1 = Ok image
      ∧ (BuildInfo.Dockerfile buildInfo = "" →
         BuildInfo.VolumesToInclude buildInfo ≠ [] →
         okteto_IsOkteto w = true →
         (buildServiceImages bc svcName options s).1 = Ok image).
Proof.
  intros Hb w forwarded. subst forwarded.
  split; [apply getAccessibleVolumeMounts_filter|].
  split; [|split; [by apply addVolumeMounts_forwards|]].
  - intros v. rewrite getAccessibleVolumeMounts_filter.
    rewrite !list_elem_of_In, filter_In.
    destruct (Stat (StackVolume.LocalPath v) w) as [[]|]; simpl; naive_solver.
  - intros svcBuild w1 w2 image tag buildOptions Hcreate Hbuild Hdigest.
    pose proof (addVolumeMounts_succeeds bc svcName options s buildInfo svcBuild w1 w2 image
                  Hb Hcreate Hbuild Hdigest) as Hrun.
    split; [by rewrite Hrun|].
    intros Hdocker Hvol Hctx.
    unfold buildServiceImages. unfold bind at 1 2 3, getManifest, getWorld, deref.
    rewrite Hb, (serviceHasVolumesToInclude_true _ Hvol).
    fold w. rewrite Hctx. simpl.
    unfold serviceHasDockerfile. rewrite Hdocker. simpl. by rewrite Hrun.
Qed.


(** The cache gate at the level of one iteration: with the gate open the
    lookup is the first thing done for the unit; with the gate closed the
    iteration is the build path itself. *)
Lemma buildLoopBody_cache_gate bc options svc ls b :
  skipServiceBuild svc (builtImagesControl ls) = false →
  Manifest.Build (manifest (st ls)) !! svc = Some b →
  areAllServicesBuilt (BuildInfo.DependsOn b) (builtImagesControl ls) = true →
  let step := buildLoopBody bc options svc ls in
  if cacheEnabled bc options
  then ∃ Δ h, trace (st (stepState step))
              = (Δ ++ EvCheckBuilt svc h :: EvAttempt svc :: trace (st ls))%list
  else step = buildFresh bc options svc b
                (appendMeta (newImageBuildMetadata bc svc b (world (st ls)))
                   (emitL (EvAttempt svc) ls)).
Proof.
  intros Hskip Hb Hall step. subst step.
  destruct (buildLoopBody_spec bc options svc ls)
    as [[_ [Hs|(b' & _ & Hb' & Hall')]]|[(_ & _ & Hnone)|(b' & Δ & _ & Hb' & _ & Hshape & Ht & _)]];
    try congruence.
  destruct (cacheEnabled bc options) eqn:Hcache.
  - rewrite Ht.
    inversion Hshape as [| res Δ' h _ _ | h image _ | h image dev _ | h image out _]; subst;
      try discriminate.
    + exists Δ', h. by rewrite <- app_assoc.
    + by exists [EvBuilt svc; EvSetServiceEnvVars svc image], h.
    + by exists [EvBuilt svc; EvSetServiceEnvVars svc dev; EvClone image h], h.
    + by exists [EvClone image h], h.
  - unfold buildLoopBody. by rewrite Hskip, Hb, Hall, Hcache.
Qed.

(** C5: in a run of Build the registry lookup is made for a unit exactly when
    the unit is started and the three conditions hold (no-cache not
    requested, clean project, smart builds enabled); when one of them fails,
    no lookup is made and the iteration of a started unit is the build path:
    past the image requirement of an unmanaged context, the call of
    buildServiceImages follows the start of the unit directly. *)
Theorem Build_cache_lookup_iff fuel bc options s :
  trace s = [] →
  let tr := Build_trace fuel bc options s in
  (∀ svc, (∃ h, EvCheckBuilt svc h ∈ tr) ↔
     (BuildOptions.NoCache options = false ∧ Config.IsCleanProject bc = true
      ∧ Config.IsSmartBuildsEnabled bc = true)
     ∧ EvAttempt svc ∈ tr)
  ∧ ((BuildOptions.NoCache options = true ∨ Config.IsCleanProject bc = false
      ∨ Config.IsSmartBuildsEnabled bc = false) →
     (∀ svc h, EvCheckBuilt svc h ∉ tr)
     ∧ ∀ svc ls b,
         skipServiceBuild svc (builtImagesControl ls) = false →
         Manifest.Build (manifest (st ls)) !! svc = Some b →
         areAllServicesBuilt (BuildInfo.DependsOn b) (builtImagesControl ls) = true →
         buildLoopBody bc options svc ls
         = buildFresh bc options svc b
             (appendMeta (newImageBuildMetadata bc svc b (world (st ls)))
                (emitL (EvAttempt svc) ls))
         ∧ (okteto_IsOkteto (world (st ls)) = true ∨ BuildInfo.Image b ≠ "" →
            ∃ Δ, trace (st (stepState (buildLoopBody bc options svc ls)))
                 = (Δ ++ EvBuildServiceImages svc :: EvAttempt svc :: trace (st ls))%list)).
Proof.
  intros Hs tr. destruct (Build_inv fuel bc options s Hs) as (_ & _ & Hcache).
  fold tr in Hcache.
  assert (Hgate : cacheEnabled bc options = true ↔
    BuildOptions.NoCache options = false ∧ Config.IsCleanProject bc = true
    ∧ Config.IsSmartBuildsEnabled bc = true).
  { unfold cacheEnabled. rewrite !andb_true_iff, negb_true_iff. tauto. }
  split.
  - intros svc. by rewrite Hcache, Hgate.
  - intros Hoff.
    assert (Hfalse : cacheEnabled bc options = false).
    { apply not_true_iff_false. rewrite Hgate. destruct Hoff as [?|[?|?]]; intros (?&?&?); congruence. }
    split.
    + intros svc h Hin. destruct (proj1 (Hcache svc) (ex_intro _ h Hin)). congruence.
    + intros svc ls b Hskip Hb Hall.
      pose proof (buildLoopBody_cache_gate bc options svc ls b Hskip Hb Hall) as Hbody.
      simpl in Hbody. rewrite Hfalse in Hbody. split; [done|].
      intros Hguard. rewrite Hbody.
      by apply (buildFresh_starts_build bc options svc b
                  (appendMeta (newImageBuildMetadata bc svc b (world (st ls)))
                     (emitL (EvAttempt svc) ls))).
Qed.

(** ** Fingerprint *)

Lemma insertByKey_perm kv l : insertByKey kv l ≡ₚ kv :: l.
Proof.
  induction l as [|kv' l IH]; simpl; [done|].
  destruct (String.leb kv.1 kv'.1); [done|]. rewrite IH. apply Permutation_swap.
Qed.

Lemma insertByKey_sorted kv l : Sorted keyLe l → Sorted keyLe (insertByKey kv l).
Proof.
  induction 1 as [|kv' l Hl IH Hhd]; simpl; [by repeat constructor|].
  destruct (String.leb kv.1 kv'.1) eqn:Hle.
  - constructor; [by constructor | by constructor].
  - constructor; [done|].
    assert (Hge : keyLe kv' kv).
    { unfold keyLe. destruct (String.leb_total kv.1 kv'.1); congruence. }
    destruct Hhd as [|kv'' l' Hle']; simpl; [by constructor|].
    destruct (String.leb kv.1 kv''.1); by constructor.
Qed.

(** The secrets of the grammar string are the entries of the map, each
    once, in lexicographic key order. *)
Lemma sortedSecrets_spec (secrets : gmap string string) :
  sortedSecrets secrets ≡ₚ map_to_list secrets
  ∧ Sorted keyLe (sortedSecrets secrets).
Proof.
  unfold sortedSecrets. induction (map_to_list secrets) as [|kv l [IHp IHs]]; simpl.
  - split; [done | constructor].
  - split; [by rewrite insertByKey_perm, IHp | by apply insertByKey_sorted].
Qed.

(** C2: for the unit of the literal vector and the commit id 1234567890, the
    project-commit fingerprint is the SHA-256 hex digest of the grammar
    string of the spec; arguments keep their declared order, secrets come in
    key order, and a section without entries is its label followed by a
    semicolon. *)
Theorem hashProjectCommit_literal_vector w :
  GetSHA w = Ok "1234567890" →
  hashProjectCommit literalUnit w
  = hashString "commit:1234567890;target:target;build_args:foo=bar;key=value;secrets:secret=secret;context:context;dockerfile:dockerfile;image:image;"
  ∧ hashProjectCommit literalUnit w
    = "b613f7afb906ba93792616ffee3ed19a66dbe65f0e373c5e6b86b4ab4c154ee7"
  ∧ oneLineBuildInfo w "1234567890"
      (BuildInfo.withArgs [BuildArg.mk "key" "value"; BuildArg.mk "foo" "bar"] literalUnit)
    = "commit:1234567890;target:target;build_args:key=value;foo=bar;secrets:secret=secret;context:context;dockerfile:dockerfile;image:image;"
  ∧ (∀ secrets, sortedSecrets secrets ≡ₚ map_to_list secrets
                ∧ Sorted keyLe (sortedSecrets secrets))
  ∧ oneLineBuildInfo w "1234567890" BuildInfo.empty
    = "commit:1234567890;target:;build_args:;secrets:;context:;dockerfile:;image:;".
Proof.
  intros Hsha.
  assert (Hline : oneLineBuildInfo w "1234567890" literalUnit
    = "commit:1234567890;target:target;build_args:foo=bar;key=value;secrets:secret=secret;context:context;dockerfile:dockerfile;image:image;")
    by (vm_compute; reflexivity).
  unfold hashProjectCommit, projectCommit. rewrite Hsha, Hline.
  split; [reflexivity|]. split; [vm_compute; reflexivity|].
  split; [vm_compute; reflexivity|]. split; [apply sortedSecrets_spec|].
  vm_compute; reflexivity.
Qed.

(** C9: the fingerprint is a string on every input; when the commit lookup
    fails it is the digest of the same grammar string with the empty commit
    id, that is with the prefix [commit:;]. *)
Theorem hashProjectCommit_commit_lookup_failure w b err :
  GetSHA w = Err err →
  hashProjectCommit b w = hashString (oneLineBuildInfo w "" b)
  ∧ (∃ rest, oneLineBuildInfo w "" b = "commit:;" ++ rest
             ∧ ∀ commit, oneLineBuildInfo w commit b = "commit:" ++ commit ++ ";" ++ rest)
  ∧ oneLineBuildInfo w "" literalUnit
    = "commit:;target:target;build_args:foo=bar;key=value;secrets:secret=secret;context:context;dockerfile:dockerfile;image:image;".
Proof.
  intros Hsha. unfold hashProjectCommit, projectCommit. rewrite Hsha.
  split; [reflexivity|]. split; [|vm_compute; reflexivity].
  eexists. split; [reflexivity|]. intros commit. reflexivity.
Qed.

(** ** Image references *)

(** C6: the reference under which a unit is built. With the explicit image
    okteto/test, no volume mounts and a plan that is not a compose plan it is
    okteto/test; without explicit image and volume mounts it is
    <namespace>/<plan>-<unit>:okteto; for the volume-mount build of the same
    unit it is <namespace>/<plan>-<unit>:okteto-with-volume-mounts. *)
Theorem image_reference_resolution bc w manifestName svcName buildHash b :
  BuildInfo.VolumesToInclude b = [] →
  (BuildInfo.Image b = "okteto/test" →
   getServiceImageReference (newImageTagger bc) w manifestName svcName
     (getBuildInfoWithoutVolumeMounts w b false) buildHash
   = "okteto/test")
  ∧ (BuildInfo.Image b = "" →
     (∀ isStackManifest,
        getServiceImageReference (newImageTagger bc) w manifestName svcName
          (getBuildInfoWithoutVolumeMounts w b isStackManifest) buildHash
        = privateNamespace w ++ "/" ++ manifestName ++ "-" ++ svcName ++ ":okteto")
     ∧ ∀ vols, vols ≠ [] →
         let b' := BuildInfo.withVolumesToInclude vols b in
         getImageChecker b' bc = newImageChecker bc (newImageWithVolumesTagger bc)
         ∧ getServiceImageReference (newImageWithVolumesTagger bc) w manifestName svcName
             (BuildInfo.withImage "" b') buildHash
           = privateNamespace w ++ "/" ++ manifestName ++ "-" ++ svcName
               ++ ":okteto-with-volume-mounts").
Proof.
  intros Hvol. split.
  - intros Himg. unfold getBuildInfoWithoutVolumeMounts. rewrite Hvol. simpl. by rewrite Himg.
  - intros Himg. split.
    + intros isStackManifest. unfold getBuildInfoWithoutVolumeMounts. rewrite Hvol, Himg. simpl.
      by destruct (isStackManifest && okteto_IsOkteto w && negb (IsOktetoRegistry "" w)); simpl;
        rewrite ?Himg.
    + intros vols Hvols b'. split; [|done].
      unfold getImageChecker, serviceHasVolumesToInclude. subst b'. simpl.
      by destruct vols.
Qed.

(** ** Termination on plans whose dependencies are well founded *)

Lemma AttemptShape_outcome svc cache out Δ :
  AttemptShape svc cache (Some out) Δ → out ≠ OutOfFuel.
Proof.
  inversion 1 as [res Δ' _ Hf|res Δ' h _ Hf| | |]; subst; try done;
    inversion Hf; by subst.
Qed.

Lemma buildLoopBody_progress bc options toBuildSvcs deps svc ls :
  RoundInv toBuildSvcs deps ls → svc ∈ toBuildSvcs →
  match buildLoopBody bc options svc ls with
  | Stop out _ => out ≠ OutOfFuel
  | Continue ls' =>
      RoundInv toBuildSvcs deps ls'
      ∧ (∀ x, is_Some (builtImagesControl ls !! x) → is_Some (builtImagesControl ls' !! x))
      ∧ (is_Some (deps svc) → ready deps (builtImagesControl ls) svc →
         is_Some (builtImagesControl ls' !! svc))
  end.
Proof.
  intros [Hdeps Htrue Hdom] Hin.
  destruct (buildLoopBody_spec bc options svc ls)
    as [[-> Hpass]|[[-> _]|(b & Δ & Hskip & Hb & Hall & Hshape & Ht & Hc & Hd)]]; [| done |].
  - split; [done|]. split; [done|]. intros [ds Hds] Hready.
    destruct Hpass as [Hskip|(b & _ & Hb & Hall)].
    + unfold skipServiceBuild in Hskip. by destruct (builtImagesControl ls !! svc).
    + exfalso. apply not_true_iff_false in Hall. apply Hall, areAllServicesBuilt_true.
      apply (Hready (BuildInfo.DependsOn b)). rewrite <- Hdeps. unfold dependsOn. by rewrite Hb.
  - destruct (buildLoopBody bc options svc ls) as [ls'|out ls']; simpl in *.
    + split; [split|split].
      * intros x. by rewrite Hd.
      * intros x v. rewrite Hc. destruct (decide (svc = x)) as [->|Hne].
        -- rewrite lookup_insert_eq. congruence.
        -- rewrite lookup_insert_ne by done. apply Htrue.
      * intros x. rewrite Hc. destruct (decide (svc = x)) as [->|Hne]; [done|].
        rewrite lookup_insert_ne by done. apply Hdom.
      * intros x. rewrite Hc. destruct (decide (svc = x)) as [->|Hne].
        -- by rewrite lookup_insert_eq.
        -- by rewrite lookup_insert_ne.
      * intros _ _. by rewrite Hc, lookup_insert_eq.
    + by eapply AttemptShape_outcome.
Qed.

Lemma buildRound_progress bc options toBuildSvcs deps svcs ls :
  RoundInv toBuildSvcs deps ls → (∀ svc, svc ∈ svcs → svc ∈ toBuildSvcs) →
  match buildRound bc options svcs ls with
  | Stop out _ => out ≠ OutOfFuel
  | Continue ls' =>
      RoundInv toBuildSvcs deps ls'
      ∧ (∀ x, is_Some (builtImagesControl ls !! x) → is_Some (builtImagesControl ls' !! x))
      ∧ ∀ svc, svc ∈ svcs → is_Some (deps svc) → ready deps (builtImagesControl ls) svc →
          is_Some (builtImagesControl ls' !! svc)
  end.
Proof.
  revert ls. induction svcs as [|svc svcs IH]; intros ls Hinv Hsub; simpl.
  { split; [done|]. split; [done|]. intros x Hx. by apply elem_of_nil in Hx. }
  pose proof (buildLoopBody_progress bc options toBuildSvcs deps svc ls Hinv
                (Hsub svc ltac:(left))) as Hbody.
  destruct (buildLoopBody bc options svc ls) as [ls1|out ls1]; [|done].
  destruct Hbody as (Hinv1 & Hmono1 & Hsvc).
  specialize (IH ls1 Hinv1 (λ x Hx, Hsub x ltac:(by right))).
  destruct (buildRound bc options svcs ls1) as [ls'|out ls']; [|done].
  destruct IH as (Hinv' & Hmono' & Hrest).
  split; [done|]. split; [by auto|].
  intros x [->|Hx]%elem_of_cons Hsome Hready.
  - by apply Hmono', Hsvc.
  - apply Hrest; [done..|]. intros ds Hds d Hd. by apply Hmono1, (Hready ds).
Qed.

Lemma control_size_le toBuildSvcs deps ls :
  NoDup toBuildSvcs → RoundInv toBuildSvcs deps ls →
  (size (builtImagesControl ls) ≤ length toBuildSvcs)%nat.
Proof.
  intros Hnodup [_ _ Hdom].
  rewrite <- size_dom, <- (size_list_to_set (C:=gset string) toBuildSvcs) by done.
  apply subseteq_size. intros x Hx. apply elem_of_list_to_set, Hdom. by apply elem_of_dom.
Qed.

Lemma exists_pending toBuildSvcs deps ls :
  NoDup toBuildSvcs → RoundInv toBuildSvcs deps ls →
  size (builtImagesControl ls) ≠ length toBuildSvcs →
  ∃ svc, svc ∈ toBuildSvcs ∧ builtImagesControl ls !! svc = None.
Proof.
  intros Hnodup Hinv Hsize.
  destruct (decide (Exists (λ svc, builtImagesControl ls !! svc = None) toBuildSvcs))
    as [Hex|Hall].
  - apply Exists_exists in Hex as (svc & ? & ?). eauto.
  - exfalso. apply Hsize.
    rewrite <- size_dom, <- (size_list_to_set (C:=gset string) toBuildSvcs) by done.
    f_equal. apply set_eq. intros x. rewrite elem_of_list_to_set, elem_of_dom. split.
    + by apply (round_dom _ _ _ Hinv).
    + intros Hx. destruct (builtImagesControl ls !! x) eqn:Hc; [done|].
      exfalso. apply Hall, Exists_exists. eauto.
Qed.

Lemma exists_ready toBuildSvcs deps rank ls :
  wellFounded toBuildSvcs deps rank → RoundInv toBuildSvcs deps ls →
  size (builtImagesControl ls) ≠ length toBuildSvcs →
  ∃ svc, svc ∈ toBuildSvcs ∧ builtImagesControl ls !! svc = None
         ∧ is_Some (deps svc) ∧ ready deps (builtImagesControl ls) svc.
Proof.
  intros [Hnodup Hwf] Hinv Hsize.
  destruct (exists_pending _ _ _ Hnodup Hinv Hsize) as (svc0 & Hin0 & Hnone0).
  assert (Hrank : ∀ n svc, (rank svc < n)%nat → svc ∈ toBuildSvcs →
            builtImagesControl ls !! svc = None →
            ∃ svc', svc' ∈ toBuildSvcs ∧ builtImagesControl ls !! svc' = None
                    ∧ is_Some (deps svc') ∧ ready deps (builtImagesControl ls) svc').
  { induction n as [|n IH]; intros svc Hlt Hin Hnone; [lia|].
    destruct (Hwf svc Hin) as (ds & Hds & Hall).
    destruct (decide (Exists (λ d, builtImagesControl ls !! d = None) ds)) as [Hex|Hno].
    - apply Exists_exists in Hex as (d & Hd & Hdnone).
      destruct (Hall d Hd) as [Hdin Hdrank]. apply (IH d); [lia|done..].
    - exists svc. split; [done|]. split; [done|]. split; [by rewrite Hds|].
      intros ds' Hds' d Hd. rewrite Hds in Hds'. injection Hds' as <-.
      destruct (builtImagesControl ls !! d) eqn:Hc; [done|].
      exfalso. apply Hno, Exists_exists. eauto. }
  by apply (Hrank (S (rank svc0)) svc0); [lia|..].
Qed.

Lemma buildLoop_terminates bc options toBuildSvcs deps rank :
  wellFounded toBuildSvcs deps rank →
  ∀ n ls fuel, RoundInv toBuildSvcs deps ls →
    (length toBuildSvcs - size (builtImagesControl ls) ≤ n)%nat → (n ≤ fuel)%nat →
    stepResult (buildLoop fuel bc options toBuildSvcs ls) ≠ Some OutOfFuel.
Proof.
  intros Hwf. pose proof Hwf as [Hnodup _].
  induction n as [|n IH]; intros ls fuel Hinv Hn Hfuel.
  - pose proof (control_size_le _ _ _ Hnodup Hinv).
    destruct fuel; simpl;
      (destruct (Nat.eqb_spec (size (builtImagesControl ls)) (length toBuildSvcs)); [done|lia]).
  - pose proof (control_size_le _ _ _ Hnodup Hinv) as Hle.
    destruct fuel as [|fuel]; [lia|]. simpl.
    destruct (Nat.eqb_spec (size (builtImagesControl ls)) (length toBuildSvcs)) as [|Hne]; [done|].
    pose proof (buildRound_progress bc options toBuildSvcs deps toBuildSvcs ls Hinv
                  (λ _ H, H)) as Hround.
    destruct (buildRound bc options toBuildSvcs ls) as [ls'|out ls']; simpl; [|congruence].
    destruct Hround as (Hinv' & Hmono & Hbuilt).
    destruct (exists_ready _ _ _ _ Hwf Hinv Hne) as (svc & Hin & Hnone & Hsome & Hready).
    apply IH; [done| |lia].
    assert (size (builtImagesControl ls) < size (builtImagesControl ls'))%nat; [|lia].
    rewrite <- !size_dom. apply subset_size. split.
    + intros x. rewrite !elem_of_dom. apply Hmono.
    + intros Hsub. specialize (Hsub svc). rewrite !elem_of_dom in Hsub.
      rewrite Hnone in Hsub. destruct Hsub as [? Hx]; [by apply Hbuilt|done].
Qed.

(** Build returns within as many rounds as the plan has units when the
    dependencies of the plan are well founded. *)
Theorem Build_terminates_on_well_founded_plan bc options s rank fuel :
  (∀ options1 s1, prepareOptions options s = (Ok options1, s1) →
     let toBuildSvcs := getToBuildSvcs (world s1) (manifest s1) options1 in
     wellFounded toBuildSvcs (dependsOn (manifest s)) rank
     ∧ (length toBuildSvcs ≤ fuel)%nat) →
  Build_outcome fuel bc options s ≠ OutOfFuel.
Proof.
  intros Hplan. unfold Build_outcome, Build.
  destruct (LoadBoolean _ _); [done|].
  destruct (prepareOptions options s) as [[options1| |] s1] eqn:Hprep; [|done..].
  destruct (Hplan options1 s1 eq_refl) as [Hwf Hfuel].
  apply prepareOptions_frame in Hprep as (Hbuild & _ & _).
  destruct (validateOptions _ _ _) as [err|]; [by destruct (isNoServicesToBuildDefined err)|].
  pose proof (buildLoop_terminates bc options1 _ _ rank Hwf fuel (mkLoop s1 ∅ []) fuel) as Hloop.
  destruct (buildLoop _ _ _ _ _) as [ls|out ls]; simpl in *.
  - by destruct (ExpandEnvVars _ _).
  - assert (out ≠ OutOfFuel).
    { intros ->. apply Hloop; [|simpl; lia|done|done].
      split; simpl; [|done|].
      - intros x. unfold dependsOn. by rewrite Hbuild.
      - intros x [? Hx]. by rewrite lookup_empty in Hx. }
    by destruct out.
Qed.

End Properties.

(** * Further properties *)

Section FurtherProperties.
Context {World : Type} `{!Collaborators World}.
Implicit Types (s : St World) (ls : LoopState World) (w : World).

(** ** Validation of the selection *)

Lemma validateServices_invalid (buildSection : gmap string BuildInfo.t) svcs acc :
  fold_left
    (fun invalid service =>
       match buildSection !! service with
       | None => (invalid ++ [service])%list
       | Some _ => invalid
       end) svcs acc
  = (acc ++ missingServices buildSection svcs)%list.
Proof.
  revert acc. induction svcs as [|svc svcs IH]; intros acc; simpl.
  - by rewrite app_nil_r.
  - rewrite IH. unfold missingServices. simpl.
    destruct (buildSection !! svc); simpl; [done | by rewrite <- app_assoc].
Qed.

Lemma missingServices_nil (buildSection : gmap string BuildInfo.t) svcs :
  missingServices buildSection svcs = [] ↔
  ∀ svc, svc ∈ svcs → is_Some (buildSection !! svc).
Proof.
  unfold missingServices. induction svcs as [|svc svcs IH]; simpl.
  - split; [intros _ x Hx; by apply elem_of_nil in Hx | done].
  - destruct (buildSection !! svc) eqn:Hsvc; simpl.
    + rewrite IH. split.
      * intros Hall x [->|Hx]%elem_of_cons; [by rewrite Hsvc | by apply Hall].
      * intros Hall x Hx. apply Hall. by right.
    + split; [done|]. intros Hall. destruct (Hall svc ltac:(left)) as [? Hc].
      by rewrite Hsvc in Hc.
Qed.

Lemma validateServices_eq (buildSection : gmap string BuildInfo.t) svcs :
  validateServices buildSection svcs
  = match missingServices buildSection svcs with
    | [] => None
    | invalid => Some (ErrInvalidServiceNames invalid)
    end.
Proof.
  unfold validateServices. rewrite validateServices_invalid. simpl.
  by destruct (missingServices buildSection svcs).
Qed.

(** X2: validateServices accepts a selection exactly when every selected
    name is a key of the build section; otherwise its error lists the
    selected names that are no key, in the order of the selection and with
    their repetitions. *)
Theorem validateServices_spec (buildSection : gmap string BuildInfo.t) svcs :
  (validateServices buildSection svcs = None ↔
   ∀ svc, svc ∈ svcs → is_Some (buildSection !! svc))
  ∧ ∀ err, validateServices buildSection svcs = Some err →
      err = ErrInvalidServiceNames (missingServices buildSection svcs)
      ∧ (∀ svc, svc ∈ missingServices buildSection svcs ↔
                svc ∈ svcs ∧ buildSection !! svc = None).
Proof.
  rewrite validateServices_eq. split.
  - rewrite <- missingServices_nil. by destruct (missingServices buildSection svcs).
  - intros err Herr. split.
    + destruct (missingServices buildSection svcs); [done | by injection Herr].
    + intros svc. unfold missingServices. rewrite !list_elem_of_In, filter_In.
      by rewrite bool_decide_eq_true.
Qed.

Lemma perUnitFlags_bool options :
  negb (bool_decide (BuildOptions.Tag options = ""))
  || negb (bool_decide (BuildOptions.Target options = ""))
  || bool_decide (is_Some (BuildOptions.CacheFrom options))
  || bool_decide (is_Some (BuildOptions.Secrets options)) = true
  ↔ perUnitFlags options.
Proof.
  unfold perUnitFlags.
  rewrite !orb_true_iff, !negb_true_iff, !bool_decide_eq_false, !bool_decide_eq_true. tauto.
Qed.

(** X3: validateOptions returns nil exactly when the selection is not
    empty, names only units of the manifest, and either has one unit or sets
    none of Tag, Target, CacheFrom, Secrets. It returns
    ErrNoServicesToBuildDefined exactly for the empty selection (whatever the
    flags), the invalid-names error exactly when a selected name is missing
    (whatever the flags), and ErrNoFlagAllowedOnSingleImageBuild exactly when
    the names are valid, the selection has not one unit and a flag is set. *)
Theorem validateOptions_spec manifest svcs options :
  (validateOptions manifest svcs options = None ↔
   svcs ≠ [] ∧ (∀ svc, svc ∈ svcs → is_Some (Manifest.Build manifest !! svc))
   ∧ (length svcs = 1 ∨ ¬ perUnitFlags options))
  ∧ (validateOptions manifest svcs options = Some ErrNoServicesToBuildDefined ↔ svcs = [])
  ∧ (∀ invalid, validateOptions manifest svcs options = Some (ErrInvalidServiceNames invalid) ↔
       svcs ≠ [] ∧ invalid ≠ [] ∧ invalid = missingServices (Manifest.Build manifest) svcs)
  ∧ (validateOptions manifest svcs options = Some ErrNoFlagAllowedOnSingleImageBuild ↔
       svcs ≠ [] ∧ (∀ svc, svc ∈ svcs → is_Some (Manifest.Build manifest !! svc))
       ∧ length svcs ≠ 1 ∧ perUnitFlags options).
Proof.
  unfold validateOptions. rewrite validateServices_eq.
  rewrite <- missingServices_nil.
  destruct svcs as [|svc svcs]; cbn -[missingServices].
  { split_and!; try intros invalid; split; try done; by intros [? _]. }
  destruct (missingServices (Manifest.Build manifest) (svc :: svcs)) as [|x invalid] eqn:Hmiss.
  - pose proof (perUnitFlags_bool options) as Hflags.
    destruct (negb (bool_decide (BuildOptions.Tag options = ""))
              || negb (bool_decide (BuildOptions.Target options = ""))
              || bool_decide (is_Some (BuildOptions.CacheFrom options))
              || bool_decide (is_Some (BuildOptions.Secrets options))) eqn:Hb.
    + assert (perUnitFlags options) by (by apply Hflags).
      destruct svcs; cbn; naive_solver.
    + assert (¬ perUnitFlags options) by (rewrite <- Hflags; congruence).
      rewrite andb_false_r. naive_solver.
  - naive_solver.
Qed.

(** ** The selection and the built-set tests *)

Lemma fold_left_snoc {A} (l acc : list A) :
  fold_left (fun acc x => (acc ++ [x])%list) l acc = (acc ++ l)%list.
Proof.
  revert acc. induction l as [|x l IH]; intros acc; simpl; [by rewrite app_nil_r|].
  by rewrite IH, <- app_assoc.
Qed.

(** X4: with no service named on the command line, getToBuildSvcs is the
    list of the keys of the build section in the order range visits them;
    as range yields only keys of the map, validateServices accepts that
    selection and validateOptions never reports invalid names for it. *)
Theorem getToBuildSvcs_whole_section w manifest options :
  BuildOptions.CommandArgs options = [] →
  (∀ svc, svc ∈ RangeKeys (Manifest.Build manifest) w →
          is_Some (Manifest.Build manifest !! svc)) →
  getToBuildSvcs w manifest options = RangeKeys (Manifest.Build manifest) w
  ∧ validateServices (Manifest.Build manifest) (getToBuildSvcs w manifest options) = None
  ∧ ∀ invalid, validateOptions manifest (getToBuildSvcs w manifest options) options
               ≠ Some (ErrInvalidServiceNames invalid).
Proof.
  intros Hargs Hrange.
  assert (Hsvcs : getToBuildSvcs w manifest options = RangeKeys (Manifest.Build manifest) w).
  { unfold getToBuildSvcs. rewrite Hargs. simpl. apply fold_left_snoc. }
  assert (Hvalid : validateServices (Manifest.Build manifest)
                     (getToBuildSvcs w manifest options) = None).
  { rewrite validateServices_eq, Hsvcs.
    by rewrite (proj2 (missingServices_nil _ _) Hrange). }
  split; [done|]. split; [done|].
  intros invalid. unfold validateOptions. rewrite Hvalid.
  by repeat case_match.
Qed.

Lemma areAllServicesBuilt_app services more control :
  areAllServicesBuilt (services ++ more) control
  = areAllServicesBuilt services control && areAllServicesBuilt more control.
Proof.
  induction services as [|x l IH]; simpl; [done|]. by destruct (control !! x).
Qed.

(** X5: areAllServicesBuilt tests the presence of each name as a key of the
    built-set, not the value stored: it is true exactly when every service
    is a key, stays true when the built-set grows, and distributes over the
    concatenation of two lists. A key that maps to false counts as built for
    areAllServicesBuilt and as not built for skipServiceBuild. *)
Theorem areAllServicesBuilt_spec services control :
  (areAllServicesBuilt services control = true ↔
   ∀ service, service ∈ services → is_Some (control !! service))
  ∧ (∀ control' : gmap string bool,
       control ⊆ control' →
       areAllServicesBuilt services control = true →
       areAllServicesBuilt services control' = true)
  ∧ (∀ more,
       areAllServicesBuilt (services ++ more) control
       = areAllServicesBuilt services control && areAllServicesBuilt more control)
  ∧ ∀ service, control !! service = Some false →
      areAllServicesBuilt [service] control = true
      ∧ skipServiceBuild service control = false.
Proof.
  split; [exact (areAllServicesBuilt_true services control)|]. split; [|split].
  - intros control' Hsub. rewrite !areAllServicesBuilt_true. intros Hall x Hx.
    destruct (Hall x Hx) as [v Hv]. exists v. by eapply lookup_weaken.
  - intros more. apply areAllServicesBuilt_app.
  - intros service Hs. unfold skipServiceBuild. simpl. by rewrite Hs.
Qed.

(** The built-set after an iteration is the one before, or that with the
    unit of the iteration added. *)
Lemma buildLoopBody_control bc options svc ls :
  let ls' := stepState (buildLoopBody bc options svc ls) in
  builtImagesControl ls' = builtImagesControl ls
  ∨ (builtImagesControl ls' = <[svc := true]> (builtImagesControl ls)
     ∧ skipServiceBuild svc (builtImagesControl ls) = false).
Proof.
  destruct (buildLoopBody_spec bc options svc ls)
    as [[-> _]|[[-> _]|(b & Δ & Hskip & _ & _ & _ & _ & Hc & _)]]; [by left..|].
  simpl. rewrite Hc. destruct (stepResult _); [by left | by right].
Qed.

(** An invariant of the states of the loop holds where the loop ends. *)
Lemma buildLoop_state_inv bc options (P : LoopState World → Prop) toBuildSvcs fuel :
  (∀ svc ls, svc ∈ toBuildSvcs → P ls → P (stepState (buildLoopBody bc options svc ls))) →
  ∀ ls, P ls → P (stepState (buildLoop fuel bc options toBuildSvcs ls)).
Proof.
  intros Hbody ls HP.
  pose proof (buildLoop_inv bc options P (λ _, P) toBuildSvcs fuel) as Hloop.
  assert (Hend : match buildLoop fuel bc options toBuildSvcs ls with
                 | Continue ls' => P ls'
                 | Stop _ ls' => P ls'
                 end).
  { apply Hloop; [|done|done]. intros svc ls0 Hin HP0.
    specialize (Hbody svc ls0 Hin HP0). by destruct (buildLoopBody bc options svc ls0). }
  by destruct (buildLoop fuel bc options toBuildSvcs ls).
Qed.

(** X6: the loop of Build only adds to the built-set, and only units of the
    plan, each with the value true: started from a built-set whose values
    are all true, it ends with one whose values are all true, that contains
    the first, and whose new keys are units of the plan. On such a set
    skipServiceBuild and areAllServicesBuilt agree on every unit. *)
Theorem buildLoop_built_set fuel bc options toBuildSvcs ls :
  (∀ x v, builtImagesControl ls !! x = Some v → v = true) →
  let control' := builtImagesControl (stepState (buildLoop fuel bc options toBuildSvcs ls)) in
  (∀ x v, control' !! x = Some v → v = true)
  ∧ builtImagesControl ls ⊆ control'
  ∧ (∀ x, is_Some (control' !! x) → is_Some (builtImagesControl ls !! x) ∨ x ∈ toBuildSvcs)
  ∧ ∀ x, skipServiceBuild x control' = areAllServicesBuilt [x] control'.
Proof.
  intros Htrue control'.
  assert (Hinv : (∀ x v, control' !! x = Some v → v = true)
                 ∧ builtImagesControl ls ⊆ control'
                 ∧ (∀ x, is_Some (control' !! x) →
                         is_Some (builtImagesControl ls !! x) ∨ x ∈ toBuildSvcs)).
  { subst control'.
    apply (buildLoop_state_inv bc options
             (λ ls', (∀ x v, builtImagesControl ls' !! x = Some v → v = true)
                     ∧ builtImagesControl ls ⊆ builtImagesControl ls'
                     ∧ (∀ x, is_Some (builtImagesControl ls' !! x) →
                             is_Some (builtImagesControl ls !! x) ∨ x ∈ toBuildSvcs)));
      [|by (split; [|split; [|left]])].
    intros svc ls0 Hin (Ht & Hsub & Hdom).
    destruct (buildLoopBody_control bc options svc ls0) as [->|[-> Hskip]]; [done|].
    split; [|split].
    - intros x v. destruct (decide (svc = x)) as [->|Hne].
      + rewrite lookup_insert_eq. congruence.
      + rewrite lookup_insert_ne by done. apply Ht.
    - etrans; [exact Hsub|]. apply insert_subseteq_r; [|done].
      unfold skipServiceBuild in Hskip.
      destruct (builtImagesControl ls0 !! svc) as [v|] eqn:Hv; [|done].
      apply Ht in Hv as ->. done.
    - intros x. destruct (decide (svc = x)) as [->|Hne]; [by right|].
      rewrite lookup_insert_ne by done. apply Hdom. }
  destruct Hinv as (Ht & Hsub & Hdom). split; [done|]. split; [done|]. split; [done|].
  intros x. unfold skipServiceBuild. simpl.
  destruct (control' !! x) as [v|] eqn:Hv; [|done]. by apply Ht in Hv as ->.
Qed.

(** ** Each unit once *)

Lemma omap_none (p : Event → option string) (P : Event → Prop) l :
  (∀ e, P e → p e = None) → Forall P l → omap p l = [].
Proof.
  intros Hp. induction 1 as [|e l He _ IH]; simpl; [done|]. by rewrite (Hp e He).
Qed.

Lemma executorEvent_units e :
  executorEvent e →
  startedUnit e = None ∧ lookedUpUnit e = None ∧ builtUnit e = None ∧ exportedUnit e = None.
Proof. by destruct e. Qed.

Lemma frameEvent_units e :
  frameEvent e →
  startedUnit e = None ∧ lookedUpUnit e = None ∧ builtUnit e = None ∧ exportedUnit e = None.
Proof. by destruct e. Qed.

Lemma stepUnits_cases (P : (Event → option string) → Prop) :
  P lookedUpUnit → P builtUnit → P exportedUnit → ∀ p, p ∈ stepUnits → P p.
Proof.
  intros H1 H2 H3 p Hp. unfold stepUnits in Hp.
  repeat (apply elem_of_cons in Hp as [->|Hp]; [done|]). by apply elem_of_nil in Hp.
Qed.

Lemma FreshShape_units svc res Δ :
  FreshShape svc res Δ →
  omap startedUnit Δ = [] ∧ omap lookedUpUnit Δ = []
  ∧ ∀ p, p ∈ stepUnits → omap p Δ = [] ∨ omap p Δ = [svc].
Proof.
  intros [|Δx err HΔ|Δx HΔ|Δx image HΔ].
  - split; [done|]. split; [done|]. intros p _. by left.
  - assert (∀ p, p ∈ startedUnit :: stepUnits → omap p Δx = []) as Hx.
    { intros p Hp. apply (omap_none p executorEvent); [|done].
      intros e He. destruct (executorEvent_units e He) as (?&?&?&?).
      apply elem_of_cons in Hp as [->|Hp]; [done|]. revert p Hp. by apply stepUnits_cases. }
    split; [|split].
    + simpl. rewrite omap_app, (Hx startedUnit); [done | by left].
    + simpl. rewrite omap_app, (Hx lookedUpUnit); [done | right; by left].
    + apply stepUnits_cases; simpl; rewrite omap_app, Hx; simpl; auto;
        unfold stepUnits; set_solver.
  - assert (∀ p, p ∈ startedUnit :: stepUnits → omap p Δx = []) as Hx.
    { intros p Hp. apply (omap_none p executorEvent); [|done].
      intros e He. destruct (executorEvent_units e He) as (?&?&?&?).
      apply elem_of_cons in Hp as [->|Hp]; [done|]. revert p Hp. by apply stepUnits_cases. }
    split; [|split].
    + rewrite omap_app, (Hx startedUnit); [done | by left].
    + rewrite omap_app, (Hx lookedUpUnit); [done | right; by left].
    + apply stepUnits_cases; rewrite omap_app, Hx; simpl; auto;
        unfold stepUnits; set_solver.
  - assert (∀ p, p ∈ startedUnit :: stepUnits → omap p Δx = []) as Hx.
    { intros p Hp. apply (omap_none p executorEvent); [|done].
      intros e He. destruct (executorEvent_units e He) as (?&?&?&?).
      apply elem_of_cons in Hp as [->|Hp]; [done|]. revert p Hp. by apply stepUnits_cases. }
    split; [|split].
    + simpl. rewrite omap_app, (Hx startedUnit); [done | by left].
    + simpl. rewrite omap_app, (Hx lookedUpUnit); [done | right; by left].
    + apply stepUnits_cases; simpl; rewrite omap_app, Hx; simpl; auto;
        unfold stepUnits; set_solver.
Qed.

Lemma AttemptShape_units svc cache res Δ :
  AttemptShape svc cache res Δ →
  omap startedUnit Δ = []
  ∧ ∀ p, p ∈ stepUnits → omap p Δ = [] ∨ omap p Δ = [svc].
Proof.
  intros [res' Δ' _ HΔ|res' Δ' h _ HΔ|h image _|h image devImage _|h image out _ _].
  - apply FreshShape_units in HΔ as (? & _ & ?). done.
  - apply FreshShape_units in HΔ as (Hs & Hl & Hp). split.
    + by rewrite omap_app, Hs.
    + apply stepUnits_cases.
      * rewrite omap_app, Hl. simpl. by right.
      * rewrite omap_app, app_nil_r. apply Hp. unfold stepUnits. set_solver.
      * rewrite omap_app, app_nil_r. apply Hp. unfold stepUnits. set_solver.
  - split; [done|]. apply stepUnits_cases; simpl; auto.
  - split; [done|]. apply stepUnits_cases; simpl; auto.
  - split; [done|]. apply stepUnits_cases; simpl; auto.
Qed.

Lemma OnceInv_post ls : OnceInv ls → OncePost ls.
Proof. by intros (? & _ & ?). Qed.

Lemma buildLoopBody_once bc options svc ls :
  OnceInv ls →
  match buildLoopBody bc options svc ls with
  | Continue ls' => OnceInv ls'
  | Stop _ ls' => OncePost ls'
  end.
Proof.
  intros Hinv.
  destruct (buildLoopBody_spec bc options svc ls)
    as [[-> _]|[[-> _]|(b & Δ & Hskip & _ & _ & Hshape & Ht & Hc & _)]];
    [done | by apply OnceInv_post |].
  destruct Hinv as (Hnodup & Hbuilt & Hsteps).
  apply AttemptShape_units in Hshape as [HΔs HΔp].
  assert (Hfresh : svc ∉ omap startedUnit (trace (st ls))).
  { intros Hin. apply Hbuilt in Hin. unfold skipServiceBuild in Hskip. by rewrite Hin in Hskip. }
  assert (Hstarts : omap startedUnit (Δ ++ EvAttempt svc :: trace (st ls))%list
                    = svc :: omap startedUnit (trace (st ls))).
  { by rewrite omap_app, HΔs. }
  assert (Hpost : OncePost (stepState (buildLoopBody bc options svc ls))).
  { split.
    - rewrite Ht, Hstarts. by apply NoDup_cons.
    - intros p Hp. rewrite Ht, Hstarts, omap_app.
      destruct (Hsteps p Hp) as [Hnd Hsub].
      assert (omap p (EvAttempt svc :: trace (st ls)) = omap p (trace (st ls))) as ->.
      { clear Hnd Hsub. revert p Hp. by apply stepUnits_cases. }
      destruct (HΔp p Hp) as [->| ->]; simpl.
      + split; [done|]. intros x Hx. right. by apply Hsub.
      + split.
        * apply NoDup_cons. split; [|done]. intros Hx. by apply Hfresh, Hsub.
        * intros x [->|Hx]%elem_of_cons; [by left | right; by apply Hsub]. }
  destruct (buildLoopBody bc options svc ls) as [ls'|out ls']; simpl in *; [|done].
  destruct Hpost as [Hnd' Hsteps']. split; [done|]. split; [|done].
  intros x. rewrite Ht, Hstarts, Hc. intros [->|Hx]%elem_of_cons.
  - by rewrite lookup_insert_eq.
  - destruct (decide (svc = x)) as [->|Hne]; [by rewrite lookup_insert_eq|].
    rewrite lookup_insert_ne by done. by apply Hbuilt.
Qed.

Lemma OncePost_frame post ls tr :
  Forall frameEvent post → OncePost ls → tr = (post ++ trace (st ls))%list →
  NoDup (omap startedUnit tr) ∧ ∀ p, p ∈ stepUnits → NoDup (omap p tr).
Proof.
  intros Hpost [Hnd Hsteps] ->.
  assert (∀ p, p ∈ startedUnit :: stepUnits → omap p post = []) as Hx.
  { intros p Hp. apply (omap_none p frameEvent); [|done].
    intros e He. destruct (frameEvent_units e He) as (?&?&?&?).
    apply elem_of_cons in Hp as [->|Hp]; [done|]. revert p Hp. by apply stepUnits_cases. }
  split.
  - rewrite omap_app, (Hx startedUnit); [done | by left].
  - intros p Hp. rewrite omap_app, (Hx p); [|by right]. by apply Hsteps.
Qed.

Lemma OnceInv_frame ls : Forall frameEvent (trace (st ls)) → OnceInv ls.
Proof.
  intros Hframe.
  assert (∀ p, p ∈ startedUnit :: stepUnits → omap p (trace (st ls)) = []) as Hx.
  { intros p Hp. apply (omap_none p frameEvent); [|done].
    intros e He. destruct (frameEvent_units e He) as (?&?&?&?).
    apply elem_of_cons in Hp as [->|Hp]; [done|]. revert p Hp. by apply stepUnits_cases. }
  split; [rewrite Hx; [constructor | by left]|]. split.
  - rewrite Hx; [|by left]. intros x Hin. by apply elem_of_nil in Hin.
  - intros p Hp. rewrite Hx; [|by right]. split; [constructor|].
    intros x Hin. by apply elem_of_nil in Hin.
Qed.

(** X7: in a run of Build no unit is started twice, and for no unit is the
    registry lookup, the call of buildServiceImages or the export of its
    variables made twice, however many rounds the loop takes. *)
Theorem Build_each_unit_once fuel bc options s :
  trace s = [] →
  let tr := Build_trace fuel bc options s in
  NoDup (omap startedUnit tr) ∧ NoDup (omap lookedUpUnit tr)
  ∧ NoDup (omap builtUnit tr) ∧ NoDup (omap exportedUnit tr).
Proof.
  intros Hs tr.
  assert (Hall : NoDup (omap startedUnit tr) ∧ ∀ p, p ∈ stepUnits → NoDup (omap p tr)).
  { subst tr.
    destruct (Build_spec fuel bc options s)
      as [(pre & Ht & Hpre)|(options1 & s1 & pre & post & _ & _ & _ & Hs1 & Hpre & Hpost & Ht & _)].
    - apply (OncePost_frame pre (mkLoop s ∅ [])); [done| |done].
      apply OnceInv_post, OnceInv_frame. simpl. rewrite Hs. constructor.
    - simpl in Ht. eapply OncePost_frame; [exact Hpost| |exact Ht].
      rewrite Hs, app_nil_r in Hs1.
      assert (Hinit : OnceInv (mkLoop s1 ∅ [])).
      { apply OnceInv_frame. simpl. by rewrite Hs1. }
      pose proof (buildLoop_inv bc options1 OnceInv (λ _, OncePost)
                    (getToBuildSvcs (world s1) (manifest s1) options1) fuel
                    (λ svc ls _, buildLoopBody_once bc options1 svc ls)
                    OnceInv_post _ Hinit) as Hend.
      destruct (buildLoop _ _ _ _ _); [by apply OnceInv_post | done]. }
  destruct Hall as [Hstart Hsteps]. split; [done|].
  unfold stepUnits in Hsteps. split_and!; apply Hsteps; set_solver.
Qed.

(** ** The frame of [Build] *)

Lemma prepareOptions_trace options s r s' :
  prepareOptions options s = (r, s') →
  trace s' = trace s ∨ ∃ workdir, trace s' = EvChdir workdir :: trace s.
Proof.
  unfold prepareOptions. monad_unfold. intros H.
  repeat (break_match; monad_unfold; simplify_eq/=); eauto.
Qed.

(** The ways out of [Build], with the events of each. *)
Lemma Build_cases fuel bc options s :
  (¬ entersLoop options s
   ∧ (Build_trace fuel bc options s = trace s
      ∨ ∃ workdir, Build_trace fuel bc options s = EvChdir workdir :: trace s))
  ∨ ∃ options1 s1,
      LoadBoolean OktetoDeployRemote (world s) = false
      ∧ prepareOptions options s = (Ok options1, s1)
      ∧ validateOptions (manifest s1)
          (getToBuildSvcs (world s1) (manifest s1) options1) options1 = None
      ∧ match buildLoop fuel bc options1
                (getToBuildSvcs (world s1) (manifest s1) options1) (mkLoop s1 ∅ []) with
        | Continue ls =>
            Build_outcome fuel bc options s
            = Returned (ExpandEnvVars (manifest (st ls)) (world (st ls))).1
            ∧ Build_trace fuel bc options s
              = EvTrackImageBuild (rev (buildsAnalytics ls)) :: EvExpandEnvVars
                  :: trace (st ls)
        | Stop OutOfFuel ls =>
            Build_outcome fuel bc options s = OutOfFuel
            ∧ Build_trace fuel bc options s = trace (st ls)
        | Stop out ls =>
            Build_outcome fuel bc options s = out
            ∧ Build_trace fuel bc options s
              = EvTrackImageBuild (rev (buildsAnalytics ls)) :: trace (st ls)
        end.
Proof.
  unfold Build_trace, Build_outcome, Build, entersLoop.
  destruct (LoadBoolean _ _) eqn:Hremote.
  { left. split; [by intros [? _] | by left]. }
  destruct (prepareOptions options s) as [r s1] eqn:Hprep.
  pose proof (prepareOptions_trace _ _ _ _ Hprep) as Htrace.
  destruct r as [options1| |];
    [|left; (split; [by intros (_ & ? & ? & ? & _) | done])..].
  destruct (validateOptions _ _ _) as [err|] eqn:Hvalid.
  { left. split.
    - intros (_ & ? & ? & [= <- <-] & Hv). by rewrite Hv in Hvalid.
    - by destruct (isNoServicesToBuildDefined err). }
  right. exists options1, s1. do 3 (split; [done|]).
  destruct (buildLoop _ _ _ _ _) as [ls|out ls]; simpl.
  - by destruct (ExpandEnvVars _ _).
  - by destruct out.
Qed.

(** The loop is left by an error, a panic or the end of the fuel, never by a
    return of nil from inside an iteration. *)
Lemma buildFresh_stop bc options svc b ls out ls' :
  buildFresh bc options svc b ls = Stop out ls' → out ≠ Returned None ∧ out ≠ OutOfFuel.
Proof.
  unfold buildFresh. intros H.
  repeat (break_match; simplify_eq/=); done.
Qed.

Lemma buildLoopBody_stop bc options svc ls out ls' :
  buildLoopBody bc options svc ls = Stop out ls' → out ≠ Returned None ∧ out ≠ OutOfFuel.
Proof.
  unfold buildLoopBody. intros H.
  repeat (break_match; simplify_eq/=); try done;
    by eapply buildFresh_stop.
Qed.

Lemma buildLoop_stop fuel bc options toBuildSvcs ls out ls' :
  buildLoop fuel bc options toBuildSvcs ls = Stop out ls' → out ≠ Returned None.
Proof.
  intros Hloop.
  pose proof (buildLoop_inv bc options (λ _, True) (λ out _, out ≠ Returned None)
                toBuildSvcs fuel) as Hinv.
  specialize (Hinv (λ svc ls0 _ _,
    match buildLoopBody bc options svc ls0 as step
      return buildLoopBody bc options svc ls0 = step → match step with
                                                      | Continue _ => True
                                                      | Stop out _ => out ≠ Returned None
                                                      end
    with
    | Continue _ => λ _, I
    | Stop out1 ls1 => λ Heq, proj1 (buildLoopBody_stop _ _ _ _ _ _ Heq)
    end eq_refl) (λ _ _, ltac:(done)) ls I).
  by rewrite Hloop in Hinv.
Qed.

Lemma buildLoop_continue fuel bc options toBuildSvcs ls ls' :
  buildLoop fuel bc options toBuildSvcs ls = Continue ls' →
  size (builtImagesControl ls') = length toBuildSvcs.
Proof.
  revert ls. induction fuel as [|fuel IH]; intros ls; simpl.
  - destruct (Nat.eqb_spec (size (builtImagesControl ls)) (length toBuildSvcs)); [|done].
    by intros [= <-].
  - destruct (Nat.eqb_spec (size (builtImagesControl ls)) (length toBuildSvcs)).
    { by intros [= <-]. }
    destruct (buildRound bc options toBuildSvcs ls); [apply IH | done].
Qed.

(** ** What a run leaves in the trace *)

Lemma size_list_to_set_le (l : list string) :
  (size (list_to_set l : gset string) ≤ length l)%nat.
Proof.
  induction l as [|x l IH]; [by rewrite list_to_set_nil, size_empty|].
  rewrite list_to_set_cons, size_union_alt, size_singleton. cbn [length].
  pose proof (subseteq_size (list_to_set l ∖ {[x]}) (list_to_set l : gset string)
                ltac:(set_solver)).
  lia.
Qed.

Lemma size_list_to_set_NoDup (l : list string) :
  (length l ≤ size (list_to_set l : gset string))%nat → NoDup l.
Proof.
  induction l as [|x l IH]; [constructor|].
  rewrite list_to_set_cons. cbn [length]. intros Hlen.
  pose proof (size_list_to_set_le l) as Hle.
  destruct (decide (x ∈ l)) as [Hin|Hnotin].
  - assert ({[x]} ∪ list_to_set l = (list_to_set l : gset string)) as Heq by set_solver.
    rewrite Heq in Hlen. lia.
  - apply NoDup_cons. split; [done|]. apply IH.
    rewrite size_union, size_singleton in Hlen by set_solver. lia.
Qed.

(** A built-set of units of the plan that is as large as the plan holds
    every unit, and the plan repeats none. *)
Lemma control_full (control : gmap string bool) (toBuildSvcs : list string) :
  (∀ x, is_Some (control !! x) → x ∈ toBuildSvcs) →
  size control = length toBuildSvcs →
  NoDup toBuildSvcs ∧ ∀ x, x ∈ toBuildSvcs → is_Some (control !! x).
Proof.
  intros Hdom Hsize.
  assert (Hsub : dom control ⊆ (list_to_set toBuildSvcs : gset string)).
  { intros x Hx. apply elem_of_list_to_set, Hdom. by apply elem_of_dom. }
  pose proof (size_list_to_set_le toBuildSvcs) as Hle.
  pose proof (subseteq_size _ _ Hsub) as Hle'.
  rewrite size_dom in Hle'.
  split; [apply size_list_to_set_NoDup; lia|].
  intros x Hx. apply elem_of_dom.
  rewrite (set_subseteq_size_eq _ _ Hsub).
  - by apply elem_of_list_to_set.
  - rewrite size_dom. lia.
Qed.

Lemma AttemptShape_exports svc cache Δ :
  AttemptShape svc cache None Δ →
  EvBuilt svc ∈ Δ ∧ ∃ image, EvSetServiceEnvVars svc image ∈ Δ.
Proof.
  intros Hshape. remember None as res eqn:Hres.
  destruct Hshape as [res' Δ' _ HΔ|res' Δ' h _ HΔ|h image _|h image devImage _|h image out _ _];
    try destruct HΔ as [|Δx err HΔ|Δx HΔ|Δx image HΔ]; try done;
    (split; [set_solver|]); eexists; simpl;
    first [apply list_elem_of_here
          | apply list_elem_of_further, list_elem_of_here].
Qed.

Lemma buildLoopBody_exports bc options toBuildSvcs svc ls :
  svc ∈ toBuildSvcs → ExportInv toBuildSvcs ls →
  ExportInv toBuildSvcs (stepState (buildLoopBody bc options svc ls)).
Proof.
  intros Hin Hinv.
  destruct (buildLoopBody_spec bc options svc ls)
    as [[-> _]|[[-> _]|(b & Δ & _ & _ & _ & Hshape & Ht & Hc & _)]]; [done..|].
  intros x. rewrite Ht, Hc.
  destruct (stepResult (buildLoopBody bc options svc ls)) as [out|]; simpl.
  - intros Hx. destruct (Hinv x Hx) as (? & ? & image & ?).
    split; [done|]. split; [set_solver|]. exists image. set_solver.
  - destruct (decide (svc = x)) as [->|Hne].
    + intros _. apply AttemptShape_exports in Hshape as [? [image ?]].
      split; [done|]. split; [set_solver|]. exists image. set_solver.
    + rewrite lookup_insert_ne by done.
      intros Hx. destruct (Hinv x Hx) as (? & ? & image & ?).
      split; [done|]. split; [set_solver|]. exists image. set_solver.
Qed.

(** X8: when Build reaches its loop and returns nil, the plan names no unit
    twice, every unit of the plan was entered in the built-set and had its
    variables exported, and ExpandEnvVars was called. *)
Theorem Build_nil_builds_whole_plan fuel bc options s :
  entersLoop options s →
  Build_outcome fuel bc options s = Returned None →
  let tr := Build_trace fuel bc options s in
  NoDup (planOf options s)
  ∧ EvExpandEnvVars ∈ tr
  ∧ ∀ svc, svc ∈ planOf options s →
      EvBuilt svc ∈ tr ∧ ∃ image, EvSetServiceEnvVars svc image ∈ tr.
Proof.
  intros Henter Hout tr. subst tr.
  destruct (Build_cases fuel bc options s)
    as [[Hnot _]|(options1 & s1 & _ & Hprep & _ & Hloop)]; [done|].
  unfold planOf. rewrite Hprep.
  set (toBuildSvcs := getToBuildSvcs (world s1) (manifest s1) options1) in *.
  pose proof (buildLoop_state_inv bc options1 (ExportInv toBuildSvcs) toBuildSvcs fuel
                (buildLoopBody_exports bc options1 toBuildSvcs) (mkLoop s1 ∅ [])) as Hexp.
  destruct (buildLoop fuel bc options1 toBuildSvcs (mkLoop s1 ∅ [])) as [ls|out ls] eqn:Hrun.
  - destruct Hloop as [_ ->]. simpl in Hexp.
    assert (Hinv : ExportInv toBuildSvcs ls).
    { apply Hexp. intros x [v Hv]. simpl in Hv. by rewrite lookup_empty in Hv. }
    apply buildLoop_continue in Hrun.
    destruct (control_full (builtImagesControl ls) toBuildSvcs) as [Hnodup Hall];
      [intros x Hx; by apply Hinv | done |].
    split; [done|]. split; [set_solver|].
    intros svc Hsvc. destruct (Hinv svc (Hall svc Hsvc)) as (_ & ? & image & ?).
    split; [set_solver|]. exists image. set_solver.
  - apply buildLoop_stop in Hrun.
    destruct out as [err| |]; destruct Hloop as [Hres _]; congruence.
Qed.

(** ** The first failure ends the run *)





(** The loop adds no event of the frame. *)
Lemma executorEvent_not_frame Δ :
  Forall executorEvent Δ → Forall (λ e, ¬ frameEvent e) Δ.
Proof. intros H. eapply Forall_impl; [exact H|]. intros []; simpl; tauto. Qed.

Lemma FreshShape_not_frame svc res Δ :
  FreshShape svc res Δ → Forall (λ e, ¬ frameEvent e) Δ.
Proof.
  intros [|Δx err HΔ|Δx HΔ|Δx image HΔ];
    try apply executorEvent_not_frame in HΔ;
    repeat first [apply Forall_nil_2 | apply Forall_cons_2; [simpl; tauto|]
                 | apply Forall_app_2 | assumption].
Qed.

Lemma AttemptShape_not_frame svc cache res Δ :
  AttemptShape svc cache res Δ → Forall (λ e, ¬ frameEvent e) Δ.
Proof.
  intros [res' Δ' _ HΔ|res' Δ' h _ HΔ|h image _|h image devImage _|h image out _ _];
    try apply FreshShape_not_frame in HΔ;
    repeat first [apply Forall_nil_2 | apply Forall_cons_2; [simpl; tauto|]
                 | apply Forall_app_2 | assumption].
Qed.

Lemma buildLoop_not_frame fuel bc options toBuildSvcs ls :
  ∃ Δ, trace (st (stepState (buildLoop fuel bc options toBuildSvcs ls)))
       = (Δ ++ trace (st ls))%list
       ∧ Forall (λ e, ¬ frameEvent e) Δ.
Proof.
  apply (buildLoop_state_inv bc options
           (λ ls', ∃ Δ, trace (st ls') = (Δ ++ trace (st ls))%list
                        ∧ Forall (λ e, ¬ frameEvent e) Δ)); [|by exists []].
  intros svc ls0 _ (Δ0 & Ht0 & HΔ0).
  destruct (buildLoopBody_spec bc options svc ls0)
    as [[-> _]|[[-> _]|(b & Δ & _ & _ & _ & Hshape & Ht & _)]]; [by exists Δ0..|].
  apply AttemptShape_not_frame in Hshape.
  exists (Δ ++ EvAttempt svc :: Δ0)%list. split.
  - by rewrite Ht, Ht0, <- app_assoc.
  - apply Forall_app_2; [done|]. apply Forall_cons_2; [simpl; tauto|done].
Qed.


(** ** The deferred call of the analytics tracker *)

(** X10: the deferred call of the analytics tracker is made at most once,
    as the last effect of Build, and it is made exactly when Build reached
    its loop and returns (with nil, an error or a panic); a run that returns
    before the loop tracks nothing. *)
Theorem Build_tracks_once fuel bc options s :
  trace s = [] →
  let tr := Build_trace fuel bc options s in
  (∀ metas, EvTrackImageBuild metas ∈ tr →
     ∃ rest, tr = EvTrackImageBuild metas :: rest ∧ noTracking rest)
  ∧ ((∃ metas, EvTrackImageBuild metas ∈ tr) ↔
     entersLoop options s ∧ Build_outcome fuel bc options s ≠ OutOfFuel).
Proof.
  intros Hs tr. subst tr.
  destruct (Build_cases fuel bc options s)
    as [[Hnot Ht]|(options1 & s1 & Hremote & Hprep & Hvalid & Hloop)].
  { rewrite Hs in Ht. split.
    - intros metas Hin. destruct Ht as [Ht|[workdir Ht]]; rewrite Ht in Hin; set_solver.
    - split; [|by intros [? _]].
      intros [metas Hin]. destruct Ht as [Ht|[workdir Ht]]; rewrite Ht in Hin; set_solver. }
  assert (Henter : entersLoop options s) by (split; eauto).
  destruct (buildLoop_not_frame fuel bc options1
              (getToBuildSvcs (world s1) (manifest s1) options1) (mkLoop s1 ∅ []))
    as (Δ & HΔ & Hframe).
  simpl in HΔ.
  assert (Hno : noTracking (trace (st (stepState (buildLoop fuel bc options1
                  (getToBuildSvcs (world s1) (manifest s1) options1) (mkLoop s1 ∅ [])))))).
  { rewrite HΔ. intros metas [Hx|Hx]%elem_of_app.
    - by apply (proj1 (Forall_forall _ _) Hframe) in Hx.
    - apply prepareOptions_trace in Hprep. rewrite Hs in Hprep.
      destruct Hprep as [Ht|[workdir Ht]]; rewrite Ht in Hx; set_solver. }
  unfold noTracking in Hno.
  destruct (buildLoop _ _ _ _ _) as [ls|out ls]; simpl in Hno.
  - destruct Hloop as [-> ->]. split.
    + intros metas [[= <-]|[[=]|Hin]%elem_of_cons]%elem_of_cons; [|by apply Hno in Hin].
      eexists. split; [done|]. intros metas'. set_solver.
    + split; [done|]. intros _. eexists. by left.
  - destruct out as [e| |]; destruct Hloop as [-> ->].
    + split.
      * intros metas [[= <-]|Hin]%elem_of_cons; [|by apply Hno in Hin]. by eexists.
      * split; [done|]. intros _. eexists. by left.
    + split.
      * intros metas [[= <-]|Hin]%elem_of_cons; [|by apply Hno in Hin]. by eexists.
      * split; [done|]. intros _. eexists. by left.
    + split.
      * intros metas Hin. by apply Hno in Hin.
      * split; [intros [metas Hin]; by apply Hno in Hin | by intros [_ ?]].
Qed.

(** ** The records handed to the analytics tracker *)

Lemma elem_of_startedUnit x (l : list Event) :
  x ∈ omap startedUnit l ↔ EvAttempt x ∈ l.
Proof.
  rewrite list_elem_of_omap. split.
  - intros (e & He & Hx). destruct e; simplify_eq/=. done.
  - intros Hx. by exists (EvAttempt x).
Qed.

Lemma buildFresh_analytics bc options svc b ls :
  let step := buildFresh bc options svc b ls in
  buildsAnalytics (stepState step)
  = match stepResult step, buildsAnalytics ls with
    | None, meta :: rest => ImageBuildMetadata.withSuccess true meta :: rest
    | _, metas => metas
    end.
Proof.
  unfold buildFresh.
  repeat (break_match; simplify_eq/=); try done.
Qed.

(** The record of an iteration that starts a unit. *)
Lemma buildLoopBody_analytics bc options svc ls b :
  skipServiceBuild svc (builtImagesControl ls) = false →
  Manifest.Build (manifest (st ls)) !! svc = Some b →
  areAllServicesBuilt (BuildInfo.DependsOn b) (builtImagesControl ls) = true →
  let step := buildLoopBody bc options svc ls in
  let w := world (st ls) in
  let hit :=
    cacheEnabled bc options
    && (checkIfBuildHashIsBuilt (getImageChecker b bc) (Manifest.Name (manifest (st ls)))
          svc (hashService b w) w).1.2 in
  buildsAnalytics (stepState step)
  = ImageBuildMetadata.mk svc (Config.GetAnonymizedRepo bc) (hashProjectCommit b w)
      (hashBuildContext b w) hit
      (match stepResult step with None => true | Some _ => false end)
    :: buildsAnalytics ls
  ∧ (hit = true →
     ∃ Δ, trace (st (stepState step)) = (Δ ++ EvAttempt svc :: trace (st ls))%list
          ∧ ∀ x, EvBuildServiceImages x ∉ Δ).
Proof.
  intros Hskip Hb Hall. unfold buildLoopBody. rewrite Hskip, Hb, Hall. simpl.
  destruct (cacheEnabled bc options) eqn:Hcache; simpl.
  - destruct (checkIfBuildHashIsBuilt _ _ _ _ _) as [[imageWithDigest isBuilt] w'] eqn:Hcheck.
    simpl. destruct isBuilt.
    + destruct (IsGlobalRegistry imageWithDigest w').
      * destruct (CloneGlobalImageToDev _ _ _) as [[devImage|err|] w'']; simpl;
          (split; [done|]); intros _.
        -- exists [EvBuilt svc; EvSetServiceEnvVars svc devImage;
                   EvClone imageWithDigest (hashService b (world (st ls)));
                   EvCheckBuilt svc (hashService b (world (st ls)))].
           split; [done|]. set_solver.
        -- exists [EvClone imageWithDigest (hashService b (world (st ls)));
                   EvCheckBuilt svc (hashService b (world (st ls)))].
           split; [done|]. set_solver.
        -- exists [EvClone imageWithDigest (hashService b (world (st ls)));
                   EvCheckBuilt svc (hashService b (world (st ls)))].
           split; [done|]. set_solver.
      * simpl. split; [done|]. intros _.
        exists [EvBuilt svc; EvSetServiceEnvVars svc imageWithDigest;
                EvCheckBuilt svc (hashService b (world (st ls)))].
        split; [done|]. set_solver.
    + split; [|done]. rewrite buildFresh_analytics. simpl.
      by destruct (stepResult _).
  - split; [|done]. rewrite buildFresh_analytics. simpl.
    by destruct (stepResult _).
Qed.

Lemma AttemptShape_units_of svc cache res Δ :
  AttemptShape svc cache res Δ →
  ∀ x, EvBuildServiceImages x ∈ Δ → x = svc.
Proof.
  intros [res' Δ' _ HΔ|res' Δ' h _ HΔ|h image _|h image devImage _|h image out _ _];
    try (destruct HΔ as [|Δx err HΔ|Δx HΔ|Δx image HΔ];
         try (pose proof (λ e, executorEvent_elem e _ HΔ) as Hexec; clear HΔ));
    intros x; set_solver.
Qed.

Lemma buildLoopBody_tracks bc options svc ls :
  AnalyticsInv bc ls →
  match buildLoopBody bc options svc ls with
  | Continue ls' => AnalyticsInv bc ls'
  | Stop _ ls' => AnalyticsPost bc ls'
  end.
Proof.
  intros Hinv.
  destruct (buildLoopBody_spec bc options svc ls)
    as [[-> _]|[[-> _]|(b & Δ & Hskip & Hb & Hall & Hshape & Ht & Hc & _)]];
    [done | by destruct Hinv |].
  destruct (buildLoopBody_analytics bc options svc ls b Hskip Hb Hall) as [Hmeta Hhit].
  destruct Hinv as ((Hnames & Hagree) & Hstarted & Hbuilt & Hcalled).
  pose proof (AttemptShape_units_of _ _ _ _ Hshape) as Hunit.
  apply AttemptShape_facts in Hshape as (F1 & F2 & F3 & F4).
  assert (Hfresh : EvAttempt svc ∉ trace (st ls)).
  { intros Hin. apply Hstarted in Hin. unfold skipServiceBuild in Hskip.
    by rewrite Hin in Hskip. }
  assert (Hpost : AnalyticsPost bc (stepState (buildLoopBody bc options svc ls))).
  { split.
    - rewrite Hmeta, Ht, omap_app, fmap_cons, Hnames.
      assert (omap startedUnit Δ = []) as ->; [|done].
      destruct (omap startedUnit Δ) as [|x l] eqn:HΔ; [done|].
      assert (x ∈ omap startedUnit Δ) as Hx by (rewrite HΔ; by left).
      apply elem_of_startedUnit in Hx. by apply F1 in Hx.
    - rewrite Hmeta, Ht. apply Forall_cons_2.
      + split; [done|]. simpl. split.
        * specialize (F2 svc). specialize (Hbuilt svc).
          destruct (stepResult (buildLoopBody bc options svc ls)); set_solver.
        * intros Hcache. apply andb_true_iff in Hcache as Hgate. destruct Hgate as [Hgate _].
          split; [specialize (F4 svc); set_solver|].
          destruct (Hhit Hcache) as (Δ' & Ht' & HΔ').
          rewrite Ht in Ht'. apply app_inv_tail in Ht' as <-.
          specialize (HΔ' svc). specialize (Hcalled svc). set_solver.
      + apply Forall_forall. intros m Hm.
        destruct (proj1 (Forall_forall _ _) Hagree m Hm) as (Hurl & Hsuccess & Hcache).
        assert (Hname : EvAttempt (ImageBuildMetadata.Name m) ∈ trace (st ls)).
        { apply elem_of_startedUnit. rewrite <- Hnames. by apply list_elem_of_fmap_2. }
        assert (Hne : ImageBuildMetadata.Name m ≠ svc).
        { intros Heq. by rewrite Heq in Hname. }
        split; [done|]. split.
        * rewrite Hsuccess. specialize (F2 (ImageBuildMetadata.Name m)). set_solver.
        * intros Hhit'. destruct (Hcache Hhit') as [[h Hh] Hnot].
          split; [exists h; set_solver|].
          specialize (Hunit (ImageBuildMetadata.Name m)). set_solver. }
  destruct (buildLoopBody bc options svc ls) as [ls'|out ls']; simpl in *; [|done].
  split; [done|]. rewrite Ht, Hc. split; [|split].
  - intros x. destruct (decide (svc = x)) as [->|Hne]; [by rewrite lookup_insert_eq|].
    rewrite lookup_insert_ne by done. specialize (F1 x). specialize (Hstarted x). set_solver.
  - intros x. specialize (F2 x). specialize (Hbuilt x). set_solver.
  - intros x. specialize (Hunit x). specialize (Hcalled x). set_solver.
Qed.

Lemma fmap_rev {A B} (f : A → B) (l : list A) : f <$> rev l = rev (f <$> l).
Proof.
  induction l as [|x l IH]; [done|].
  rewrite fmap_cons. cbn [rev]. by rewrite fmap_app, IH.
Qed.

Lemma elem_of_rev {A} (x : A) (l : list A) : x ∈ rev l ↔ x ∈ l.
Proof. rewrite !list_elem_of_In. symmetry. apply in_rev. Qed.

Lemma AnalyticsPost_frame bc ls pre metas tr :
  AnalyticsPost bc ls → Forall frameEvent pre →
  tr = (pre ++ trace (st ls))%list →
  metas = rev (buildsAnalytics ls) →
  ImageBuildMetadata.Name <$> metas = rev (omap startedUnit tr)
  ∧ ∀ m, m ∈ metas → metaAgrees bc tr m.
Proof.
  intros [Hnames Hagree] Hpre -> ->.
  pose proof (λ e, frameEvent_elem e _ Hpre) as Hframe.
  split.
  - rewrite fmap_rev, Hnames, omap_app.
    rewrite (omap_none startedUnit frameEvent pre); [done| |done].
    intros e He. by destruct (frameEvent_units e He).
  - intros m Hm. apply (proj1 (elem_of_rev _ _)) in Hm.
    destruct (proj1 (Forall_forall _ _) Hagree m Hm) as (Hurl & Hsuccess & Hcache).
    split; [done|]. split.
    + rewrite Hsuccess. specialize (Hframe (EvBuilt (ImageBuildMetadata.Name m))). set_solver.
    + intros Hhit. destruct (Hcache Hhit) as [[h Hh] Hnot].
      split; [exists h; set_solver|].
      specialize (Hframe (EvBuildServiceImages (ImageBuildMetadata.Name m))). set_solver.
Qed.

(** X11: the records handed to the analytics tracker are those of the units
    started in the run, one each, in the order the units were started. Each
    carries the anonymized repository of the configuration; its Success flag
    is set exactly when the unit was entered in the built-set; and a record
    flagged CacheHit belongs to a unit that was looked up in the registry
    and for which buildServiceImages was not called. *)
Theorem Build_tracked_records fuel bc options s metas :
  trace s = [] →
  let tr := Build_trace fuel bc options s in
  EvTrackImageBuild metas ∈ tr →
  ImageBuildMetadata.Name <$> metas = rev (omap startedUnit tr)
  ∧ ∀ m, m ∈ metas →
      ImageBuildMetadata.RepoURL m = Config.GetAnonymizedRepo bc
      ∧ (ImageBuildMetadata.Success m = true ↔ EvBuilt (ImageBuildMetadata.Name m) ∈ tr)
      ∧ (ImageBuildMetadata.CacheHit m = true →
         (∃ h, EvCheckBuilt (ImageBuildMetadata.Name m) h ∈ tr)
         ∧ EvBuildServiceImages (ImageBuildMetadata.Name m) ∉ tr).
Proof.
  intros Hs tr Hin. subst tr.
  destruct (Build_cases fuel bc options s)
    as [[_ Ht]|(options1 & s1 & _ & Hprep & _ & Hloop)].
  { rewrite Hs in Ht. destruct Ht as [Ht|[workdir Ht]]; rewrite Ht in Hin; set_solver. }
  apply prepareOptions_trace in Hprep. rewrite Hs in Hprep.
  assert (Hinit : AnalyticsInv bc (mkLoop s1 ∅ [])).
  { unfold AnalyticsInv, AnalyticsPost. simpl.
    destruct Hprep as [->|[workdir ->]]; (split; [by split|]); set_solver. }
  pose proof (buildLoop_inv bc options1 (AnalyticsInv bc) (λ _, AnalyticsPost bc)
                (getToBuildSvcs (world s1) (manifest s1) options1) fuel
                (λ svc ls _, buildLoopBody_tracks bc options1 svc ls)
                (λ ls Hinv, proj1 Hinv) _ Hinit) as Hend.
  destruct (buildLoop_not_frame fuel bc options1
              (getToBuildSvcs (world s1) (manifest s1) options1) (mkLoop s1 ∅ []))
    as (Δ & HΔ & Hframe).
  simpl in HΔ.
  assert (Hno : noTracking (trace (st (stepState (buildLoop fuel bc options1
                  (getToBuildSvcs (world s1) (manifest s1) options1) (mkLoop s1 ∅ [])))))).
  { rewrite HΔ. intros metas' [Hx|Hx]%elem_of_app.
    - by apply (proj1 (Forall_forall _ _) Hframe) in Hx.
    - destruct Hprep as [Ht|[workdir Ht]]; rewrite Ht in Hx; set_solver. }
  unfold noTracking in Hno.
  destruct (buildLoop _ _ _ _ _) as [ls|out ls]; simpl in Hno.
  - destruct Hloop as [_ Ht]. rewrite Ht in Hin |- *.
    apply (AnalyticsPost_frame bc ls [EvTrackImageBuild (rev (buildsAnalytics ls)); EvExpandEnvVars]);
      [by destruct Hend | by repeat constructor | done |].
    set_solver.
  - assert (Ht : out ≠ OutOfFuel ∧ Build_trace fuel bc options s
                 = EvTrackImageBuild (rev (buildsAnalytics ls)) :: trace (st ls)).
    { destruct out as [e| |]; destruct Hloop as [_ Ht]; try done.
      rewrite Ht in Hin. by apply Hno in Hin. }
    destruct Ht as [_ Ht]. rewrite Ht in Hin |- *.
    apply (AnalyticsPost_frame bc ls [EvTrackImageBuild (rev (buildsAnalytics ls))]);
      [done | by repeat constructor | done |].
    set_solver.
Qed.

(** ** The two stages of a build *)

Lemma buildSvcFromDockerfile_ok bc svcName options s image s' :
  buildSvcFromDockerfile bc svcName options s = (Ok image, s') →
  ∃ opts, trace s' = EvV1Build opts :: EvAddBuildArgs svcName :: trace s
    ∧ manifest s' = manifest s
    ∧ GetImageTagWithDigest (pushedReference opts) (world s') = Ok image.
Proof.
  unfold buildSvcFromDockerfile, pushedReference. monad_unfold. intros H.
  repeat (break_match; monad_unfold; simplify_eq/=).
  all: try (eexists; split; [reflexivity|]; split; [reflexivity|]).
  all: repeat match goal with
              | H : ?c = _ |- context [if ?c then _ else _] => rewrite H
              end; done.
Qed.

Lemma addVolumeMounts_ok bc svcName options s b image s' :
  Manifest.Build (manifest s) !! svcName = Some b →
  addVolumeMounts bc svcName options s = (Ok image, s') →
  ∃ opts,
    trace s' = EvV1Build opts
                 :: EvCreateDockerfile (baseImage options b)
                      (getAccessibleVolumeMounts (world s) b)
                 :: trace s
    ∧ manifest s' = manifest s
    ∧ BuildOptions.Tag opts = volumesTag bc svcName s b
    ∧ GetImageTagWithDigest (BuildOptions.Tag opts) (world s') = Ok image.
Proof.
  intros Hb. unfold addVolumeMounts, baseImage, volumesTag. monad_unfold. rewrite Hb.
  simpl. intros H.
  repeat (break_match; monad_unfold; simplify_eq/=).
  all: eexists; split; [reflexivity|]; split; [reflexivity|]; split; [reflexivity|].
  all: repeat match goal with
              | H : ?c = _ |- context [if ?c then _ else _] => rewrite H
              end; done.
Qed.

Lemma addVolumeMounts_events bc svcName options s b :
  Manifest.Build (manifest s) !! svcName = Some b →
  let s' := (addVolumeMounts bc svcName options s).2 in
  manifest s' = manifest s
  ∧ ∃ Δ, trace s' = (Δ ++ EvCreateDockerfile (baseImage options b)
                             (getAccessibleVolumeMounts (world s) b) :: trace s)%list
         ∧ (Δ = [] ∨ ∃ opts, Δ = [EvV1Build opts]
                             ∧ BuildOptions.Tag opts = volumesTag bc svcName s b).
Proof.
  intros Hb. unfold addVolumeMounts, baseImage, volumesTag. monad_unfold. rewrite Hb.
  simpl.
  repeat (break_match; monad_unfold; simplify_eq/=);
    (split; [reflexivity|]);
    first [by (exists []; split; [|left])
          | by (eexists [_]; split; [|right; eexists])].
Qed.

Lemma buildServiceImages_both bc svcName options s b :
  Manifest.Build (manifest s) !! svcName = Some b →
  BuildInfo.Dockerfile b ≠ "" →
  BuildInfo.VolumesToInclude b ≠ [] →
  okteto_IsOkteto (world s) = true →
  buildServiceImages bc svcName options s
  = match buildSvcFromDockerfile bc svcName options s with
    | (Ok image, s1) =>
        addVolumeMounts bc svcName options
          (mkSt (world s1)
             (Manifest.withBuild
                (alter (BuildInfo.withImage image) svcName (Manifest.Build (manifest s1)))
                (manifest s1))
             (trace s1))
    | (Err err, s1) => (Err err, s1)
    | (Panic, s1) => (Panic, s1)
    end.
Proof.
  intros Hb Hdocker Hvol Hctx.
  unfold buildServiceImages. unfold bind at 1 2 3, getManifest, getWorld, deref.
  rewrite Hb, (serviceHasVolumesToInclude_true _ Hvol), Hctx. simpl.
  unfold serviceHasDockerfile. rewrite (bool_decide_eq_false_2 _ Hdocker). simpl.
  unfold bind.
  destruct (buildSvcFromDockerfile bc svcName options s) as [r s1].
  by destruct r.
Qed.

(** X12: for a unit with a Dockerfile and volume mounts in an okteto
    context, buildServiceImages runs buildSvcFromDockerfile first. When that
    fails, its result is returned and the second stage is not started. When
    it returns an image, the image replaces the Image of the unit in the
    manifest (no other unit changes), and addVolumeMounts derives its build
    from that image, or from options.Tag when it is set, with the mounts that
    are accessible after the first stage; the derived build is tagged with
    the with-volumes reference of the unit. *)
Theorem buildServiceImages_two_stages bc svcName options s b :
  Manifest.Build (manifest s) !! svcName = Some b →
  BuildInfo.Dockerfile b ≠ "" →
  BuildInfo.VolumesToInclude b ≠ [] →
  okteto_IsOkteto (world s) = true →
  match buildSvcFromDockerfile bc svcName options s with
  | (Ok image, s1) =>
      let s2 := (buildServiceImages bc svcName options s).2 in
      Manifest.Build (manifest s2)
      = <[svcName := BuildInfo.withImage image b]> (Manifest.Build (manifest s))
      ∧ ∃ Δ, trace s2
             = (Δ ++ EvCreateDockerfile
                       (if bool_decide (BuildOptions.Tag options = "")
                        then image else BuildOptions.Tag options)
                       (getAccessibleVolumeMounts (world s1) b) :: trace s1)%list
             ∧ (Δ = [] ∨ ∃ opts, Δ = [EvV1Build opts]
                                 ∧ BuildOptions.Tag opts = volumesTag bc svcName s1 b)
  | (r, s1) => buildServiceImages bc svcName options s = (r, s1)
  end.
Proof.
  intros Hb Hdocker Hvol Hctx.
  rewrite (buildServiceImages_both bc svcName options s b Hb Hdocker Hvol Hctx).
  destruct (buildSvcFromDockerfile bc svcName options s) as [r s1] eqn:Hstage1.
  destruct r as [image|err|]; [|done..].
  apply buildSvcFromDockerfile_frame in Hstage1 as [Hm1 _].
  match goal with |- context [addVolumeMounts _ _ _ ?s2] => set (s2' := s2) end.
  assert (Hb2 : Manifest.Build (manifest s2') !! svcName = Some (BuildInfo.withImage image b)).
  { subst s2'. simpl. rewrite Hm1, lookup_alter_eq, Hb. done. }
  destruct (addVolumeMounts_events bc svcName options s2' _ Hb2) as (Hm2 & Δ & Ht & HΔ).
  split.
  - rewrite Hm2. subst s2'. simpl. rewrite Hm1.
    apply map_eq. intros x. destruct (decide (svcName = x)) as [->|Hne].
    + by rewrite lookup_alter_eq, lookup_insert_eq, Hb.
    + by rewrite lookup_alter_ne, lookup_insert_ne.
  - exists Δ. split; [|done].
    rewrite Ht. unfold baseImage. simpl. by destruct (bool_decide _).
Qed.

(** X13: when buildServiceImages returns a reference without error, the
    executor was run once for each stage the unit asks for (its Dockerfile,
    its volume mounts). With no stage the reference is empty and nothing was
    done; otherwise the reference is the answer of the registry, in the
    world after the last run, for the Tag or the DevTag of that run. *)
Theorem buildServiceImages_success bc svcName options s b image s' :
  Manifest.Build (manifest s) !! svcName = Some b →
  buildServiceImages bc svcName options s = (Ok image, s') →
  ∃ Δ, trace s' = (Δ ++ trace s)%list
    ∧ length (omap executorRun Δ) = stages b
    ∧ match omap executorRun Δ with
      | [] => image = "" ∧ s' = s
      | opts :: _ =>
          ∃ reference,
            (reference = BuildOptions.Tag opts ∨ reference = BuildOptions.DevTag opts)
            ∧ GetImageTagWithDigest reference (world s') = Ok image
      end.
Proof.
  intros Hb. unfold buildServiceImages, stages.
  unfold bind at 1 2 3, getManifest, getWorld, deref. rewrite Hb.
  destruct (serviceHasVolumesToInclude b) eqn:Hvol; simpl.
  - destruct (okteto_IsOkteto (world s)) eqn:Hctx; simpl; [|done].
    destruct (serviceHasDockerfile b) eqn:Hdocker; simpl.
    + unfold bind.
      destruct (buildSvcFromDockerfile bc svcName options s) as [r s1] eqn:Hstage1.
      destruct r as [image1|err|]; [|done..].
      apply buildSvcFromDockerfile_ok in Hstage1 as (opts1 & Ht1 & Hm1 & _).
      unfold setImage at 1. simpl.
      match goal with |- addVolumeMounts _ _ _ ?s2 = _ → _ => set (s2' := s2) end.
      intros Hstage2.
      assert (Hb2 : Manifest.Build (manifest s2') !! svcName
                    = Some (BuildInfo.withImage image1 b)).
      { subst s2'. simpl. rewrite Hm1, lookup_alter_eq, Hb. done. }
      apply (addVolumeMounts_ok _ _ _ _ _ _ _ Hb2) in Hstage2 as (opts2 & Ht2 & _ & _ & Href).
      eexists [_; _; _; _]. split; [by rewrite Ht2; simpl; rewrite Ht1|].
      split; [done|]. simpl. eauto.
    + intros Hstage2.
      apply (addVolumeMounts_ok _ _ _ _ _ _ _ Hb) in Hstage2 as (opts2 & Ht2 & _ & _ & Href).
      eexists [_; _]. split; [by rewrite Ht2|]. split; [done|]. simpl. eauto.
  - destruct (serviceHasDockerfile b) eqn:Hdocker; simpl.
    + intros Hstage1.
      apply buildSvcFromDockerfile_ok in Hstage1 as (opts1 & Ht1 & _ & Href).
      eexists [_; _]. split; [by rewrite Ht1|]. split; [done|]. simpl.
      exists (pushedReference opts1). split; [|done].
      unfold pushedReference. destruct (negb _); auto.
    + intros [= <- <-]. by exists [].
Qed.

(** ** The units the loop looks up are keys of the build section *)

Lemma validateOptions_defined manifest svcsToBuild options :
  validateOptions manifest svcsToBuild options = None →
  ∀ svc, svc ∈ svcsToBuild → is_Some (Manifest.Build manifest !! svc).
Proof.
  unfold validateOptions. destruct (Nat.eqb _ _); [done|].
  destruct (validateServices _ _) eqn:Hvalid; [done|]. intros _.
  rewrite validateServices_eq in Hvalid.
  apply missingServices_nil. by destruct (missingServices _ _).
Qed.

(** X14: the loop of Build looks up only keys of the build section.
    validateOptions lets Build enter the loop only with a plan whose names
    are all keys, and neither the loop nor the build paths add or remove a
    key: in every state the loop reaches, the build section has the keys it
    had when Build was called, every unit of the plan is one of them, and
    every unit started is a unit of the plan. (Whether the pointer kept
    under a key is nil is not part of the model: this is about keys.) *)
Theorem Build_reads_no_missing_unit fuel bc options s options1 s1 :
  prepareOptions options s = (Ok options1, s1) →
  let toBuildSvcs := getToBuildSvcs (world s1) (manifest s1) options1 in
  validateOptions (manifest s1) toBuildSvcs options1 = None →
  let ls := stepState (buildLoop fuel bc options1 toBuildSvcs (mkLoop s1 ∅ [])) in
  (∀ svc, is_Some (Manifest.Build (manifest (st ls)) !! svc)
          ↔ is_Some (Manifest.Build (manifest s) !! svc))
  ∧ (∀ svc, svc ∈ toBuildSvcs → is_Some (Manifest.Build (manifest (st ls)) !! svc))
  ∧ (trace s = [] →
     ∀ svc, EvAttempt svc ∈ trace (st ls) →
       svc ∈ toBuildSvcs ∧ is_Some (Manifest.Build (manifest (st ls)) !! svc)).
Proof.
  intros Hprep toBuildSvcs Hvalid ls.
  pose proof (validateOptions_defined _ _ _ Hvalid) as Hdefined. fold toBuildSvcs in Hdefined.
  pose proof (prepareOptions_frame _ _ _ _ Hprep) as (Hbuild & _ & _).
  pose proof (prepareOptions_trace _ _ _ _ Hprep) as Htrace.
  assert (Hinv : (∀ svc, is_Some (Manifest.Build (manifest (st ls)) !! svc)
                         ↔ is_Some (Manifest.Build (manifest s1) !! svc))
                 ∧ ∀ svc, EvAttempt svc ∈ trace (st ls) →
                     EvAttempt svc ∈ trace s1 ∨ svc ∈ toBuildSvcs).
  { subst ls.
    apply (buildLoop_state_inv bc options1
             (λ ls', (∀ svc, is_Some (Manifest.Build (manifest (st ls')) !! svc)
                             ↔ is_Some (Manifest.Build (manifest s1) !! svc))
                     ∧ ∀ svc, EvAttempt svc ∈ trace (st ls') →
                         EvAttempt svc ∈ trace s1 ∨ svc ∈ toBuildSvcs));
      [|by split; [|left]].
    intros svc ls0 Hin [Hkeys Hstarted].
    destruct (buildLoopBody_spec bc options1 svc ls0)
      as [[-> _]|[[-> _]|(b & Δ & _ & _ & _ & Hshape & Ht & _ & Hdeps)]]; [done..|].
    apply AttemptShape_facts in Hshape as (F1 & _).
    split.
    - intros x. rewrite <- Hkeys. specialize (Hdeps x). unfold dependsOn in Hdeps.
      rewrite <- !fmap_is_Some with (f := BuildInfo.DependsOn). by rewrite Hdeps.
    - intros x. rewrite Ht. specialize (F1 x). specialize (Hstarted x). set_solver. }
  destruct Hinv as [Hkeys Hstarted].
  split; [intros svc; by rewrite Hkeys, Hbuild|].
  split; [intros svc Hsvc; apply Hkeys; by apply Hdefined|].
  intros Hs svc Hsvc. destruct (Hstarted svc Hsvc) as [Hpre|Hin].
  - exfalso. rewrite Hs in Htrace.
    destruct Htrace as [Ht|[workdir Ht]]; rewrite Ht in Hpre; set_solver.
  - split; [done|]. apply Hkeys. by apply Hdefined.
Qed.

(** ** Rounds that build nothing *)

Lemma controlWithin_size toBuildSvcs ls :
  controlWithin toBuildSvcs ls →
  (size (builtImagesControl ls) ≤ length toBuildSvcs)%nat.
Proof.
  intros Hin. etrans; [|apply size_list_to_set_le].
  rewrite <- size_dom. apply subseteq_size. intros x [v Hv]%elem_of_dom.
  apply elem_of_list_to_set. by destruct (Hin x v Hv).
Qed.

(** A round leaves the loop, or adds a unit to the built-set, or changes
    nothing because no unit of it can be started. *)
Lemma buildRound_dichotomy bc options toBuildSvcs svcs ls :
  controlWithin toBuildSvcs ls → (∀ svc, svc ∈ svcs → svc ∈ toBuildSvcs) →
  match buildRound bc options svcs ls with
  | Stop out _ => out ≠ OutOfFuel
  | Continue ls' =>
      controlWithin toBuildSvcs ls'
      ∧ ((ls' = ls
          ∧ ∀ svc, svc ∈ svcs →
              skipServiceBuild svc (builtImagesControl ls) = true
              ∨ ∃ b, Manifest.Build (manifest (st ls)) !! svc = Some b
                     ∧ areAllServicesBuilt (BuildInfo.DependsOn b) (builtImagesControl ls)
                       = false)
         ∨ (size (builtImagesControl ls) < size (builtImagesControl ls'))%nat)
  end.
Proof.
  revert ls. induction svcs as [|svc svcs IH]; intros ls Hin Hsub; simpl.
  { split; [done|]. left. split; [done|]. intros x Hx. by apply elem_of_nil in Hx. }
  pose proof (buildLoopBody_stop bc options svc ls) as Hstop.
  destruct (buildLoopBody_spec bc options svc ls)
    as [[Hbody Hpass]|[[Hbody _]|(b & Δ & Hskip & _ & _ & _ & _ & Hc & _)]].
  - rewrite Hbody.
    specialize (IH ls Hin (λ x Hx, Hsub x ltac:(by right))).
    destruct (buildRound bc options svcs ls) as [ls'|out ls']; [|done].
    destruct IH as [Hin' [[-> Hrest]|Hgrow]]; (split; [done|]); [left|by right].
    split; [done|]. intros x [->|Hx]%elem_of_cons; [|by apply Hrest].
    destruct Hpass as [?|(b & _ & ? & ?)]; eauto.
  - by rewrite Hbody.
  - destruct (buildLoopBody bc options svc ls) as [ls1|out ls1]; simpl in *;
      [|by destruct (Hstop _ _ eq_refl)].
    assert (Hnone : builtImagesControl ls !! svc = None).
    { unfold skipServiceBuild in Hskip.
      destruct (builtImagesControl ls !! svc) as [v|] eqn:Hv; [|done].
      destruct (Hin svc v Hv) as [-> _]. done. }
    assert (Hin1 : controlWithin toBuildSvcs ls1).
    { intros x v. rewrite Hc. destruct (decide (svc = x)) as [<-|Hne].
      - rewrite lookup_insert_eq. intros [= <-]. split; [done|]. apply Hsub. by left.
      - rewrite lookup_insert_ne by done. apply Hin. }
    assert (Hsize : size (builtImagesControl ls1) = S (size (builtImagesControl ls))).
    { rewrite Hc. by apply map_size_insert_None. }
    specialize (IH ls1 Hin1 (λ x Hx, Hsub x ltac:(by right))).
    destruct (buildRound bc options svcs ls1) as [ls'|out ls']; [|done].
    destruct IH as [Hin' [[-> _]|Hgrow]]; (split; [done|]); right; lia.
Qed.

Lemma buildLoop_polls_forever_or_returns bc options toBuildSvcs fuel ls :
  controlWithin toBuildSvcs ls →
  (length toBuildSvcs - size (builtImagesControl ls) ≤ fuel)%nat →
  stepResult (buildLoop fuel bc options toBuildSvcs ls) = Some OutOfFuel →
  ∀ fuel', stepResult (buildLoop fuel' bc options toBuildSvcs ls) = Some OutOfFuel.
Proof.
  revert ls. induction fuel as [|fuel IH]; intros ls Hin Hfuel Hout fuel'.
  - pose proof (controlWithin_size _ _ Hin) as Hle. simpl in Hout.
    destruct (Nat.eqb_spec (size (builtImagesControl ls)) (length toBuildSvcs)); [done|lia].
  - simpl in Hout.
    destruct (Nat.eqb_spec (size (builtImagesControl ls)) (length toBuildSvcs)) as [|Hne];
      [done|].
    pose proof (buildRound_dichotomy bc options toBuildSvcs toBuildSvcs ls Hin (λ _ H, H))
      as Hround.
    destruct (buildRound bc options toBuildSvcs ls) as [ls'|out ls'] eqn:Hr;
      [|simpl in Hout; congruence].
    destruct Hround as [Hin' [[-> Hpass]|Hgrow]].
    + by rewrite (buildLoop_stuck bc options toBuildSvcs ls fuel' (conj Hne Hpass)).
    + specialize (IH ls' Hin' ltac:(lia) Hout).
      destruct fuel' as [|fuel']; simpl;
        (destruct (Nat.eqb_spec (size (builtImagesControl ls)) (length toBuildSvcs));
         [done|]); [done|].
      rewrite Hr. apply IH.
Qed.

(** X15: as many rounds as the plan has units decide whether Build returns:
    if the loop is still polling after that many rounds, it is polling after
    any number of rounds. *)
Theorem Build_never_returns_after_plan_rounds fuel bc options s :
  (length (planOf options s) ≤ fuel)%nat →
  Build_outcome fuel bc options s = OutOfFuel →
  ∀ fuel', Build_outcome fuel' bc options s = OutOfFuel.
Proof.
  intros Hfuel Hout fuel'.
  destruct (Build_cases fuel bc options s)
    as [[Hnot _]|(options1 & s1 & Hremote & Hprep & Hvalid & Hloop)].
  { exfalso. revert Hout. unfold Build_outcome, Build, entersLoop in *.
    destruct (LoadBoolean _ _); [done|].
    destruct (prepareOptions options s) as [[options1|err|] s1]; [|done..].
    destruct (validateOptions _ _ _) as [err|] eqn:Hvalid.
    - by destruct (isNoServicesToBuildDefined err).
    - destruct Hnot. eauto. }
  unfold planOf in Hfuel. rewrite Hprep in Hfuel.
  set (toBuildSvcs := getToBuildSvcs (world s1) (manifest s1) options1) in *.
  assert (Hin : controlWithin toBuildSvcs (mkLoop s1 ∅ [])).
  { intros x v Hx. simpl in Hx. by rewrite lookup_empty in Hx. }
  assert (Hloop' : stepResult (buildLoop fuel bc options1 toBuildSvcs (mkLoop s1 ∅ []))
                   = Some OutOfFuel).
  { destruct (buildLoop fuel bc options1 toBuildSvcs (mkLoop s1 ∅ [])) as [ls|out ls].
    - destruct Hloop as [Hres _]. congruence.
    - destruct out; destruct Hloop as [Hres _]; simpl; congruence. }
  pose proof (buildLoop_polls_forever_or_returns bc options1 toBuildSvcs fuel
                (mkLoop s1 ∅ []) Hin ltac:(simpl; lia) Hloop' fuel') as Hforever.
  unfold Build_outcome, Build. rewrite Hremote, Hprep. fold toBuildSvcs. rewrite Hvalid.
  by destruct (buildLoop fuel' bc options1 toBuildSvcs (mkLoop s1 ∅ [])) as [ls|[] ls].
Qed.

(** ** What [Build] changes before its loop *)

(** X16: before its loop Build changes nothing of the manifest but the
    name, and the name only when it is empty; nothing of the options but
    File; and with an empty File neither the world nor the trace. When the
    change of directory fails, its error is returned and the manifest is
    untouched. *)
Theorem prepareOptions_changes options s :
  let run := prepareOptions options s in
  Manifest.withName (Manifest.Name (manifest s)) (manifest run.2) = manifest s
  ∧ (Manifest.Name (manifest s) ≠ "" → manifest run.2 = manifest s)
  ∧ (BuildOptions.File options = "" → world run.2 = world s ∧ trace run.2 = trace s)
  ∧ (∀ err, BuildOptions.File options ≠ "" →
       (Chdir (GetWorkdirFromManifestPath (BuildOptions.File options)) (world s)).1
       = Some err →
       run.1 = Err err ∧ manifest run.2 = manifest s)
  ∧ ∀ options1, run.1 = Ok options1 →
      BuildOptions.withFile (BuildOptions.File options) options1 = options
      ∧ (BuildOptions.File options = "" → options1 = options).
Proof.
  unfold prepareOptions. monad_unfold.
  assert (Hm : ∀ name, Manifest.withName (Manifest.Name (manifest s))
                         (Manifest.withName name (manifest s)) = manifest s).
  { intros name. by destruct (manifest s). }
  assert (Hm' : Manifest.withName (Manifest.Name (manifest s)) (manifest s) = manifest s).
  { by destruct (manifest s). }
  assert (Ho : ∀ file, BuildOptions.withFile (BuildOptions.File options)
                         (BuildOptions.withFile file options) = options).
  { intros file. by destruct options. }
  assert (Ho' : BuildOptions.withFile (BuildOptions.File options) options = options).
  { by destruct options. }
  destruct (bool_decide_reflect (BuildOptions.File options = "")) as [Hfile|Hfile]; simpl.
  - destruct (bool_decide_reflect (Manifest.Name (manifest s) = "")) as [Hname|Hname]; simpl.
    + destruct (Getwd (world s)) as [wd|err|]; simpl;
        [destruct (ProvideK8sClient (world s)) as [err|]; simpl|..];
        split_and!; try done; intros; by simplify_eq/=.
    + split_and!; try done; intros; by simplify_eq/=.
  - destruct (Chdir _ (world s)) as [[err|] w] eqn:Hchdir; simpl.
    { split_and!; try done; intros; by simplify_eq/=. }
    destruct (bool_decide_reflect (Manifest.Name (manifest s) = "")) as [Hname|Hname]; simpl.
    + destruct (Getwd w) as [wd|err|]; simpl;
        [destruct (ProvideK8sClient w) as [err|]; simpl|..];
        split_and!; try done; intros; by simplify_eq/=.
    + split_and!; try done; intros; by simplify_eq/=.
Qed.

(** ** The unit of each stage *)

(** X17: the unit of each stage keeps the context, Dockerfile, target,
    arguments, secrets and dependencies of the unit of the manifest. The
    unit of the first stage has no volume mounts, and its image is cleared
    exactly for a stack manifest in an okteto context whose image is not in
    the okteto registry; the unit of the second stage carries the accessible
    mounts, and its image is cleared for a stack manifest in an okteto
    context. getBuildInfoWithoutVolumeMounts is idempotent, and its result is
    checked with the tagger of units without volume mounts. *)
Theorem getBuildInfo_stages w b isStackManifest :
  let first := getBuildInfoWithoutVolumeMounts w b isStackManifest in
  let second := getBuildInfoWithVolumeMounts w b isStackManifest in
  sameBuild first b ∧ sameBuild second b
  ∧ BuildInfo.VolumesToInclude first = []
  ∧ BuildInfo.VolumesToInclude second = getAccessibleVolumeMounts w b
  ∧ BuildInfo.Image first
    = (if isStackManifest && okteto_IsOkteto w
          && negb (IsOktetoRegistry (BuildInfo.Image b) w)
       then "" else BuildInfo.Image b)
  ∧ BuildInfo.Image second
    = (if isStackManifest && okteto_IsOkteto w then "" else BuildInfo.Image b)
  ∧ getBuildInfoWithoutVolumeMounts w first isStackManifest = first
  ∧ ∀ cfg, getImageChecker first cfg = newImageChecker cfg (newImageTagger cfg).
Proof.
  unfold getBuildInfoWithoutVolumeMounts, getBuildInfoWithVolumeMounts, sameBuild,
    getImageChecker, serviceHasVolumesToInclude.
  destruct b as [c d t i a sec vols deps]. simpl.
  destruct vols as [|v vols]; simpl;
    destruct (isStackManifest && okteto_IsOkteto w) eqn:Hstack; simpl;
    destruct (IsOktetoRegistry i w) eqn:Hreg; simpl;
    rewrite ?Hstack, ?Hreg; simpl; split_and!; try done;
    by destruct (IsOktetoRegistry "" w).
Qed.

End FurtherProperties.

(** ** The registry of the tests *)

Section FakeRegistryProperties.
Import FakeRegistry.

Lemma fold_left_insert_lookup (images : list string) (reg : gmap string fakeImage) tag :
  fold_left (fun reg image => <[image := zeroImage]> reg) images reg !! tag
  = if bool_decide (tag ∈ images) then Some zeroImage else reg !! tag.
Proof.
  revert reg. induction images as [|image images IH]; intros reg; simpl; [done|].
  rewrite IH. destruct (decide (image = tag)) as [->|Hne].
  - rewrite lookup_insert_eq.
    rewrite (bool_decide_eq_true_2 (tag ∈ tag :: images)) by by left.
    by destruct (bool_decide _).
  - rewrite lookup_insert_ne by done.
    destruct (bool_decide_reflect (tag ∈ images)) as [Hin|Hnotin].
    + by rewrite bool_decide_eq_true_2 by by right.
    + rewrite bool_decide_eq_false_2; [done|].
      intros [->|?]%elem_of_cons; done.
Qed.

(** X18: the registry of the tests resolves exactly what was added to it. A
    new registry resolves no tag (ErrNotFound). AddImageByName and
    AddImageByOpts return the configured error, when there is one, and leave
    the registry as it was; otherwise the tags they add resolve to
    themselves, the other tags resolve as before, an image added by name
    replaces what was kept for its tag by the zero image, and an image added
    by options keeps the build arguments of the options. *)
Theorem fakeRegistry_resolves_what_was_added fr images opts :
  (∀ tag, GetImageTagWithDigest newFakeRegistry tag = Err ErrNotFound)
  ∧ match errAddImageByName fr with
    | Some err => AddImageByName fr images = (Some err, fr)
    | None =>
        (AddImageByName fr images).1 = None
        ∧ ∀ tag,
            let fr' := (AddImageByName fr images).2 in
            if bool_decide (tag ∈ images)
            then GetImageTagWithDigest fr' tag = Ok tag ∧ getFakeImage fr' tag = zeroImage
            else GetImageTagWithDigest fr' tag = GetImageTagWithDigest fr tag
                 ∧ getFakeImage fr' tag = getFakeImage fr tag
    end
  ∧ match errAddImageByOpts fr with
    | Some err => AddImageByOpts fr opts = (Some err, fr)
    | None =>
        (AddImageByOpts fr opts).1 = None
        ∧ let fr' := (AddImageByOpts fr opts).2 in
          GetImageTagWithDigest fr' (BuildOptions.Tag opts) = Ok (BuildOptions.Tag opts)
          ∧ Args (getFakeImage fr' (BuildOptions.Tag opts)) = BuildOptions.BuildArgs opts
          ∧ ∀ tag, tag ≠ BuildOptions.Tag opts →
              GetImageTagWithDigest fr' tag = GetImageTagWithDigest fr tag
              ∧ getFakeImage fr' tag = getFakeImage fr tag
    end.
Proof.
  split; [done|]. split.
  - unfold AddImageByName. destruct (errAddImageByName fr); [done|]. simpl.
    split; [done|]. intros tag.
    unfold GetImageTagWithDigest, getFakeImage. simpl.
    rewrite fold_left_insert_lookup. by destruct (bool_decide _).
  - unfold AddImageByOpts. destruct (errAddImageByOpts fr); [done|]. simpl.
    split; [done|].
    unfold GetImageTagWithDigest, getFakeImage. simpl.
    rewrite lookup_insert_eq. split; [done|]. split; [done|].
    intros tag Hne. by rewrite lookup_insert_ne.
Qed.
End FakeRegistryProperties.

(** ** The build section made by the manifest command *)

Section InitProperties.
Context {World : Type} `{!Collaborators World} `{!InitCollaborators World}.
Implicit Types (s : St World) (ls : LoopState World) (w : World).

Lemma inferredUnit_more dockerfile dockerfiles name b :
  inferredUnit dockerfiles name b → inferredUnit (dockerfile :: dockerfiles) name b.
Proof. intros (? & ?). split; [by right | done]. Qed.

Lemma inferUnits_units cwd dockerfiles all manifestBuild w section w' :
  inferUnits cwd dockerfiles manifestBuild w = (Ok section, w') →
  (∀ d, d ∈ dockerfiles → d ∈ all) →
  (∀ name b, manifestBuild !! name = Some b → inferredUnit all name b) →
  (∀ name b, section !! name = Some b → inferredUnit all name b)
  ∧ (size section ≤ size manifestBuild + length dockerfiles)%nat.
Proof.
  revert manifestBuild w.
  induction dockerfiles as [|dockerfile rest IH]; intros manifestBuild w Hrun Hall Hunits.
  { simpl in Hrun. injection Hrun as <- <-. split; [done|lia]. }
  simpl in Hrun.
  assert (Hrest : ∀ d, d ∈ rest → d ∈ all) by (intros d Hd; apply Hall; by right).
  assert (Hin : dockerfile ∈ all) by (apply Hall; by left).
  assert (Hstep : ∀ name buildInfo w1,
    inferredUnit all name buildInfo →
    inferUnits cwd rest (<[name := buildInfo]> manifestBuild) w1 = (Ok section, w') →
    (∀ name b, section !! name = Some b → inferredUnit all name b)
    ∧ (size section ≤ size manifestBuild + S (length rest))%nat).
  { intros name buildInfo w1 Hunit Hnext.
    apply IH in Hnext as (H1 & H2); [|done|].
    - split; [done|].
      pose proof (map_size_insert name buildInfo manifestBuild) as Hsize.
      destruct (manifestBuild !! name); simpl in Hsize; lia.
    - intros x b. destruct (decide (name = x)) as [->|Hne].
      + rewrite lookup_insert_eq. intros [= <-]. exact Hunit.
      + rewrite lookup_insert_ne by done. apply Hunits. }
  destruct (bool_decide_reflect (dockerfile = dockerfileName)) as [Hname|Hname].
  - destruct (ProvideK8sClient w) as [err|]; [done|].
    destruct (negb (okteto_IsOkteto w)).
    + destruct (AsksQuestion _ w) as [[imageName|err|] w1]; [|done..].
      apply Hstep in Hrun; [done|]. split; [done|]. split; [by left | done].
    + apply Hstep in Hrun; [done|]. split; [done|]. split; [by left | done].
  - destruct (negb (okteto_IsOkteto w)).
    + destruct (AsksQuestion _ w) as [[imageName|err|] w1]; [|done..].
      apply Hstep in Hrun; [done|]. split; [done|]. split; [by right | done].
    + apply Hstep in Hrun; [done|]. split; [done|]. split; [by right | done].
Qed.

Lemma inferUnits_okteto cwd dockerfiles manifestBuild w :
  okteto_IsOkteto w = true →
  match inferUnits cwd dockerfiles manifestBuild w with
  | (Ok section, w') =>
      w' = w
      ∧ ∀ name b, section !! name = Some b →
          manifestBuild !! name = Some b ∨ BuildInfo.Image b = ""
  | (Err err, w') =>
      w' = w ∧ dockerfileName ∈ dockerfiles ∧ ProvideK8sClient w = Some err
  | (Panic, _) => False
  end.
Proof.
  intros Hctx. revert manifestBuild.
  induction dockerfiles as [|dockerfile rest IH]; intros manifestBuild; simpl.
  { split; [done|]. intros name b Hb. by left. }
  rewrite Hctx. simpl.
  assert (Hstep : ∀ name buildInfo,
    BuildInfo.Image buildInfo = "" →
    match inferUnits cwd rest (<[name := buildInfo]> manifestBuild) w with
    | (Ok section, w') =>
        w' = w
        ∧ ∀ name b, section !! name = Some b →
            manifestBuild !! name = Some b ∨ BuildInfo.Image b = ""
    | (Err err, w') =>
        w' = w ∧ dockerfileName ∈ dockerfile :: rest ∧ ProvideK8sClient w = Some err
    | (Panic, _) => False
    end).
  { intros name buildInfo Himg. specialize (IH (<[name := buildInfo]> manifestBuild)).
    destruct (inferUnits cwd rest _ w) as [[section|err|] w']; [| |done].
    - destruct IH as [-> IH]. split; [done|]. intros x b Hb.
      destruct (IH x b Hb) as [Hold|?]; [|by right].
      destruct (decide (name = x)) as [->|Hne].
      + rewrite lookup_insert_eq in Hold. injection Hold as <-. by right.
      + rewrite lookup_insert_ne in Hold by done. by left.
    - destruct IH as (-> & ? & ?). split; [done|]. split; [by right | done]. }
  destruct (bool_decide_reflect (dockerfile = dockerfileName)) as [Hname|Hname].
  - destruct (ProvideK8sClient w) as [err|] eqn:Hk8s.
    + split; [done|]. split; [rewrite Hname; by left | done].
    + by apply Hstep.
  - by apply Hstep.
Qed.

Lemma inferBuildSectionFromDockerfiles_shape cwd dockerfiles w section w' :
  inferBuildSectionFromDockerfiles cwd dockerfiles w = (Ok section, w') →
  ∀ name b, section !! name = Some b → BuildInfo.DependsOn b = [].
Proof.
  intros Hrun name b Hb.
  destruct (inferUnits_units cwd dockerfiles dockerfiles ∅ w section w' Hrun) as [Hshape _];
    [done| |].
  { intros x bx Hx. by rewrite lookup_empty in Hx. }
  by destruct (Hshape name b Hb) as (_ & _ & _ & _ & _ & _ & ?).
Qed.

(** X19: the section made by inferBuildSectionFromDockerfiles has at most
    as many units as Dockerfiles were given, and each unit has one of the
    Dockerfiles, the context [.] (for the Dockerfile of the working
    directory) or the directory of its Dockerfile (which is then its name),
    and no target, arguments, secrets, volume mounts or dependencies. In an
    okteto context no question is asked: the images are empty, the world is
    unchanged, nothing panics, and the only error is that of the client
    provider, met for the Dockerfile of the working directory. *)
Theorem inferBuildSectionFromDockerfiles_units cwd dockerfiles w :
  match inferBuildSectionFromDockerfiles cwd dockerfiles w with
  | (Ok section, w') =>
      (∀ name b, section !! name = Some b → inferredUnit dockerfiles name b)
      ∧ (size section ≤ length dockerfiles)%nat
      ∧ (okteto_IsOkteto w = true →
         w' = w ∧ ∀ name b, section !! name = Some b → BuildInfo.Image b = "")
  | (Err err, w') =>
      okteto_IsOkteto w = true →
      w' = w ∧ dockerfileName ∈ dockerfiles ∧ ProvideK8sClient w = Some err
  | (Panic, _) => okteto_IsOkteto w = false
  end.
Proof.
  unfold inferBuildSectionFromDockerfiles.
  pose proof (inferUnits_units cwd dockerfiles dockerfiles ∅ w) as Hunits.
  pose proof (inferUnits_okteto cwd dockerfiles ∅ w) as Hokteto.
  destruct (inferUnits cwd dockerfiles ∅ w) as [[section|err|] w'].
  - destruct (Hunits section w' eq_refl) as [Hshape Hsize]; [done| |].
    { intros name b Hb. by rewrite lookup_empty in Hb. }
    split; [done|]. split; [by rewrite map_size_empty in Hsize|].
    intros Hctx. destruct (Hokteto Hctx) as [-> Himg]. split; [done|].
    intros name b Hb. destruct (Himg name b Hb) as [Hold|?]; [|done].
    by rewrite lookup_empty in Hold.
  - done.
  - destruct (okteto_IsOkteto w); [by destruct Hokteto | done].
Qed.

(** X20: a build section inferred from Dockerfiles can always be scheduled:
    its units depend on nothing, so Build, run on a manifest with that
    section and a plan without repetition, returns within as many rounds as
    the plan has units. *)
Theorem Build_schedules_inferred_section cwd dockerfiles w0 section w1 fuel bc options s :
  inferBuildSectionFromDockerfiles cwd dockerfiles w0 = (Ok section, w1) →
  Manifest.Build (manifest s) = section →
  NoDup (planOf options s) →
  (length (planOf options s) ≤ fuel)%nat →
  Build_outcome fuel bc options s ≠ OutOfFuel.
Proof.
  intros Hinfer Hsection Hnodup Hfuel.
  pose proof (inferBuildSectionFromDockerfiles_shape cwd dockerfiles w0 section w1 Hinfer)
    as Hshape.
  unfold planOf in *. unfold Build_outcome, Build.
  destruct (LoadBoolean _ _); [done|].
  destruct (prepareOptions options s) as [[options1| |] s1] eqn:Hprep; [|done..].
  apply prepareOptions_frame in Hprep as (Hbuild & _ & _).
  destruct (validateOptions _ _ _) as [err|] eqn:Hvalid;
    [by destruct (isNoServicesToBuildDefined err)|].
  pose proof (validateOptions_defined _ _ _ Hvalid) as Hdefined.
  set (toBuildSvcs := getToBuildSvcs (world s1) (manifest s1) options1) in *.
  assert (Hwf : wellFounded toBuildSvcs (dependsOn (manifest s)) (λ _, 0)).
  { split; [done|]. intros svc Hsvc.
    destruct (Hdefined svc Hsvc) as [b Hb]. rewrite Hbuild, Hsection in Hb.
    exists []. split.
    - unfold dependsOn. rewrite Hsection, Hb. simpl. f_equal. by apply (Hshape svc b).
    - intros d Hd. by apply elem_of_nil in Hd. }
  pose proof (buildLoop_terminates bc options1 _ _ _ Hwf fuel (mkLoop s1 ∅ []) fuel) as Hloop.
  destruct (buildLoop _ _ _ _ _) as [ls|out ls]; simpl in *.
  - by destruct (ExpandEnvVars _ _).
  - assert (out ≠ OutOfFuel).
    { intros ->. apply Hloop; [|simpl; lia|done|done].
      split; simpl; [|done|].
      - intros x. unfold dependsOn. by rewrite Hbuild.
      - intros x [? Hx]. by rewrite lookup_empty in Hx. }
    by destruct out.
Qed.

End InitProperties.

(** * Concrete runs *)

Module Runs.
Import Fake Scenarios.

Lemma cyclicPlan_toBuild :
  getToBuildSvcs (world (state oktetoContext cyclicPlan))
    (manifest (state oktetoContext cyclicPlan)) BuildOptions.empty
  = ["a"; "b"].
Proof. vm_compute. reflexivity. Qed.

Lemma cyclicPlan_stuck : stuck ["a"; "b"] (mkLoop (state oktetoContext cyclicPlan) ∅ []).
Proof.
  split; [vm_compute; lia|].
  intros svc Hsvc. right.
  apply elem_of_cons in Hsvc as [->|Hsvc]; [|apply elem_of_cons in Hsvc as [->|Hsvc]].
  - eexists. split; vm_compute; reflexivity.
  - eexists. split; vm_compute; reflexivity.
  - by apply elem_of_nil in Hsvc.
Qed.

Lemma buildLoop_stuck_polls_forever_witness :
  buildRound config BuildOptions.empty ["a"; "b"] (mkLoop (state oktetoContext cyclicPlan) ∅ [])
  = Continue (mkLoop (state oktetoContext cyclicPlan) ∅ [])
  ∧ ∀ fuel, buildLoop fuel config BuildOptions.empty ["a"; "b"]
              (mkLoop (state oktetoContext cyclicPlan) ∅ [])
            = Stop OutOfFuel (mkLoop (state oktetoContext cyclicPlan) ∅ []).
Proof.
  apply (buildLoop_stuck_polls_forever config BuildOptions.empty ["a"; "b"]
           (mkLoop (state oktetoContext cyclicPlan) ∅ [])).
  split; [vm_compute; lia|].
  intros svc Hsvc. right.
  apply elem_of_cons in Hsvc as [->|Hsvc]; [|apply elem_of_cons in Hsvc as [->|Hsvc]].
  - eexists. split; vm_compute; reflexivity.
  - eexists. split; vm_compute; reflexivity.
  - by apply elem_of_nil in Hsvc.
Defined.

Lemma Build_cyclic_plan_never_returns :
  ¬ ∃ fuel out,
      Build_outcome fuel config BuildOptions.empty (state oktetoContext cyclicPlan) = out
      ∧ out ≠ OutOfFuel.
Proof.
  intros (fuel & out & Hout & Hne). apply Hne. rewrite <- Hout. unfold Build_outcome.
  rewrite (Build_stuck_from_start config BuildOptions.empty (state oktetoContext cyclicPlan)
             BuildOptions.empty (state oktetoContext cyclicPlan)); [done|done|done| |].
  - vm_compute. reflexivity.
  - rewrite cyclicPlan_toBuild. apply cyclicPlan_stuck.
Qed.

Lemma hashProjectCommit_literal_vector_witness :
  GetSHA (commitWorld (Ok "1234567890")) = Ok "1234567890"
  ∧ hashProjectCommit literalUnit (commitWorld (Ok "1234567890"))
    = "b613f7afb906ba93792616ffee3ed19a66dbe65f0e373c5e6b86b4ab4c154ee7".
Proof.
  split; [reflexivity|].
  exact (proj1 (proj2 (hashProjectCommit_literal_vector (commitWorld (Ok "1234567890"))
                         eq_refl))).
Defined.

Lemma hashProjectCommit_commit_lookup_failure_witness :
  GetSHA (commitWorld (Err (ExternalError "assert.AnError"))) = Err (ExternalError "assert.AnError")
  ∧ hashProjectCommit literalUnit (commitWorld (Err (ExternalError "assert.AnError")))
    = hashString (oneLineBuildInfo (commitWorld (Err (ExternalError "assert.AnError"))) ""
                    literalUnit).
Proof.
  split; [reflexivity|].
  exact (proj1 (hashProjectCommit_commit_lookup_failure
                  (commitWorld (Err (ExternalError "assert.AnError"))) literalUnit
                  (ExternalError "assert.AnError") eq_refl)).
Defined.


Lemma Build_no_services_not_an_error :
  ¬ ∃ fuel err,
      Build_outcome fuel config BuildOptions.empty (state oktetoContext (manifestOf []))
      = Returned (Some err).
Proof. intros (fuel & err & Hout). vm_compute in Hout. discriminate Hout. Qed.

Lemma Build_no_services_is_skipped_witness :
  let s := state oktetoContext (manifestOf []) in
  let named := BuildOptions.mk "" ["ghost"] "" "" "" None None [] false false in
  let t := state oktetoContext dependsOnPlan in
  getToBuildSvcs (world s) (manifest s) BuildOptions.empty = []
  ∧ Build 3 config BuildOptions.empty s = (Returned None, s)
  ∧ validateOptions (manifest t) (getToBuildSvcs (world t) (manifest t) named) named
    = Some (ErrInvalidServiceNames ["ghost"])
  ∧ Build 3 config named t = (Returned (Some (ErrInvalidServiceNames ["ghost"])), t).
Proof.
  intros s named t. split; [vm_compute; reflexivity|].
  split.
  - exact (proj1 (proj2 (proj1 (Build_no_services_is_skipped 3 config BuildOptions.empty s
                                  BuildOptions.empty s eq_refl eq_refl) eq_refl))).
  - assert (Hvalid : validateOptions (manifest t)
                       (getToBuildSvcs (world t) (manifest t) named) named
                     = Some (ErrInvalidServiceNames ["ghost"])).
    { vm_compute. reflexivity. }
    split; [exact Hvalid|].
    exact (proj2 (proj2 (Build_no_services_is_skipped 3 config named t named t eq_refl eq_refl)
                    ltac:(discriminate) _ Hvalid)).
Defined.

(** With the cache gate open, the lookup is made for unit a. *)
Lemma Build_cache_lookup_iff_witness :
  let s := state oktetoContext dependsOnPlan in
  trace s = []
  ∧ ∃ h, EvCheckBuilt "a" h ∈ Build_trace 5 smartConfig BuildOptions.empty s.
Proof.
  intros s. split; [reflexivity|].
  apply (proj1 (Build_cache_lookup_iff 5 smartConfig BuildOptions.empty s eq_refl)).
  split; [by repeat split | in_list].
Defined.

Lemma image_reference_resolution_witness :
  let w := newWorld oktetoContext in
  let explicit := BuildInfo.mk "dir" "dir/Dockerfile" "" "okteto/test" [] ∅ [] [] in
  let implicit := BuildInfo.mk "dir" "dir/Dockerfile" "" "" [] ∅ [] [] in
  getServiceImageReference (newImageTagger config) w "test" "test"
    (getBuildInfoWithoutVolumeMounts w explicit false) ""
  = "okteto/test"
  ∧ getServiceImageReference (newImageTagger config) w "test" "test"
      (getBuildInfoWithoutVolumeMounts w implicit false) ""
    = "okteto.dev/test-test:okteto"
  ∧ getServiceImageReference (newImageWithVolumesTagger config) w "test" "test"
      (BuildInfo.withImage ""
         (BuildInfo.withVolumesToInclude [StackVolume.mk "dir" "test"] implicit)) ""
    = "okteto.dev/test-test:okteto-with-volume-mounts".
Proof.
  intros w explicit implicit.
  pose proof (image_reference_resolution config w "test" "test" "" explicit eq_refl) as [H1 _].
  pose proof (image_reference_resolution config w "test" "test" "" implicit eq_refl) as [_ H2].
  destruct (H2 eq_refl) as [H2a H2b].
  split; [exact (H1 eq_refl)|]. split; [exact (H2a false)|].
  exact (proj2 (H2b [StackVolume.mk "dir" "test"] ltac:(discriminate))).
Defined.

(** A mount below a regular file does not exist and is forwarded all the
    same: its stat fails with ENOTDIR, which is not a not-exist error. *)
Lemma getAccessibleVolumeMounts_forwards_unreachable :
  ¬ ∀ v, v ∈ getAccessibleVolumeMounts diskWorld mountsUnit ↔
         v ∈ BuildInfo.VolumesToInclude mountsUnit
         ∧ Stat (StackVolume.LocalPath v) diskWorld = None.
Proof.
  intros Hclaim.
  destruct (proj1 (Hclaim (StackVolume.mk "/etc/passwd/x" "/x"))) as [_ Hstat]; [in_list|].
  vm_compute in Hstat. discriminate Hstat.
Qed.

Lemma getAccessibleVolumeMounts_spec_witness :
  let s := mkSt diskWorld mountsPlan [] in
  Manifest.Build (manifest s) !! "test" = Some mountsUnit
  ∧ getAccessibleVolumeMounts diskWorld mountsUnit
    = [StackVolume.mk "/tmp" "/tmp"; StackVolume.mk "/etc/passwd/x" "/x"]
  ∧ (buildServiceImages config "test" BuildOptions.empty s).1
    = Ok "okteto.dev/test-test:okteto-with-volume-mounts".
Proof.
  intros s.
  assert (Hb : Manifest.Build (manifest s) !! "test" = Some mountsUnit).
  { vm_compute. reflexivity. }
  split; [exact Hb|].
  destruct (getAccessibleVolumeMounts_spec config "test" BuildOptions.empty s mountsUnit Hb)
    as (Hfilter & _ & _ & Hbuild).
  split.
  - change (world s) with diskWorld in Hfilter. rewrite Hfilter. vm_compute. reflexivity.
  - refine (proj2 (Hbuild BuildInfo.empty diskWorld
                     (withRegistry {["okteto.dev/test-test:okteto-with-volume-mounts"]}
                        diskWorld)
                     "okteto.dev/test-test:okteto-with-volume-mounts" _ _ _) _ _ _).
    + vm_compute. reflexivity.
    + vm_compute. reflexivity.
    + vm_compute. reflexivity.
    + reflexivity.
    + discriminate.
    + reflexivity.
Defined.

Lemma buildServiceImages_volumes_outside_okteto_witness :
  let s := mkSt (newWorld vanillaContext) mountsPlan [] in
  buildServiceImages config "test" BuildOptions.empty s
  = (Err (UserError "Build with volume mounts is not supported on vanilla contexts"
                    "Please connect to a okteto context and try again"), s).
Proof.
  intros s.
  apply (buildServiceImages_volumes_outside_okteto config "test" BuildOptions.empty s mountsUnit);
    [vm_compute; reflexivity | discriminate | reflexivity].
Defined.

Lemma buildServiceImages_nothing_to_build_witness :
  let ls := mkLoop (state oktetoContext (manifestOf [("web", imageOnlyUnit)])) ∅ [] in
  let bare := mkLoop (state vanillaContext (manifestOf [("web", BuildInfo.empty)])) ∅ [] in
  buildServiceImages config "web" BuildOptions.empty (st ls) = (Ok "", st ls)
  ∧ (∃ ls', buildLoopBody config BuildOptions.empty "web" ls = Continue ls'
       ∧ builtImagesControl ls' !! "web" = Some true
       ∧ trace (st ls')
         = [EvBuilt "web"; EvSetServiceEnvVars "web" ""; EvBuildServiceImages "web";
            EvAttempt "web"])
  ∧ ∃ ls', buildLoopBody config BuildOptions.empty "web" bare
           = Stop (Returned (Some (ErrImageRequired "web"))) ls'
       ∧ builtImagesControl ls' = ∅.
Proof.
  intros ls bare.
  destruct (buildServiceImages_nothing_to_build config "web" BuildOptions.empty ls imageOnlyUnit)
    as (Hnil & Hbuilt & _); [vm_compute; reflexivity | reflexivity..|].
  destruct (buildServiceImages_nothing_to_build config "web" BuildOptions.empty bare BuildInfo.empty)
    as (_ & _ & Hrequired & _); [vm_compute; reflexivity | reflexivity..|].
  split; [exact Hnil|]. split.
  - destruct (Hbuilt eq_refl (or_introl eq_refl)) as (ls' & Hstep & Hcontrol & _ & Htrace).
    exists ls'. split; [exact Hstep|]. split; [|exact Htrace].
    rewrite Hcontrol. apply lookup_insert_eq.
  - destruct (Hrequired eq_refl eq_refl eq_refl) as (ls' & Hstep & Hcontrol & _).
    exists ls'. split; [exact Hstep | exact Hcontrol].
Defined.

(** Outside an okteto context a unit with no Dockerfile, no volume mounts
    and no image is not built: buildServiceImages would return the empty
    reference, but Build returns the image-required error before calling
    it, and the unit is neither entered in the built-set nor exported. *)
Lemma Build_bare_unit_stops_with_image_required :
  let s := state vanillaContext (manifestOf [("web", BuildInfo.empty)]) in
  buildServiceImages config "web" BuildOptions.empty s = (Ok "", s)
  ∧ Build_outcome 1 config BuildOptions.empty s = Returned (Some (ErrImageRequired "web"))
  ∧ ¬ ∃ fuel,
        Build_outcome fuel config BuildOptions.empty s = Returned None
        ∨ EvBuilt "web" ∈ Build_trace fuel config BuildOptions.empty s
        ∨ (∃ image, EvSetServiceEnvVars "web" image
                    ∈ Build_trace fuel config BuildOptions.empty s).
Proof.
  intros s. split; [vm_compute; reflexivity|]. split; [vm_compute; reflexivity|].
  intros [fuel Hclaim].
  destruct fuel as [|fuel].
  - vm_compute in Hclaim. destruct Hclaim as [Hout|[Hin|[image Hin]]];
      [discriminate Hout | by apply elem_of_nil in Hin..].
  - assert (Hrun : Build (S fuel) config BuildOptions.empty s
                   = Build 1 config BuildOptions.empty s).
    { vm_compute. reflexivity. }
    unfold Build_outcome, Build_trace in Hclaim. rewrite Hrun in Hclaim.
    destruct Hclaim as [Hout|[Hin|[image Hin]]].
    + vm_compute in Hout. discriminate Hout.
    + apply list_elem_of_In in Hin. vm_compute in Hin. intuition discriminate.
    + apply list_elem_of_In in Hin. vm_compute in Hin. intuition discriminate.
Qed.

(** The wrapped error reads as build.go formats it. *)
Example ErrBuildingService_message :
  Error_message (ErrBuildingService "a" (ExternalError "build failed"))
  = "error building service 'a': build failed".
Proof. reflexivity. Qed.

(** In the failing run the build of a is started, fails, and b is not
    started. *)
Example failing_run_trace :
  let tr := Build_trace 5 config BuildOptions.empty (mkSt failingWorld dependsOnPlan []) in
  EvAttempt "a" ∈ tr ∧ EvBuildFailed "a" (ExternalError "build failed") ∈ tr.
Proof. split; in_list. Qed.

(** The scenarios of build_test.go on the test doubles. *)
Example TestBuildWithoutVolumeMountWithImage :
  (buildServiceImages config "test" BuildOptions.empty
     (state oktetoContext
        (manifestOf [("test", BuildInfo.mk "dir" "dir/Dockerfile" "" "okteto/test" [] ∅ [] [])]))).1
  = Ok "okteto/test".
Proof. vm_compute. reflexivity. Qed.

Example TestBuildWithoutVolumeMountWithoutImage :
  (buildServiceImages config "test" BuildOptions.empty
     (state oktetoContext
        (manifestOf [("test", BuildInfo.mk "dir" "dir/Dockerfile" "" "" [] ∅ [] [])]))).1
  = Ok "okteto.dev/test-test:okteto".
Proof. vm_compute. reflexivity. Qed.

Example TestOnlyInjectVolumeMountsInOkteto :
  (buildServiceImages config "test" BuildOptions.empty
     (state oktetoContext
        (manifestOf [("test", BuildInfo.mk "" "" "" "nginx" [] ∅
                                [StackVolume.mk "dir" "test"] [])]))).1
  = Ok "okteto.dev/test-test:okteto-with-volume-mounts".
Proof. vm_compute. reflexivity. Qed.

Example TestTwoStepsBuild :
  (buildServiceImages config "test" BuildOptions.empty
     (state oktetoContext
        (manifestOf [("test", BuildInfo.mk "dir" "dir/Dockerfile" "" "" [] ∅
                                [StackVolume.mk "dir" "test"] [])]))).1
  = Ok "okteto.dev/test-test:okteto-with-volume-mounts".
Proof. vm_compute. reflexivity. Qed.

Example TestBuildWithDependsOn :
  Build_outcome 2 config BuildOptions.empty (state oktetoContext dependsOnPlan)
  = Returned None.
Proof. vm_compute. reflexivity. Qed.

Example sha256_empty :
  hashString "" = "e3b0c44298fc1c149afbf4c8996fb92427ae41e4649b934ca495991b7852b855".
Proof. vm_compute. reflexivity. Qed.

Example sha256_abc :
  hashString "abc" = "ba7816bf8f01cfea414140de5dae2223b00361a396177a9cb410ff61f20015ad".
Proof. vm_compute. reflexivity. Qed.

Example sha256_two_blocks :
  hashString "aaaaaaaaaaaaaaaaaaaaaaaaaaaaaaaaaaaaaaaaaaaaaaaaaaaaaaaaaaaaaaaa"
  = "ffe054fe7ae0cb6dc65c3af9b61d5209f439851db43d0ba5997337df154668eb".
Proof. vm_compute. reflexivity. Qed.

(** The plan of TestBuildWithDependsOn is well founded: Build returns within
    two rounds. *)
Lemma Build_terminates_on_well_founded_plan_witness :
  Build_outcome 2 config BuildOptions.empty (state oktetoContext dependsOnPlan) ≠ OutOfFuel.
Proof.
  apply (Build_terminates_on_well_founded_plan config BuildOptions.empty
           (state oktetoContext dependsOnPlan)
           (λ svc, if bool_decide (svc = "a") then 0 else 1) 2).
  intros options1 s1 Hprep. vm_compute in Hprep. injection Hprep as <- <-.
  change (getToBuildSvcs _ _ _) with ["a"; "b"]. simpl.
  split; [|lia]. split.
  - apply NoDup_cons. split; [set_solver | apply NoDup_singleton].
  - intros svc Hsvc.
    apply elem_of_cons in Hsvc as [->|Hsvc]; [|apply elem_of_cons in Hsvc as [->|Hsvc]].
    + exists []. split; [vm_compute; reflexivity|]. intros d Hd. by apply elem_of_nil in Hd.
    + exists ["a"]. split; [vm_compute; reflexivity|].
      intros d Hd. apply list_elem_of_singleton in Hd as ->. split; [by left | simpl; lia].
    + by apply elem_of_nil in Hsvc.
Defined.

End Runs.

(** * Further concrete runs *)

Module FurtherRuns.
Import Fake Scenarios FurtherScenarios.

Lemma getToBuildSvcs_whole_section_witness :
  let w := newWorld oktetoContext in
  BuildOptions.CommandArgs BuildOptions.empty = []
  ∧ getToBuildSvcs w dependsOnPlan BuildOptions.empty = ["a"; "b"]
  ∧ validateServices (Manifest.Build dependsOnPlan) ["a"; "b"] = None.
Proof.
  intros w. split; [reflexivity|].
  destruct (getToBuildSvcs_whole_section w dependsOnPlan BuildOptions.empty eq_refl)
    as (Hsvcs & Hvalid & _).
  - intros svc Hsvc. change (RangeKeys (Manifest.Build dependsOnPlan) w) with ["a"; "b"] in Hsvc.
    apply elem_of_cons in Hsvc as [->|Hsvc]; [|apply elem_of_cons in Hsvc as [->|Hsvc]].
    + eexists. vm_compute. reflexivity.
    + eexists. vm_compute. reflexivity.
    + by apply elem_of_nil in Hsvc.
  - change (RangeKeys (Manifest.Build dependsOnPlan) w) with ["a"; "b"] in Hsvcs.
    rewrite Hsvcs in Hvalid. split; [exact Hsvcs | exact Hvalid].
Defined.

Lemma buildLoop_built_set_witness :
  let ls := mkLoop (state oktetoContext dependsOnPlan) ∅ [] in
  let control' :=
    builtImagesControl (stepState (buildLoop 2 config BuildOptions.empty ["a"; "b"] ls)) in
  (∀ x v, builtImagesControl ls !! x = Some v → v = true)
  ∧ ∀ x, skipServiceBuild x control' = areAllServicesBuilt [x] control'.
Proof.
  intros ls control'.
  assert (Hempty : ∀ x v, builtImagesControl ls !! x = Some v → v = true).
  { intros x v Hx. simpl in Hx. rewrite lookup_empty in Hx. discriminate Hx. }
  split; [exact Hempty|].
  exact (proj2 (proj2 (proj2
           (buildLoop_built_set 2 config BuildOptions.empty ["a"; "b"] ls Hempty)))).
Defined.

Lemma Build_each_unit_once_witness :
  let s := state oktetoContext dependsOnPlan in
  trace s = []
  ∧ NoDup (omap startedUnit (Build_trace 2 config BuildOptions.empty s))
  ∧ NoDup (omap exportedUnit (Build_trace 2 config BuildOptions.empty s)).
Proof.
  intros s. split; [reflexivity|].
  destruct (Build_each_unit_once 2 config BuildOptions.empty s eq_refl) as (H1 & _ & _ & H4).
  split; [exact H1 | exact H4].
Defined.


Lemma Build_nil_builds_whole_plan_witness :
  let s := state oktetoContext dependsOnPlan in
  let tr := Build_trace 2 config BuildOptions.empty s in
  entersLoop BuildOptions.empty s
  ∧ Build_outcome 2 config BuildOptions.empty s = Returned None
  ∧ NoDup (planOf BuildOptions.empty s)
  ∧ EvExpandEnvVars ∈ tr
  ∧ ∀ svc, svc ∈ planOf BuildOptions.empty s →
      EvBuilt svc ∈ tr ∧ ∃ image, EvSetServiceEnvVars svc image ∈ tr.
Proof.
  intros s tr.
  assert (Henter : entersLoop BuildOptions.empty s).
  { split; [vm_compute; reflexivity|].
    exists BuildOptions.empty, s. split; vm_compute; reflexivity. }
  assert (Hout : Build_outcome 2 config BuildOptions.empty s = Returned None).
  { vm_compute. reflexivity. }
  split; [exact Henter|]. split; [exact Hout|].
  exact (Build_nil_builds_whole_plan 2 config BuildOptions.empty s Henter Hout).
Defined.

Lemma Build_tracks_once_witness :
  let s := mkSt failingWorld dependsOnPlan [] in
  let tr := Build_trace 5 config BuildOptions.empty s in
  trace s = []
  ∧ ((∃ metas, EvTrackImageBuild metas ∈ tr) ↔
     entersLoop BuildOptions.empty s
     ∧ Build_outcome 5 config BuildOptions.empty s ≠ OutOfFuel).
Proof.
  intros s tr. split; [reflexivity|].
  exact (proj2 (Build_tracks_once 5 config BuildOptions.empty s eq_refl)).
Defined.

Lemma Build_tracked_records_witness :
  let s := mkSt failingWorld dependsOnPlan [] in
  let tr := Build_trace 5 config BuildOptions.empty s in
  trace s = []
  ∧ EvTrackImageBuild failingRunRecords ∈ tr
  ∧ ImageBuildMetadata.Name <$> failingRunRecords = rev (omap startedUnit tr).
Proof.
  intros s tr. split; [reflexivity|].
  assert (Hin : EvTrackImageBuild failingRunRecords ∈ tr) by in_list.
  split; [exact Hin|].
  exact (proj1 (Build_tracked_records 5 config BuildOptions.empty s failingRunRecords
                  eq_refl Hin)).
Defined.

Lemma buildServiceImages_two_stages_witness :
  let s := state oktetoContext twoStepsPlan in
  Manifest.Build (manifest s) !! "test" = Some twoStepsUnit
  ∧ BuildInfo.Dockerfile twoStepsUnit ≠ ""
  ∧ BuildInfo.VolumesToInclude twoStepsUnit ≠ []
  ∧ okteto_IsOkteto (world s) = true
  ∧ match buildSvcFromDockerfile config "test" BuildOptions.empty s with
    | (Ok image, s1) =>
        let s2 := (buildServiceImages config "test" BuildOptions.empty s).2 in
        Manifest.Build (manifest s2)
        = <["test" := BuildInfo.withImage image twoStepsUnit]> (Manifest.Build (manifest s))
        ∧ ∃ Δ, trace s2
               = (Δ ++ EvCreateDockerfile
                         (if bool_decide (BuildOptions.Tag BuildOptions.empty = "")
                          then image else BuildOptions.Tag BuildOptions.empty)
                         (getAccessibleVolumeMounts (world s1) twoStepsUnit) :: trace s1)%list
               ∧ (Δ = [] ∨ ∃ opts, Δ = [EvV1Build opts]
                                   ∧ BuildOptions.Tag opts
                                     = volumesTag config "test" s1 twoStepsUnit)
    | (r, s1) => buildServiceImages config "test" BuildOptions.empty s = (r, s1)
    end.
Proof.
  intros s.
  assert (Hb : Manifest.Build (manifest s) !! "test" = Some twoStepsUnit).
  { vm_compute. reflexivity. }
  assert (Hdocker : BuildInfo.Dockerfile twoStepsUnit ≠ "") by discriminate.
  assert (Hvol : BuildInfo.VolumesToInclude twoStepsUnit ≠ []) by discriminate.
  do 3 (split; [assumption|]). split; [reflexivity|].
  exact (buildServiceImages_two_stages config "test" BuildOptions.empty s twoStepsUnit
           Hb Hdocker Hvol eq_refl).
Defined.

Lemma buildServiceImages_success_witness :
  let s := state oktetoContext twoStepsPlan in
  let run := buildServiceImages config "test" BuildOptions.empty s in
  Manifest.Build (manifest s) !! "test" = Some twoStepsUnit
  ∧ run = (Ok "okteto.dev/test-test:okteto-with-volume-mounts", run.2)
  ∧ ∃ Δ, trace run.2 = (Δ ++ trace s)%list
      ∧ length (omap executorRun Δ) = 2.
Proof.
  intros s run.
  assert (Hb : Manifest.Build (manifest s) !! "test" = Some twoStepsUnit).
  { vm_compute. reflexivity. }
  assert (Hrun : run = (Ok "okteto.dev/test-test:okteto-with-volume-mounts", run.2)).
  { vm_compute. reflexivity. }
  split; [exact Hb|]. split; [exact Hrun|].
  destruct (buildServiceImages_success config "test" BuildOptions.empty s twoStepsUnit
              _ _ Hb Hrun) as (Δ & Ht & Hlen & _).
  exists Δ. split; [exact Ht | exact Hlen].
Defined.

Lemma Build_reads_no_missing_unit_witness :
  let s := state oktetoContext twoStepsPlan in
  let ls := stepState (buildLoop 1 config BuildOptions.empty ["test"] (mkLoop s ∅ [])) in
  prepareOptions BuildOptions.empty s = (Ok BuildOptions.empty, s)
  ∧ validateOptions (manifest s) ["test"] BuildOptions.empty = None
  ∧ (∀ svc, is_Some (Manifest.Build (manifest (st ls)) !! svc)
            ↔ is_Some (Manifest.Build (manifest s) !! svc))
  ∧ is_Some (Manifest.Build (manifest (st ls)) !! "test").
Proof.
  intros s ls.
  assert (Hprep : prepareOptions BuildOptions.empty s = (Ok BuildOptions.empty, s)).
  { vm_compute. reflexivity. }
  assert (Hvalid : validateOptions (manifest s)
                     (getToBuildSvcs (world s) (manifest s) BuildOptions.empty)
                     BuildOptions.empty = None).
  { vm_compute. reflexivity. }
  split; [exact Hprep|]. split; [exact Hvalid|].
  destruct (Build_reads_no_missing_unit 1 config BuildOptions.empty s BuildOptions.empty s Hprep Hvalid)
    as (Hkeys & Hplan & _).
  split; [exact Hkeys|]. apply (Hplan "test"). vm_compute. left.
Defined.

Lemma Build_never_returns_after_plan_rounds_witness :
  let s := state oktetoContext cyclicPlan in
  (length (planOf BuildOptions.empty s) ≤ 2)%nat
  ∧ Build_outcome 2 config BuildOptions.empty s = OutOfFuel
  ∧ ∀ fuel', Build_outcome fuel' config BuildOptions.empty s = OutOfFuel.
Proof.
  intros s.
  assert (Hlen : (length (planOf BuildOptions.empty s) ≤ 2)%nat).
  { change (planOf BuildOptions.empty s) with ["a"; "b"]. simpl. lia. }
  assert (Hout : Build_outcome 2 config BuildOptions.empty s = OutOfFuel).
  { vm_compute. reflexivity. }
  split; [exact Hlen|]. split; [exact Hout|].
  exact (Build_never_returns_after_plan_rounds 2 config BuildOptions.empty s Hlen Hout).
Defined.

End FurtherRuns.

Module InitRuns.
Import Fake Scenarios FakeInit.

Example inferred_units :
  inferredSection !! "api"
  = Some (BuildInfo.mk "api" "api/Dockerfile" "" "" [] ∅ [] [])
  ∧ inferredSection !! "inferred"
    = Some (BuildInfo.mk "." "Dockerfile" "" "" [] ∅ [] [])
  ∧ size inferredSection = 2.
Proof. vm_compute. auto. Qed.

Lemma Build_schedules_inferred_section_witness :
  let w := newWorld oktetoContext in
  let s := mkSt w inferredPlan [] in
  inferBuildSectionFromDockerfiles "/" ["Dockerfile"; "api/Dockerfile"] w
  = (Ok inferredSection, w)
  ∧ NoDup (planOf BuildOptions.empty s)
  ∧ (length (planOf BuildOptions.empty s) ≤ 2)%nat
  ∧ Build_outcome 2 config BuildOptions.empty s ≠ OutOfFuel.
Proof.
  intros w s.
  assert (Hinfer : inferBuildSectionFromDockerfiles "/" ["Dockerfile"; "api/Dockerfile"] w
                   = (Ok inferredSection, w)).
  { vm_compute. reflexivity. }
  assert (Hplan : planOf BuildOptions.empty s = ["inferred"; "api"]).
  { vm_compute. reflexivity. }
  assert (Hnodup : NoDup (planOf BuildOptions.empty s)).
  { rewrite Hplan. apply NoDup_cons. split; [|apply NoDup_singleton].
    intros Hin. apply list_elem_of_singleton in Hin. discriminate Hin. }
  assert (Hlen : (length (planOf BuildOptions.empty s) ≤ 2)%nat).
  { rewrite Hplan. simpl. lia. }
  split; [exact Hinfer|]. split; [exact Hnodup|]. split; [exact Hlen|].
  exact (Build_schedules_inferred_section "/" ["Dockerfile"; "api/Dockerfile"] w
           inferredSection w 2 config BuildOptions.empty s Hinfer eq_refl Hnodup Hlen).
Defined.

End InitRuns.
